(** * memr: the belief engine (embeddings and belief store)

    A shallow embedding of [utils/embeddings.ts] and [storage/belief-store.ts],
    and of the session, event and prediction stores with the commands of
    [index.ts] that write to two of them.

    Conventions of the model.
    - A JavaScript [number] that carries a measurement (confidence, score,
      vector component) is a real number [R]: arithmetic is exact, so
      rounding, overflow, NaN and the infinities of IEEE doubles are outside
      the model.  Integral numbers (timestamps, counters, importance, limits)
      are [Z]; array indices and lengths are [nat].
    - A JavaScript string is a Rocq [string]; its characters are the UTF-16
      code units below 256, on which [toLowerCase] is written out.
    - A thrown exception is the [Err] branch of [result].
    - The [beliefs] table is the list of its rows in rowid order.  Columns
      that hold JSON text are kept decoded.  An SQL [ORDER BY] is a stable
      sort of that list.  The FTS5 index ([MATCH] and [rank]) belongs to the
      database engine and is a parameter of the store.
    - [Date.now()], [uuidv4()] and [loadConfig()] are read from the
      environment: they are arguments of the operations that call them.
    - The SQLite driver decides whether an integral number reaches the engine
      as an INTEGER or as a REAL, which decides the kind of [/] in the decay
      sweep; the sweep takes that binding as an argument and its properties
      are proved for both. *)

From Stdlib Require Import Reals Lra Ascii Sorted.
From stdpp Require Import gmap strings list.

Set Warnings "-clear-no-such-hyp".

(** ** Numbers and exceptions *)

#[global] Instance Rlt_decision (x y : R) : Decision (x < y)%R := Rlt_dec x y.
#[global] Instance Rle_decision (x y : R) : Decision (x <= y)%R := Rle_dec x y.
#[global] Instance Req_decision : EqDecision R := Req_dec_T.

Inductive error : Type :=
  | VectorsLength   (* Error('Vectors must have the same length') *)
  | FtsSyntax       (* the FTS5 engine rejects the MATCH expression *)
  | UniqueId.       (* PRIMARY KEY violation on insert *)

Inductive result (A : Type) : Type :=
  | Ok (a : A)
  | Err (e : error).
Arguments Ok {A} a.
Arguments Err {A} e.

Definition rbind {A B : Type} (m : result A) (k : A -> result B) : result B :=
  match m with
  | Ok a => k a
  | Err e => Err e
  end.

Notation "x <-! m ;; k" := (rbind m (fun x => k))
  (at level 100, m at next level, right associativity).

(** [xs.map(f)] where [f] may throw: the first exception escapes. *)
Fixpoint rmap {A B : Type} (f : A -> result B) (l : list A) : result (list B) :=
  match l with
  | [] => Ok []
  | x :: l' => y <-! f x ;; ys <-! rmap f l' ;; Ok (y :: ys)
  end.

(** [Array.prototype.sort(cmp)] and [ORDER BY]: a stable sort; [before x y]
    says that [x] must come strictly before [y] ([cmp(x, y) < 0]). *)
Section Sort.
Context {A : Type} (before : A -> A -> bool).

Fixpoint insert_by (x : A) (l : list A) : list A :=
  match l with
  | [] => [x]
  | y :: l' => if before y x then y :: insert_by x l' else x :: y :: l'
  end.

Fixpoint sort_by (l : list A) : list A :=
  match l with
  | [] => []
  | x :: l' => insert_by x (sort_by l')
  end.
End Sort.

(** [xs.slice(0, n)] for an integer [n]: a negative [n] counts from the end. *)
Definition slice0 {A : Type} (n : Z) (l : list A) : list A :=
  if (n <? 0)%Z then take (Z.to_nat (Z.of_nat (length l) + n)) l
  else take (Z.to_nat n) l.

(** SQL [LIMIT n]: a negative [n] means no limit. *)
Definition sql_limit {A : Type} (n : Z) (l : list A) : list A :=
  if (n <? 0)%Z then l else take (Z.to_nat n) l.

(** [UPDATE t SET ... WHERE ...] on the rows of any table: the new rows and
    [result.changes], the number of rows the WHERE clause selects. *)
Definition update_where {A : Type} (where_ : A -> Prop) `{!forall r, Decision (where_ r)}
    (set : A -> A) (rows : list A) : list A * Z :=
  ((fun r => if decide (where_ r) then set r else r) <$> rows,
   Z.of_nat (length (filter where_ rows))).

(** ** utils/embeddings.ts *)

Module Embeddings.

(** [String.prototype.toLowerCase] on code units below 256: A-Z and the
    Latin-1 capitals (0xC0-0xDE except the multiplication sign 0xD7). *)
Definition lower_code (c : nat) : nat :=
  if ((65 <=? c) && (c <=? 90)) || ((192 <=? c) && (c <=? 222) && negb (c =? 215))
  then c + 32 else c.

Definition toLowerCase (s : string) : string :=
  String.string_of_list_ascii
    (map (fun a => ascii_of_nat (lower_code (nat_of_ascii a))) (String.list_ascii_of_string s)).

(** The code units of a string: [charCodes s !! i] is [s.charCodeAt(i)]. *)
Definition charCodes (s : string) : list nat :=
  map nat_of_ascii (String.list_ascii_of_string s).

(** [a % d] on non-negative integers; [None] is NaN (d = 0). *)
Definition js_mod (a d : nat) : option nat :=
  if d =? 0 then None else Some (a mod d).

(** [embedding[idx] += x].  With [idx] NaN the assignment creates the
    property "NaN" on the array object and no element changes.  A numeric
    [idx] is always below [dims] here ([js_mod_lt]). *)
Definition add_at (idx : option nat) (x : R) (embedding : list R) : list R :=
  match idx with
  | None => embedding
  | Some i => alter (fun v => v + x)%R i embedding
  end.

(** One iteration of the loop over the characters. *)
Definition hash_step (dims : nat) (codes : list nat) (embedding : list R) (i : nat)
  : list R :=
  match codes !! i with
  | None => embedding
  | Some charCode =>
      (* Primary hash *)
      let e1 := add_at (js_mod (charCode * (i + 1)) dims) (1 / INR (i + 1))%R embedding in
      (* Secondary hash for bigrams *)
      let e2 :=
        match (if 0 <? i then codes !! (i - 1) else None) with
        | Some prevCode =>
            add_at (js_mod (prevCode * 31 + charCode) dims) (0.5 / INR (i + 1))%R e1
        | None => e1
        end in
      (* Tertiary hash for word boundaries *)
      match (if (charCode =? 32) && (i <? length codes - 1) then codes !! (i + 1) else None) with
      | Some nextCode => add_at (js_mod (nextCode * 17 + i) dims) 0.3%R e2
      | None => e2
      end
  end.

(** [embedding.reduce((sum, v) => sum + v * v, 0)] *)
Definition sum_squares (embedding : list R) : R :=
  foldl (fun sum v => sum + v * v)%R 0%R embedding.

Definition hash_loop (dims : nat) (codes : list nat) : list R :=
  foldl (hash_step dims codes) (replicate dims 0%R) (seq 0 (length codes)).

Definition generateEmbedding (text : string) (dims : nat) : list R :=
  let normalized := toLowerCase text in
  let embedding := hash_loop dims (charCodes normalized) in
  (* Normalize to unit vector *)
  let magnitude := sqrt (sum_squares embedding) in
  if decide (0 < magnitude)%R
  then map (fun v => v / magnitude)%R embedding
  else embedding.

Definition default_dims : nat := 384.

(** The three accumulators of the loop of [cosineSimilarity]. *)
Definition cos_step (acc : R * R * R) (ab : R * R) : R * R * R :=
  let '(dotProduct, normA, normB) := acc in
  let '(ai, bi) := ab in
  (dotProduct + ai * bi, normA + ai * ai, normB + bi * bi)%R.

(** The loop reads [a[i]] and [b[i]] for [i < a.length]; it is reached
    only when both arrays have that length, so it runs over the pairs. *)
Definition cosineSimilarity (a b : list R) : result R :=
  if negb (length a =? length b) then Err VectorsLength
  else
    let '(dotProduct, normA, normB) := foldl cos_step (0, 0, 0)%R (zip a b) in
    let magnitude := (sqrt normA * sqrt normB)%R in
    if decide (magnitude = 0%R) then Ok 0%R
    else Ok (dotProduct / magnitude)%R.

(** [texts.map((t) => generateEmbedding(t))]: the arrow takes the text only,
    so every call runs at the default dimension. *)
Definition generateEmbeddings (texts : list string) : list (list R) :=
  (fun t => generateEmbedding t default_dims) <$> texts.

(** A candidate of [findSimilar]; [c_embedding] is [None] when the property
    is absent.  An array, also the empty one, is truthy. *)
Record Candidate : Type := mkCandidate {
  c_id : string;
  c_text : string;
  c_embedding : option (list R)
}.

(** The body of [for (const c of candidates)]: the write to [c.embedding]. *)
Definition fill_embedding (c : Candidate) : Candidate :=
  match c_embedding c with
  | Some _ => c
  | None => mkCandidate (c_id c) (c_text c)
              (Some (generateEmbedding (c_text c) default_dims))
  end.

(** [(a, b) => b.score - a.score] on the pairs (id, score). *)
Definition by_similarity (a b : string * R) : bool :=
  bool_decide (b.2 - a.2 < 0)%R.

(** [findSimilar]: the candidates are the caller's objects and the first
    loop writes to them, so the call returns them as it leaves them, beside
    its result.  The loop has ended before the first similarity is
    computed.  [topK] is [None] when the argument is absent. *)
Definition findSimilar (query : string) (candidates : list Candidate) (topK : option Z)
  : list Candidate * result (list (string * R)) :=
  let queryEmbedding := generateEmbedding query default_dims in
  (* Generate embeddings for candidates that don't have them *)
  let candidates := fill_embedding <$> candidates in
  (candidates,
   (* Calculate similarities *)
   scored <-! rmap (fun c =>
                      s <-! cosineSimilarity queryEmbedding (default [] (c_embedding c)) ;;
                      Ok (c_id c, s))
                   candidates ;;
   (* Sort by score descending and return top K *)
   Ok (slice0 (default 10%Z topK) (sort_by by_similarity scored))).

(** The mathematical notions the specification speaks of. *)
Definition dot (a b : list R) : R := foldr Rplus 0%R (zip_with Rmult a b).
Definition norm (a : list R) : R := sqrt (dot a a).

End Embeddings.


(** ** types.ts *)

Module Types.

Inductive BeliefDomain : Type :=
  | code_pattern
  | user_preference
  | project_structure
  | workflow
  | decision
  | constraint.

#[global] Instance BeliefDomain_eq_dec : EqDecision BeliefDomain.
Proof. solve_decision. Defined.

(** [interface Belief], with the type of [id] left open: [BeliefOf string]
    is [Belief] and [BeliefOf unit] is [Omit<Belief, 'id'>].  An optional
    field is an [option]. *)
Record BeliefOf (I : Type) : Type := mkBelief {
  id : I;
  text : string;
  domain : BeliefDomain;
  confidence : R;
  evidence_ids : list string;
  supporting_count : Z;
  contradicting_count : Z;
  derived_at : Z;
  last_evaluated : Z;
  supersedes_id : option string;
  invalidated_at : option Z;
  invalidation_reason : option string;
  embedding : option (list R);
  importance : Z;
  tags : list string;
}.
Arguments mkBelief {I}.
Arguments id {I}.
Arguments text {I}.
Arguments domain {I}.
Arguments confidence {I}.
Arguments evidence_ids {I}.
Arguments supporting_count {I}.
Arguments contradicting_count {I}.
Arguments derived_at {I}.
Arguments last_evaluated {I}.
Arguments supersedes_id {I}.
Arguments invalidated_at {I}.
Arguments invalidation_reason {I}.
Arguments embedding {I}.
Arguments importance {I}.
Arguments tags {I}.

Abbreviation Belief := (BeliefOf string).

(** [Partial<Belief>]: every field optional. *)
Record PartialBelief : Type := mkPartial {
  p_id : option string;
  p_text : option string;
  p_domain : option BeliefDomain;
  p_confidence : option R;
  p_evidence_ids : option (list string);
  p_supporting_count : option Z;
  p_contradicting_count : option Z;
  p_derived_at : option Z;
  p_last_evaluated : option Z;
  p_supersedes_id : option string;
  p_invalidated_at : option Z;
  p_invalidation_reason : option string;
  p_embedding : option (list R);
  p_importance : option Z;
  p_tags : option (list string);
}.

Record SearchOptions : Type := mkOptions {
  limit : option Z;
  minConfidence : option R;
  o_domain : option BeliefDomain;
  timeRange : option (Z * Z);
  activeOnly : option bool;
}.

(** [options = {}] *)
Definition no_options : SearchOptions := mkOptions None None None None None.

(** [{ ...options, limit: l }] *)
Definition with_limit (l : option Z) (o : SearchOptions) : SearchOptions :=
  mkOptions l (minConfidence o) (o_domain o) (timeRange o) (activeOnly o).

Definition with_minConfidence (m : option R) (o : SearchOptions) : SearchOptions :=
  mkOptions (limit o) m (o_domain o) (timeRange o) (activeOnly o).

Inductive MatchType : Type := semantic | keyword | hybrid.

Record BeliefSearchResult : Type := mkResult {
  belief : Belief;
  score : R;
  matchType : MatchType;
}.

Record Config : Type := mkConfig {
  contradictionThreshold : Z;
  confidenceDecayPerDay : R;
  minConfidenceFloor : R;
  consolidationEventThreshold : Z;
  consolidationIntervalMinutes : Z;
}.

Definition DEFAULT_CONFIG : Config :=
  {| contradictionThreshold := 3;
     confidenceDecayPerDay := 0.01;
     minConfidenceFloor := 0.3;
     consolidationEventThreshold := 50;
     consolidationIntervalMinutes := 30 |}.

End Types.


(** ** storage/belief-store.ts *)

Module BeliefStore.
Import Embeddings Types.

(** A row of the [beliefs] table: the columns are the fields of [Belief]
    ([created_at] is never read); a NULL column is [None]. *)
Abbreviation BeliefRow := (BeliefOf string) (only parsing).

(** JavaScript truthiness inside [x || y] and [if (x)]: [undefined], [null],
    [0] and the empty string are falsy. *)
Definition truthyZ (o : option Z) : option Z :=
  match o with
  | Some z => if decide (z = 0%Z) then None else Some z
  | None => None
  end.

Definition truthyR (o : option R) : option R :=
  match o with
  | Some x => if decide (x = 0%R) then None else Some x
  | None => None
  end.

Definition truthyS (o : option string) : option string :=
  match o with
  | Some s => if decide (s = EmptyString) then None else Some s
  | None => None
  end.

(** Field updates ([SET column = ...]). *)
Definition set_text (v : string) (r : BeliefRow) : BeliefRow :=
  mkBelief (id r) v (domain r) (confidence r) (evidence_ids r) (supporting_count r)
    (contradicting_count r) (derived_at r) (last_evaluated r) (supersedes_id r)
    (invalidated_at r) (invalidation_reason r) (embedding r) (importance r) (tags r).

Definition set_confidence (v : R) (r : BeliefRow) : BeliefRow :=
  mkBelief (id r) (text r) (domain r) v (evidence_ids r) (supporting_count r)
    (contradicting_count r) (derived_at r) (last_evaluated r) (supersedes_id r)
    (invalidated_at r) (invalidation_reason r) (embedding r) (importance r) (tags r).

Definition set_evidence_ids (v : list string) (r : BeliefRow) : BeliefRow :=
  mkBelief (id r) (text r) (domain r) (confidence r) v (supporting_count r)
    (contradicting_count r) (derived_at r) (last_evaluated r) (supersedes_id r)
    (invalidated_at r) (invalidation_reason r) (embedding r) (importance r) (tags r).

Definition set_supporting_count (v : Z) (r : BeliefRow) : BeliefRow :=
  mkBelief (id r) (text r) (domain r) (confidence r) (evidence_ids r) v
    (contradicting_count r) (derived_at r) (last_evaluated r) (supersedes_id r)
    (invalidated_at r) (invalidation_reason r) (embedding r) (importance r) (tags r).

Definition set_contradicting_count (v : Z) (r : BeliefRow) : BeliefRow :=
  mkBelief (id r) (text r) (domain r) (confidence r) (evidence_ids r) (supporting_count r)
    v (derived_at r) (last_evaluated r) (supersedes_id r)
    (invalidated_at r) (invalidation_reason r) (embedding r) (importance r) (tags r).

Definition set_last_evaluated (v : Z) (r : BeliefRow) : BeliefRow :=
  mkBelief (id r) (text r) (domain r) (confidence r) (evidence_ids r) (supporting_count r)
    (contradicting_count r) (derived_at r) v (supersedes_id r)
    (invalidated_at r) (invalidation_reason r) (embedding r) (importance r) (tags r).

Definition set_invalidation (at_ : option Z) (reason : option string) (r : BeliefRow)
  : BeliefRow :=
  mkBelief (id r) (text r) (domain r) (confidence r) (evidence_ids r) (supporting_count r)
    (contradicting_count r) (derived_at r) (last_evaluated r) (supersedes_id r)
    at_ reason (embedding r) (importance r) (tags r).

Definition set_embedding (v : option (list R)) (r : BeliefRow) : BeliefRow :=
  mkBelief (id r) (text r) (domain r) (confidence r) (evidence_ids r) (supporting_count r)
    (contradicting_count r) (derived_at r) (last_evaluated r) (supersedes_id r)
    (invalidated_at r) (invalidation_reason r) v (importance r) (tags r).

Definition set_importance (v : Z) (r : BeliefRow) : BeliefRow :=
  mkBelief (id r) (text r) (domain r) (confidence r) (evidence_ids r) (supporting_count r)
    (contradicting_count r) (derived_at r) (last_evaluated r) (supersedes_id r)
    (invalidated_at r) (invalidation_reason r) (embedding r) v (tags r).

Definition set_tags (v : list string) (r : BeliefRow) : BeliefRow :=
  mkBelief (id r) (text r) (domain r) (confidence r) (evidence_ids r) (supporting_count r)
    (contradicting_count r) (derived_at r) (last_evaluated r) (supersedes_id r)
    (invalidated_at r) (invalidation_reason r) (embedding r) (importance r) v.

(** [UPDATE beliefs SET ... WHERE ...]: the new table and [result.changes],
    the number of rows the WHERE clause selects. *)
Definition sql_update (where_ : BeliefRow -> Prop) `{!forall r, Decision (where_ r)}
    (set : BeliefRow -> BeliefRow) (db : list BeliefRow) : list BeliefRow * Z :=
  (map (fun r => if decide (where_ r) then set r else r) db,
   Z.of_nat (length (filter where_ db))).

Definition rowToBelief (row : BeliefRow) : Belief :=
  {| id := id row;
     text := text row;
     domain := domain row;
     confidence := confidence row;
     evidence_ids := evidence_ids row;
     supporting_count := supporting_count row;
     contradicting_count := contradicting_count row;
     derived_at := derived_at row;
     last_evaluated := last_evaluated row;
     supersedes_id := truthyS (supersedes_id row);
     invalidated_at := truthyZ (invalidated_at row);
     invalidation_reason := truthyS (invalidation_reason row);
     importance := importance row;
     tags := tags row;
     embedding := embedding row |}.

(** [create]; [newid] is the value of [uuidv4()]. *)
Definition create (db : list BeliefRow) (newid : string) (b : BeliefOf unit)
  : result (list BeliefRow * Belief) :=
  (* Generate embedding if not provided *)
  let embedding' :=
    match embedding b with
    | Some e => e
    | None => generateEmbedding (text b) default_dims
    end in
  let fullBelief : Belief :=
    mkBelief newid (text b) (domain b) (confidence b) (evidence_ids b)
      (supporting_count b) (contradicting_count b) (derived_at b) (last_evaluated b)
      (supersedes_id b) (invalidated_at b) (invalidation_reason b) (Some embedding')
      (importance b) (tags b) in
  let row : BeliefRow :=
    mkBelief newid (text b) (domain b) (confidence b) (evidence_ids b)
      (supporting_count b) (contradicting_count b) (derived_at b) (last_evaluated b)
      (truthyS (supersedes_id b)) (truthyZ (invalidated_at b))
      (truthyS (invalidation_reason b)) (Some embedding')
      (importance b) (tags b) in
  if decide (newid ∈ map id db) then Err UniqueId
  else Ok (db ++ [row], fullBelief).

Definition getById (db : list BeliefRow) (i : string) : option Belief :=
  rowToBelief <$> head (filter (fun r => id r = i) db).

(** [ORDER BY importance DESC, confidence DESC] *)
Definition by_importance_confidence (x y : BeliefRow) : bool :=
  bool_decide (importance y < importance x)%Z
  || (bool_decide (importance x = importance y) && bool_decide (confidence y < confidence x)%R).

Definition getActive (db : list BeliefRow) (options : SearchOptions) : list Belief :=
  let q0 := filter (fun r => invalidated_at r = None) db in
  let q1 :=
    match truthyR (minConfidence options) with
    | Some m => filter (fun r => (m <= confidence r)%R) q0
    | None => q0
    end in
  let q2 :=
    match o_domain options with
    | Some d => filter (fun r => domain r = d) q1
    | None => q1
    end in
  let q3 := sort_by by_importance_confidence q2 in
  let q4 :=
    match truthyZ (limit options) with
    | Some n => sql_limit n q3
    | None => q3
    end in
  map rowToBelief q4.

(** [ORDER BY confidence DESC, importance DESC] *)
Definition by_confidence_importance (x y : BeliefRow) : bool :=
  bool_decide (confidence y < confidence x)%R
  || (bool_decide (confidence x = confidence y) && bool_decide (importance y < importance x)%Z).

(** [getByDomain]; [activeOnly] is the one field of its options. *)
Definition getByDomain (db : list BeliefRow) (d : BeliefDomain) (activeOnly : option bool)
  : list Belief :=
  let q0 := filter (fun r => domain r = d) db in
  let q1 :=
    if decide (activeOnly = Some false) then q0
    else filter (fun r => invalidated_at r = None) q0 in
  map rowToBelief (sort_by by_confidence_importance q1).

(** [options: { activeOnly?: boolean; domain?: BeliefDomain }] of [count]. *)
Record CountOptions : Type := mkCountOptions {
  c_activeOnly : option bool;
  c_domain : option BeliefDomain;
}.

Definition count (db : list BeliefRow) (options : CountOptions) : Z :=
  let q0 :=
    if decide (c_activeOnly options = Some false) then db
    else filter (fun r => invalidated_at r = None) db in
  let q1 :=
    match c_domain options with
    | Some d => filter (fun r => domain r = d) q0
    | None => q0
    end in
  Z.of_nat (length q1).

(** The string a domain is stored as; the keys of the object that
    [getStatsPerDomain] returns. *)
Definition domain_name (d : BeliefDomain) : string :=
  match d with
  | code_pattern => "code_pattern"
  | user_preference => "user_preference"
  | project_structure => "project_structure"
  | workflow => "workflow"
  | decision => "decision"
  | constraint => "constraint"
  end.

Definition all_domains : list BeliefDomain :=
  [code_pattern; constraint; decision; project_structure; user_preference; workflow].

(** [SUM(confidence)] over rows. *)
Definition sum_confidence (rows : list BeliefRow) : R :=
  foldr (fun r acc => confidence r + acc)%R 0%R rows.

(** The row that [GROUP BY domain] gives for one domain: none when no
    active row has it, else its row count and [AVG(confidence)]. *)
Definition domain_group (db : list BeliefRow) (d : BeliefDomain)
  : option (string * (Z * R)) :=
  match filter (fun r => invalidated_at r = None /\ domain r = d) db with
  | [] => None
  | g => Some (domain_name d,
               (Z.of_nat (length g), (sum_confidence g / INR (length g))%R))
  end.

(** [getStatsPerDomain]: the object [stats], keyed by domain name, with
    the pair (count, avgConfidence) as value. *)
Definition getStatsPerDomain (db : list BeliefRow) : gmap string (Z * R) :=
  foldl (fun stats row => <[row.1 := row.2]> stats) ∅
    (omap (domain_group db) all_domains).

(** The writes of [update], in the order of the [if]s. *)
Definition apply_changes (changes : PartialBelief) (r : BeliefRow) : BeliefRow :=
  let r := match p_text changes with Some v => set_text v r | None => r end in
  let r := match p_confidence changes with Some v => set_confidence v r | None => r end in
  let r := match p_evidence_ids changes with Some v => set_evidence_ids v r | None => r end in
  let r := match p_supporting_count changes with Some v => set_supporting_count v r | None => r end in
  let r := match p_contradicting_count changes with Some v => set_contradicting_count v r | None => r end in
  let r := match p_last_evaluated changes with Some v => set_last_evaluated v r | None => r end in
  let r := match p_importance changes with Some v => set_importance v r | None => r end in
  let r := match p_tags changes with Some v => set_tags v r | None => r end in
  match p_embedding changes with Some v => set_embedding (Some v) r | None => r end.

(** [updates.length === 0] *)
Definition no_updates (changes : PartialBelief) : bool :=
  bool_decide (p_text changes = None) && bool_decide (p_confidence changes = None)
  && bool_decide (p_evidence_ids changes = None)
  && bool_decide (p_supporting_count changes = None)
  && bool_decide (p_contradicting_count changes = None)
  && bool_decide (p_last_evaluated changes = None)
  && bool_decide (p_importance changes = None)
  && bool_decide (p_tags changes = None)
  && bool_decide (p_embedding changes = None).

Definition update (db : list BeliefRow) (i : string) (changes : PartialBelief)
  : list BeliefRow * option Belief :=
  match getById db i with
  | None => (db, None)
  | Some existing =>
      if no_updates changes then (db, Some existing)
      else
        let db' := (sql_update (fun r => id r = i) (apply_changes changes) db).1 in
        (db', getById db' i)
  end.

(** [invalidate]; [now] is the value of [Date.now()]. *)
Definition invalidate (db : list BeliefRow) (now : Z) (i : string) (reason : string)
  : list BeliefRow * bool :=
  let '(db', changes) :=
    sql_update (fun r => id r = i /\ invalidated_at r = None)
      (set_invalidation (Some now) (Some reason)) db in
  (db', bool_decide (0 < changes)%Z).

Definition incrementContradicting (db : list BeliefRow) (i : string) : list BeliefRow :=
  (sql_update (fun r => id r = i)
     (fun r => set_contradicting_count (contradicting_count r + 1) r) db).1.

Definition incrementSupporting (db : list BeliefRow) (i : string) : list BeliefRow :=
  (sql_update (fun r => id r = i)
     (fun r => set_supporting_count (supporting_count r + 1) r) db).1.

(** How the driver hands an integral JavaScript number such as [Date.now()]
    to its [?]: as a REAL, or as an INTEGER (the documented mapping of
    bun:sqlite for integral numbers).  The driver is not part of the
    repository; the operations that depend on it take the binding as an
    argument. *)
Inductive NumberBinding : Type := AsReal | AsInteger.

(** SQL [x / y] on integral values: the real quotient when an operand is a
    REAL, the quotient truncated toward zero when both are INTEGER. *)
Definition sql_div (binding : NumberBinding) (x y : Z) : R :=
  match binding with
  | AsReal => (IZR x / IZR y)%R
  | AsInteger => IZR (Z.quot x y)
  end.

Section WithConfig.
(** [loadConfig()] *)
Variable config : Config.
Variable binding : NumberBinding.

Definition adjustConfidence (db : list BeliefRow) (ids : list string) (delta : R)
  : list BeliefRow :=
  if decide (length ids = 0) then db
  else
    (* Clamp confidence between minConfidenceFloor and 1.0 *)
    (sql_update (fun r => id r ∈ ids)
       (fun r => set_confidence
                   (Rmax (minConfidenceFloor config) (Rmin 1.0 (confidence r + delta))) r)
       db).1.

Definition dayInMs : Z := 24 * 60 * 60 * 1000.

(** [applyConfidenceDecay]; [now] is the value of [Date.now()].  In
    [(? - last_evaluated) / ?] the column and [dayInMs] are INTEGERs, so the
    kind of division follows the binding of [now]. *)
Definition applyConfidenceDecay (db : list BeliefRow) (now : Z) : list BeliefRow * Z :=
  sql_update
    (fun r => invalidated_at r = None /\ (confidence r > minConfidenceFloor config)%R)
    (fun r => set_confidence
                (Rmax (minConfidenceFloor config)
                   (confidence r - confidenceDecayPerDay config
                                   * sql_div binding (now - last_evaluated r) dayInMs)) r)
    db.

End WithConfig.

(** The reads that go through the FTS5 index.  [fts5 db query] is the
    engine's answer to [beliefs_fts MATCH query] over the rows of [db]: an
    error when it rejects the expression, otherwise the [rank] of every
    matching row ([None] for a row that does not match). *)
Section WithEngine.
Variable fts5 : list BeliefRow -> string -> result (BeliefRow -> option R).

(** [ORDER BY rank] *)
Definition by_rank (rank : BeliefRow -> option R) (x y : BeliefRow) : bool :=
  match rank x, rank y with
  | Some rx, Some ry => bool_decide (rx < ry)%R
  | _, _ => false
  end.

Definition searchKeyword (db : list BeliefRow) (query : string) (options : SearchOptions)
  : result (list Belief) :=
  rank <-! fts5 db query ;;
  let q0 := filter (fun r => is_Some (rank r)) db in
  let q1 :=
    if decide (activeOnly options = Some false) then q0
    else filter (fun r => invalidated_at r = None) q0 in
  let q2 :=
    match truthyR (minConfidence options) with
    | Some m => filter (fun r => (m <= confidence r)%R) q1
    | None => q1
    end in
  let q3 :=
    match o_domain options with
    | Some d => filter (fun r => domain r = d) q2
    | None => q2
    end in
  let q4 := sort_by (by_rank rank) q3 in
  let q5 :=
    match truthyZ (limit options) with
    | Some n => sql_limit n q4
    | None => q4
    end in
  Ok (map rowToBelief q5).

(** [(a, b) => b.score - a.score] is negative when [a] scores higher. *)
Definition by_score (a b : BeliefSearchResult) : bool :=
  bool_decide (score b - score a < 0)%R.

Definition searchSemantic (db : list BeliefRow) (query : string) (options : SearchOptions)
  : result (list BeliefSearchResult) :=
  let queryEmbedding := generateEmbedding query default_dims in
  (* Get all active beliefs with embeddings *)
  let beliefs := getActive db (with_limit None options) in
  (* Calculate similarity scores *)
  scored <-! rmap (fun be : Belief * list R =>
                     s <-! cosineSimilarity queryEmbedding be.2 ;;
                     Ok (mkResult be.1 s semantic))
                  (omap (fun b => pair b <$> embedding b) beliefs) ;;
  (* Sort by score and apply limit *)
  let sorted := sort_by by_score scored in
  let limit' := default 10%Z (truthyZ (limit options)) in
  Ok (slice0 limit' sorted).

(** [new Map(entries)]: a later entry replaces an earlier one with its key. *)
Definition js_Map {V : Type} (entries : list (string * V)) : gmap string V :=
  foldl (fun m kv => <[kv.1 := kv.2]> m) ∅ entries.

(** The body of [for (const result of semanticResults)]. *)
Definition semantic_step (keywordMap : gmap string (Belief * R))
    (st : gset string * list BeliefSearchResult) (result : BeliefSearchResult)
  : gset string * list BeliefSearchResult :=
  let '(seen, combined) := st in
  if decide (id (belief result) ∈ seen) then (seen, combined)
  else
    let seen := {[ id (belief result) ]} ∪ seen in
    let keywordMatch := keywordMap !! id (belief result) in
    let finalScore :=
      match keywordMatch with
      | Some km => ((score result + km.2) / 2)%R
      | None => score result
      end in
    (seen,
     combined ++ [mkResult (belief result) finalScore
                    (match keywordMatch with Some _ => hybrid | None => semantic end)]).

(** The body of [for (const belief of keywordResults)]. *)
Definition keyword_step (st : gset string * list BeliefSearchResult) (b : Belief)
  : gset string * list BeliefSearchResult :=
  let '(seen, combined) := st in
  if decide (id b ∈ seen) then (seen, combined)
  else ({[ id b ]} ∪ seen, combined ++ [mkResult b 0.5%R keyword]).

Definition searchHybrid (db : list BeliefRow) (query : string) (options : SearchOptions)
  : result (list BeliefSearchResult) :=
  let limit' := default 10%Z (truthyZ (limit options)) in
  keywordResults <-! searchKeyword db query (with_limit (Some (limit' * 2)%Z) options) ;;
  semanticResults <-! searchSemantic db query (with_limit (Some (limit' * 2)%Z) options) ;;
  (* Interleave results, preferring higher scores *)
  let keywordMap :=
    js_Map (imap (fun i b => (id b, (b, (1 - INR i * 0.1)%R))) keywordResults) in
  let st := foldl (semantic_step keywordMap) (∅, []) semanticResults in
  (* Add keyword-only results *)
  let '(_, combined) := foldl keyword_step st keywordResults in
  let sorted := sort_by by_score combined in
  Ok (slice0 limit' sorted).

End WithEngine.

(** The operations that write to the table, as one step function; a write
    that throws leaves the table as it was. *)
Inductive Op : Type :=
  | OpCreate (newid : string) (b : BeliefOf unit)
  | OpUpdate (i : string) (changes : PartialBelief)
  | OpInvalidate (now : Z) (i : string) (reason : string)
  | OpIncrementContradicting (i : string)
  | OpIncrementSupporting (i : string)
  | OpAdjustConfidence (ids : list string) (delta : R)
  | OpApplyConfidenceDecay (now : Z).

Definition exec (config : Config) (binding : NumberBinding) (db : list BeliefRow) (op : Op)
  : list BeliefRow :=
  match op with
  | OpCreate newid b =>
      match create db newid b with
      | Ok (db', _) => db'
      | Err _ => db
      end
  | OpUpdate i changes => (update db i changes).1
  | OpInvalidate now i reason => (invalidate db now i reason).1
  | OpIncrementContradicting i => incrementContradicting db i
  | OpIncrementSupporting i => incrementSupporting db i
  | OpAdjustConfidence ids delta => adjustConfidence config db ids delta
  | OpApplyConfidenceDecay now => (applyConfidenceDecay config binding db now).1
  end.

End BeliefStore.

(** ** storage/session-store.ts

    The [sessions] table is the list of its rows in rowid order; a row has
    the columns of a [Session]. *)

Module SessionStore.

Record Session : Type := mkSession {
  id : string;
  started_at : Z;
  ended_at : option Z;
  summary : option string;
  event_count : Z;
}.

Abbreviation SessionRow := Session (only parsing).

Definition rowToSession (row : SessionRow) : Session :=
  {| id := id row;
     started_at := started_at row;
     ended_at := BeliefStore.truthyZ (ended_at row);
     summary := BeliefStore.truthyS (summary row);
     event_count := event_count row |}.

(** [create]; [newid] is the value of [uuidv4()], [now] of [Date.now()]. *)
Definition create (db : list SessionRow) (newid : string) (now : Z)
  : result (list SessionRow * Session) :=
  let session := mkSession newid now None None 0 in
  if decide (newid ∈ id <$> db) then Err UniqueId
  else Ok (db ++ [session], session).

Definition getById (db : list SessionRow) (i : string) : option Session :=
  rowToSession <$> head (filter (fun r => id r = i) db).

(** [ORDER BY started_at DESC] *)
Definition by_started_at_desc (x y : SessionRow) : bool :=
  bool_decide (started_at y < started_at x)%Z.

Definition getCurrent (db : list SessionRow) : option Session :=
  rowToSession
    <$> head (sql_limit 1 (sort_by by_started_at_desc
                             (filter (fun r => ended_at r = None) db))).

Definition getOrCreate (db : list SessionRow) (newid : string) (now : Z)
  : result (list SessionRow * Session) :=
  match getCurrent db with
  | Some current => Ok (db, current)
  | None => create db newid now
  end.

Definition set_ended (at_ : option Z) (summary' : option string) (r : SessionRow)
  : SessionRow :=
  mkSession (id r) (started_at r) at_ summary' (event_count r).


Definition set_event_count (n : Z) (r : SessionRow) : SessionRow :=
  mkSession (id r) (started_at r) (ended_at r) (summary r) n.

(** [end]; the [summary] argument is [None] when absent, and [summary || null]
    stores an empty one as NULL. *)
Definition end_ (db : list SessionRow) (now : Z) (i : string) (summary' : option string)
  : list SessionRow * bool :=
  let result :=
    update_where (fun r => id r = i /\ ended_at r = None)
      (set_ended (Some now) (BeliefStore.truthyS summary')) db in
  (result.1, bool_decide (0 < result.2)%Z).

Definition incrementEventCount (db : list SessionRow) (i : string) : list SessionRow :=
  (update_where (fun r => id r = i) (fun r => set_event_count (event_count r + 1) r) db).1.


(** [getRecent]; [limit'] is [None] when the argument is absent. *)
Definition getRecent (db : list SessionRow) (limit' : option Z) : list Session :=
  rowToSession <$> sql_limit (default 10%Z limit') (sort_by by_started_at_desc db).

Definition count (db : list SessionRow) : Z := Z.of_nat (length db).

End SessionStore.

(** ** storage/event-store.ts

    The [events] table is the list of its rows in rowid order; the columns
    [payload] and [context] are kept decoded. *)

Module EventStore.

(** ['error'] is written [error_]. *)
Inductive EventType : Type :=
  | tool_call | user_message | assistant_message | observation
  | file_change | error_ | session_start | session_end.

#[global] Instance EventType_eq_dec : EqDecision EventType.
Proof. solve_decision. Defined.

(** The string an event type is. *)
Definition type_name (t : EventType) : string :=
  match t with
  | tool_call => "tool_call"
  | user_message => "user_message"
  | assistant_message => "assistant_message"
  | observation => "observation"
  | file_change => "file_change"
  | error_ => "error"
  | session_start => "session_start"
  | session_end => "session_end"
  end.

(** [tool_input] is kept as its JSON text. *)
Record EventPayload : Type := mkPayload {
  tool_name : option string;
  tool_input : option string;
  tool_output : option string;
  message_role : option string;
  message_content : option string;
  file_path : option string;
  change_type : option string;
  error_message : option string;
}.

Record EventContext : Type := mkContext {
  active_file : option string;
  recent_files : option (list string);
  git_branch : option string;
  working_directory : option string;
}.

(** [{}] *)
Definition empty_context : EventContext := mkContext None None None None.

(** An event with an identifier of type [I], a context of type [C] and a
    [processed] of type [P]: the interface [Event] has a string, an
    [EventContext] and an optional boolean, the argument of [create] has no
    identifier, and a row has the column [context] nullable and the
    column [processed] an integer. *)
Record EventOf (I C P : Type) : Type := mkEvent {
  id : I;
  type : EventType;
  session_id : string;
  timestamp : Z;
  payload : EventPayload;
  context : C;
  searchable_text : string;
  processed : P;
}.
Arguments mkEvent {I C P}.
Arguments id {I C P}.
Arguments type {I C P}.
Arguments session_id {I C P}.
Arguments timestamp {I C P}.
Arguments payload {I C P}.
Arguments context {I C P}.
Arguments searchable_text {I C P}.
Arguments processed {I C P}.

Abbreviation Event := (EventOf string EventContext (option bool)).
Abbreviation EventRow := (EventOf string (option EventContext) Z).

Definition rowToEvent (row : EventRow) : Event :=
  {| id := id row;
     type := type row;
     session_id := session_id row;
     timestamp := timestamp row;
     payload := payload row;
     context := default empty_context (context row);
     searchable_text := searchable_text row;
     processed := Some (bool_decide (processed row = 1%Z)) |}.

(** [create]; [newid] is the value of [uuidv4()]. *)
Definition create (db : list EventRow) (newid : string)
    (event : EventOf unit EventContext (option bool))
  : result (list EventRow * Event) :=
  let fullEvent : Event :=
    mkEvent newid (type event) (session_id event) (timestamp event) (payload event)
      (context event) (searchable_text event) (processed event) in
  let row : EventRow :=
    mkEvent newid (type event) (session_id event) (timestamp event) (payload event)
      (Some (context event)) (searchable_text event)
      (if processed event is Some true then 1%Z else 0%Z) in
  if decide (newid ∈ id <$> db) then Err UniqueId
  else Ok (db ++ [row], fullEvent).

(** [if (s) parts.push(f(s))] *)
Definition push_if (f : string -> string) (s : option string) : list string :=
  match BeliefStore.truthyS s with
  | Some v => [f v]
  | None => []
  end.

Definition buildSearchableText (t : EventType) (p : EventPayload) : string :=
  let parts :=
    [type_name t]
    ++ push_if (fun s => s) (tool_name p)
    ++ push_if (String.substring 0 1000) (tool_output p)
    ++ push_if (fun s => s) (message_content p)
    ++ push_if (fun s => s) (file_path p)
    ++ push_if (fun s => s) (error_message p) in
  String.concat " " parts.

(** [capture]; [now] is the value of [Date.now()], and [context'] is [None]
    when the argument is absent. *)
Definition capture (db : list EventRow) (newid : string) (now : Z) (t : EventType)
    (sessionId : string) (p : EventPayload) (context' : option EventContext)
  : result (list EventRow * Event) :=
  let searchableText := buildSearchableText t p in
  create db newid
    (mkEvent tt t sessionId now p (default empty_context context') searchableText
       (Some false)).

Definition getById (db : list EventRow) (i : string) : option Event :=
  rowToEvent <$> head (filter (fun r => id r = i) db).

(** [ORDER BY timestamp DESC] and [ORDER BY timestamp ASC] *)
Definition by_timestamp_desc (x y : EventRow) : bool :=
  bool_decide (timestamp y < timestamp x)%Z.
Definition by_timestamp_asc (x y : EventRow) : bool :=
  bool_decide (timestamp x < timestamp y)%Z.

(** [if (options.limit) query += ' LIMIT ?'] *)
Definition limited {A : Type} (limit' : option Z) (rows : list A) : list A :=
  match BeliefStore.truthyZ limit' with
  | Some n => sql_limit n rows
  | None => rows
  end.

Definition getBySession (db : list EventRow) (sessionId : string)
    (options : Types.SearchOptions) : list Event :=
  let q0 := filter (fun r => session_id r = sessionId) db in
  let q1 :=
    match Types.timeRange options with
    | Some (start, end') =>
        filter (fun r => (start <= timestamp r)%Z /\ (timestamp r <= end')%Z) q0
    | None => q0
    end in
  rowToEvent <$> limited (Types.limit options) (sort_by by_timestamp_desc q1).

(** [getUnprocessed]; [sessionId] is [None] when the argument is absent. *)
Definition getUnprocessed (db : list EventRow) (sessionId : option string)
    (limit' : option Z) : list Event :=
  let q0 := filter (fun r => processed r = 0%Z) db in
  let q1 :=
    match BeliefStore.truthyS sessionId with
    | Some s => filter (fun r => session_id r = s) q0
    | None => q0
    end in
  rowToEvent <$> limited limit' (sort_by by_timestamp_asc q1).

Definition set_processed (v : Z) (r : EventRow) : EventRow :=
  mkEvent (id r) (type r) (session_id r) (timestamp r) (payload r) (context r)
    (searchable_text r) v.

Definition markProcessed (db : list EventRow) (ids : list string) : list EventRow :=
  if decide (length ids = 0%nat) then db
  else (update_where (fun r => id r ∈ ids) (set_processed 1) db).1.

(** [getRecent]; [limit'] is [None] when the argument is absent. *)
Definition getRecent (db : list EventRow) (limit' : option Z) : list Event :=
  rowToEvent <$> sql_limit (default 50%Z limit') (sort_by by_timestamp_desc db).

Definition getAfter (db : list EventRow) (timestamp' : Z) (limit' : option Z)
  : list Event :=
  rowToEvent
    <$> limited limit'
          (sort_by by_timestamp_asc (filter (fun r => (timestamp' < timestamp r)%Z) db)).

(** [count]; [sessionId] is [None] when the argument is absent. *)
Definition count (db : list EventRow) (sessionId : option string) : Z :=
  match BeliefStore.truthyS sessionId with
  | Some s => Z.of_nat (length (filter (fun r => session_id r = s) db))
  | None => Z.of_nat (length db)
  end.

End EventStore.

(** ** storage/prediction-store.ts

    The [predictions] table is the list of its rows in rowid order, the
    columns [predictions] and [outcome] kept decoded. *)

Module PredictionStore.

Record PredictionItem : Type := mkItem {
  action : string;
  confidence : R;
  reasoning : string;
  supporting_beliefs : list string;
}.

Record PredictionOutcome : Type := mkOutcome {
  correct : bool;
  actual_action : option string;
  evaluated_at : Z;
}.

Record Prediction : Type := mkPrediction {
  id : string;
  generated_at : Z;
  context_hash : string;
  predictions : list PredictionItem;
  outcome : option PredictionOutcome;
}.

Abbreviation PredictionRow := Prediction (only parsing).

(** The JSON text of an outcome is never empty, so [row.outcome ? ... ] only
    tells NULL from a stored outcome: the row reads as it is stored. *)
Definition rowToPrediction (row : PredictionRow) : Prediction := row.

(** [create]; [newid] is the value of [uuidv4()], [now] of [Date.now()], and
    [contextHash] the 16 hexadecimal digits that [hashContext] returns. *)
Definition create (db : list PredictionRow) (newid : string) (now : Z)
    (contextHash : string) (items : list PredictionItem)
  : result (list PredictionRow * Prediction) :=
  let prediction := mkPrediction newid now contextHash items None in
  if decide (newid ∈ id <$> db) then Err UniqueId
  else Ok (db ++ [prediction], prediction).

Definition getById (db : list PredictionRow) (i : string) : option Prediction :=
  rowToPrediction <$> head (filter (fun r => id r = i) db).

Definition by_generated_at_asc (x y : PredictionRow) : bool :=
  bool_decide (generated_at x < generated_at y)%Z.
Definition by_generated_at_desc (x y : PredictionRow) : bool :=
  bool_decide (generated_at y < generated_at x)%Z.

(** [getUnevaluated]; [limit'] is [None] when the argument is absent. *)
Definition getUnevaluated (db : list PredictionRow) (limit' : option Z) : list Prediction :=
  rowToPrediction
    <$> sql_limit (default 50%Z limit')
          (sort_by by_generated_at_asc (filter (fun r => outcome r = None) db)).

Definition getRecent (db : list PredictionRow) (limit' : option Z) : list Prediction :=
  rowToPrediction <$> sql_limit (default 20%Z limit') (sort_by by_generated_at_desc db).

Definition set_outcome (o : option PredictionOutcome) (r : PredictionRow) : PredictionRow :=
  mkPrediction (id r) (generated_at r) (context_hash r) (predictions r) o.

Definition recordOutcome (db : list PredictionRow) (i : string) (o : PredictionOutcome)
  : list PredictionRow * bool :=
  let result := update_where (fun r => id r = i) (set_outcome (Some o)) db in
  (result.1, bool_decide (0 < result.2)%Z).




End PredictionStore.

(** ** index.ts: the commands that write to two tables

    The state is the pair of the [sessions] and the [events] table.  A
    command that throws keeps the writes it has made. *)

Module Cli.

Record Store : Type := mkStore {
  sessions : list SessionStore.Session;
  events : list EventStore.EventRow;
}.

(** What [--tool], [--file], [--message], [--error] and [--output] give. *)
Record CaptureOptions : Type := mkCaptureOptions {
  o_type : EventStore.EventType;
  o_tool : option string;
  o_file : option string;
  o_message : option string;
  o_error : option string;
  o_output : option string;
}.

(** [capture]; [sid] and [eid] are the values that [uuidv4()] would return
    in the session store and in the event store, [now] and [now'] those of
    [Date.now()].  The result is the identifier of the captured event. *)
Definition capture (st : Store) (sid eid : string) (now now' : Z) (options : CaptureOptions)
  : Store * result string :=
  match SessionStore.getOrCreate (sessions st) sid now with
  | Err e => (st, Err e)
  | Ok (sessions1, session) =>
      match EventStore.capture (events st) eid now' (o_type options)
              (SessionStore.id session)
              (EventStore.mkPayload (o_tool options) None (o_output options) None
                 (o_message options) (o_file options) None (o_error options))
              (Some EventStore.empty_context) with
      | Err e => (mkStore sessions1 (events st), Err e)
      | Ok (events1, event) =>
          (mkStore (SessionStore.incrementEventCount sessions1 (SessionStore.id session))
             events1,
           Ok (EventStore.id event))
      end
  end.

(** [session-start] *)
Definition session_start (st : Store) (sid : string) (now : Z) : Store * result string :=
  match SessionStore.create (sessions st) sid now with
  | Err e => (st, Err e)
  | Ok (sessions1, session) => (mkStore sessions1 (events st), Ok (SessionStore.id session))
  end.

(** [session-end]; the result is the identifier of the session it ended,
    [None] when it prints that there is no active session. *)
Definition session_end (st : Store) (now : Z) (summary' : option string)
  : Store * option string :=
  match SessionStore.getCurrent (sessions st) with
  | None => (st, None)
  | Some session =>
      (mkStore (SessionStore.end_ (sessions st) now (SessionStore.id session) summary').1
         (events st),
       Some (SessionStore.id session))
  end.

(** What [--confidence], [--importance], [--add-support] and
    [--add-contradict] give: a number option is [None] when it is absent or
    empty, else the number that [parseFloat] or [parseInt] reads in it. *)
Record UpdateOptions : Type := mkUpdateOptions {
  u_confidence : option R;
  u_importance : option Z;
  u_addSupport : bool;
  u_addContradict : bool;
}.

(** The object [changes] of [update-belief]. *)
Definition update_changes (now : Z) (options : UpdateOptions) : Types.PartialBelief :=
  Types.mkPartial None None None (u_confidence options) None None None None (Some now)
    None None None None (u_importance options) None.

(** [update-belief <id>] on the [beliefs] table; [now] is the value of
    [Date.now()].  The result is the updated belief, [None] when the command
    prints that the belief was not found. *)
Definition update_belief (db : list BeliefStore.BeliefRow) (now : Z) (i : string)
    (options : UpdateOptions) : list BeliefStore.BeliefRow * option Types.Belief :=
  let db1 := if u_addSupport options then BeliefStore.incrementSupporting db i else db in
  let db2 :=
    if u_addContradict options then BeliefStore.incrementContradicting db1 i else db1 in
  BeliefStore.update db2 i (update_changes now options).

Inductive Command : Type :=
  | Capture (sid eid : string) (now now' : Z) (options : CaptureOptions)
  | SessionStart (sid : string) (now : Z)
  | SessionEnd (now : Z) (summary' : option string).

Definition run (st : Store) (c : Command) : Store :=
  match c with
  | Capture sid eid now now' options => (capture st sid eid now now' options).1
  | SessionStart sid now => (session_start st sid now).1
  | SessionEnd now summary' => (session_end st now summary').1
  end.

End Cli.

(** * Vocabulary of the properties *)

Import Embeddings Types BeliefStore.

Section Vocabulary.
Local Open Scope R_scope.

(** Non-negative slots, and one slot that is positive. *)
Definition nonneg (e : list R) : Prop := forall j v, e !! j = Some v -> 0 <= v.
Definition has_pos (e : list R) : Prop := exists j v, e !! j = Some v /\ 0 < v.

(** The order the sort establishes: no element has to come before one
    that precedes it. *)
Definition in_order {A : Type} (before : A -> A -> bool) (x y : A) : Prop :=
  before y x = false.

(** The elapsed time in days, and the rows the sweep selects. *)
Definition elapsedDays (binding : NumberBinding) (now : Z) (r : BeliefRow) : R :=
  sql_div binding (now - last_evaluated r) dayInMs.

Definition decays (config : Config) (r : BeliefRow) : Prop :=
  invalidated_at r = None /\ confidence r > minConfidenceFloor config.

Definition decayed (config : Config) (binding : NumberBinding) (now : Z) (r : BeliefRow)
  : R :=
  Rmax (minConfidenceFloor config)
       (confidence r - confidenceDecayPerDay config * elapsedDays binding now r).

(** A row and a [create] argument to run the operations on. *)
Definition sample_row (i : string) (c : R) (evaluated : Z) (invalid : option Z)
  : BeliefRow :=
  mkBelief i "prefers async/await" code_pattern c [] 0 0 evaluated evaluated
    None invalid (if invalid is Some _ then Some "superseded" else None) None 5 [].

Definition sample_input (c : R) : BeliefOf unit :=
  mkBelief tt "prefers async/await" code_pattern c [] 0 0 0 0 None None None None 5 [].

Definition in_range (config : Config) (c : R) : Prop :=
  minConfidenceFloor config <= c <= 1.


Definition active_with (i : string) (r : BeliefRow) : Prop :=
  id r = i /\ invalidated_at r = None.

(** A change set that tries to clear an invalidation. *)
Definition reactivate : PartialBelief :=
  {| p_id := None; p_text := None; p_domain := None; p_confidence := Some 0.9%R;
     p_evidence_ids := None; p_supporting_count := None;
     p_contradicting_count := None; p_derived_at := None;
     p_last_evaluated := Some 7%Z; p_supersedes_id := None;
     p_invalidated_at := Some 0%Z; p_invalidation_reason := Some EmptyString;
     p_embedding := None; p_importance := None; p_tags := None |}.

(** Importance descending, then confidence descending. *)
Definition ranks_before (x y : Belief) : Prop :=
  (importance y < importance x)%Z
  \/ (importance x = importance y /\ (confidence y <= confidence x)%R).

(** The rows [getActive] selects, in order, before LIMIT. *)
Definition active_sorted (db : list BeliefRow) (options : SearchOptions) : list BeliefRow :=
  let q0 := filter (fun r => invalidated_at r = None) db in
  let q1 :=
    match truthyR (minConfidence options) with
    | Some m => filter (fun r => (m <= confidence r)%R) q0
    | None => q0
    end in
  let q2 :=
    match o_domain options with
    | Some d => filter (fun r => domain r = d) q1
    | None => q1
    end in
  sort_by by_importance_confidence q2.

Definition rid (r : BeliefSearchResult) : string := id (belief r).

(** The effective limit: [options.limit || 10]. *)
Definition effective_limit (options : SearchOptions) : Z :=
  default 10%Z (truthyZ (limit options)).

(** What the two loops maintain: the combined list has no identifier
    twice, and every identifier in it is marked as seen. *)
Definition merge_inv (st : gset string * list BeliefSearchResult) : Prop :=
  NoDup (rid <$> st.2) /\ forall x, x ∈ rid <$> st.2 -> x ∈ st.1.

(** The list that [searchHybrid] sorts and slices. *)
Definition combined_of (keywordResults : list Belief)
    (semanticResults : list BeliefSearchResult) : list BeliefSearchResult :=
  let keywordMap :=
    js_Map (imap (fun i b => (id b, (b, (1 - INR i * 0.1)%R))) keywordResults) in
  (foldl keyword_step (foldl (semantic_step keywordMap) (∅, []) semanticResults)
     keywordResults).2.

(** The positional score of the [i]-th keyword hit. *)
Definition positional_score (i : nat) : R := (1 - INR i * 0.1)%R.

(** The position of a belief in the keyword list, if it is there. *)
Definition keyword_position (keywordResults : list Belief) (i : string) : option nat :=
  fst <$> list_find (fun b => id b = i) keywordResults.

(** A semantic result after blending with the keyword list. *)
Definition blend (keywordResults : list Belief) (r : BeliefSearchResult)
  : BeliefSearchResult :=
  match keyword_position keywordResults (rid r) with
  | Some i => mkResult (belief r) ((score r + positional_score i) / 2)%R hybrid
  | None => mkResult (belief r) (score r) semantic
  end.

(** The keyword hits that the semantic list does not contain. *)
Definition keyword_only (keywordResults : list Belief)
    (semanticResults : list BeliefSearchResult) : list BeliefSearchResult :=
  (fun b => mkResult b 0.5%R keyword)
    <$> filter (fun b => id b ∉ rid <$> semanticResults) keywordResults.

(** The hybrid search as the specification words it, for a requested limit. *)
Definition hybrid_steps (fts5 : list BeliefRow -> string -> result (BeliefRow -> option R))
    (db : list BeliefRow) (query : string) (options : SearchOptions) (requested : Z)
  : result (list BeliefSearchResult) :=
  keywordResults <-! searchKeyword fts5 db query
                       (with_limit (Some (2 * requested)%Z) options) ;;
  semanticResults <-! searchSemantic db query
                        (with_limit (Some (2 * requested)%Z) options) ;;
  let merged :=
    (blend keywordResults <$> semanticResults)
    ++ keyword_only keywordResults semanticResults in
  Ok (take (Z.to_nat requested) (sort_by by_score merged)).

Definition keyword_entries (kw : list Belief) : list (string * (Belief * R)) :=
  imap (fun i b => (id b, (b, (1 - INR i * 0.1)%R))) kw.

(** An FTS5 index in which every row matches every query with one rank. *)
Definition fts_all : list BeliefRow -> string -> result (BeliefRow -> option R) :=
  fun _ _ => Ok (fun _ => Some 0%R).

(** The row that [create] writes for [sample_input 0.7] under the id "b1". *)
Definition stored_row : BeliefRow :=
  mkBelief "b1" "prefers async/await" code_pattern 0.7 [] 0 0 0 0 None None None
    (Some (generateEmbedding "prefers async/await" default_dims)) 5 [].

Definition two_rows : list BeliefRow :=
  [sample_row "b1" 0.7 0 None; sample_row "b2" 0.9 0 (Some 4%Z)].

(** The first row with a given identifier. *)
Definition row_of (db : list BeliefRow) (i : string) : option BeliefRow :=
  head (filter (fun r => id r = i) db).

(** Confidence descending, then importance descending. *)
Definition ranks_before_in_domain (x y : Belief) : Prop :=
  (confidence y < confidence x)%R
  \/ (confidence x = confidence y /\ (importance y <= importance x)%Z).

(** The rows that [getByDomain] and [count] select. *)
Definition selected (activeOnly : option bool) (d : option BeliefDomain) (r : BeliefRow)
  : Prop :=
  (activeOnly = Some false \/ invalidated_at r = None)
  /\ match d with Some d' => domain r = d' | None => True end.

#[global] Instance selected_dec (activeOnly : option bool) (d : option BeliefDomain)
    (r : BeliefRow) : Decision (selected activeOnly d r).
Proof. unfold selected. destruct d; apply _. Defined.

(** The count that [getStatsPerDomain] reports for a domain, 0 when the
    domain is not a key of the object. *)
Definition stats_count (stats : gmap string (Z * R)) (d : BeliefDomain) : Z :=
  default 0%Z (fst <$> stats !! domain_name d).

(** The table declares [supersedes_id] as a foreign key into itself and the
    connection enforces foreign keys, so the engine rejects an INSERT whose
    [supersedes_id] names no row.  [create] does not model that rejection;
    what is proved of a successful [create] is proved under this condition. *)
Definition references_stored (db : list BeliefRow) (b : BeliefOf unit) : Prop :=
  match truthyS (supersedes_id b) with
  | Some s => s ∈ id <$> db
  | None => True
  end.

(** The columns that no write of the store assigns. *)
Definition same_identity (r r' : BeliefRow) : Prop :=
  id r' = id r /\ domain r' = domain r /\ derived_at r' = derived_at r
  /\ supersedes_id r' = supersedes_id r.

Definition is_create (op : Op) : bool :=
  match op with OpCreate _ _ => true | _ => false end.

(** The [WHERE] clauses that [minConfidence] and [domain] add to a search. *)
Definition passes (options : SearchOptions) (r : BeliefRow) : Prop :=
  match truthyR (minConfidence options) with
  | Some m => m <= confidence r
  | None => True
  end
  /\ match o_domain options with Some d => domain r = d | None => True end.

#[global] Instance passes_dec (options : SearchOptions) (r : BeliefRow) :
  Decision (passes options r).
Proof.
  unfold passes. destruct (truthyR (minConfidence options)), (o_domain options); apply _.
Defined.

(** The rows that [searchKeyword] selects, given the ranks of the engine. *)
Definition keyword_hit (rank : BeliefRow -> option R) (options : SearchOptions)
    (r : BeliefRow) : Prop :=
  is_Some (rank r)
  /\ (activeOnly options = Some false \/ invalidated_at r = None)
  /\ passes options r.

#[global] Instance keyword_hit_dec (rank : BeliefRow -> option R) (options : SearchOptions)
    (r : BeliefRow) : Decision (keyword_hit rank options r).
Proof. unfold keyword_hit. apply _. Defined.

(** Both rows are ranked, the first one not after the second. *)
Definition rank_le (rank : BeliefRow -> option R) (x y : BeliefRow) : Prop :=
  exists rx ry, rank x = Some rx /\ rank y = Some ry /\ rx <= ry.

(** The rows that [searchSemantic] scores. *)
Definition semantic_candidate (options : SearchOptions) (r : BeliefRow) : Prop :=
  invalidated_at r = None /\ passes options r /\ is_Some (embedding r).

#[global] Instance semantic_candidate_dec (options : SearchOptions) (r : BeliefRow) :
  Decision (semantic_candidate options r).
Proof. unfold semantic_candidate. apply _. Defined.

(** [{ ...options, activeOnly: ao }] *)
Definition with_activeOnly (ao : option bool) (o : SearchOptions) : SearchOptions :=
  mkOptions (limit o) (minConfidence o) (o_domain o) (timeRange o) ao.

(** An event belongs to the session asked for; an absent or empty session
    identifier asks for all sessions. *)
Definition in_session (s : option string) (r : EventStore.EventRow) : Prop :=
  match truthyS s with
  | Some s' => EventStore.session_id r = s'
  | None => True
  end.

#[global] Instance in_session_dec (s : option string) (r : EventStore.EventRow) :
  Decision (in_session s r).
Proof. unfold in_session. destruct (truthyS s); apply _. Defined.

(** An event row to run the operations on. *)
Definition sample_event (i s : string) (t processed' : Z) : EventStore.EventRow :=
  EventStore.mkEvent i EventStore.tool_call s t
    (EventStore.mkPayload None None None None None None None None)
    None "tool_call" processed'.

(** The length of an optional string, 0 when it is absent. *)
Definition len (s : option string) : nat := String.length (default EmptyString s).

(** The number of events of a session. *)
Definition events_of (events : list EventStore.EventRow) (i : string) : Z :=
  Z.of_nat (length (filter (fun e => EventStore.session_id e = i) events)).

(** The two tables agree: no session identifier occurs twice, every event
    belongs to a stored session, and every session counts its events. *)
Definition consistent (sessions : list SessionStore.Session)
    (events : list EventStore.EventRow) : Prop :=
  NoDup (SessionStore.id <$> sessions)
  /\ (forall e, e ∈ events -> EventStore.session_id e ∈ SessionStore.id <$> sessions)
  /\ (forall r, r ∈ sessions ->
        SessionStore.event_count r = events_of events (SessionStore.id r)).

(** The row that [update-belief] leaves in the place of [r]. *)
Definition updated_row (now : Z) (options : Cli.UpdateOptions) (r : BeliefRow) : BeliefRow :=
  mkBelief (id r) (text r) (domain r)
    (default (confidence r) (Cli.u_confidence options)) (evidence_ids r)
    (supporting_count r + if Cli.u_addSupport options then 1 else 0)%Z
    (contradicting_count r + if Cli.u_addContradict options then 1 else 0)%Z
    (derived_at r) now (supersedes_id r) (invalidated_at r) (invalidation_reason r)
    (embedding r) (default (importance r) (Cli.u_importance options)) (tags r).

(** [{ ...options, timeRange: tr }] *)
Definition with_timeRange (tr : option (Z * Z)) (o : SearchOptions) : SearchOptions :=
  mkOptions (limit o) (minConfidence o) (o_domain o) tr (activeOnly o).

(** Where an entry of the merged list of [searchHybrid] comes from. *)
Definition merged_from (kw : list Belief) (sem : list BeliefSearchResult)
    (x : BeliefSearchResult) : Prop :=
  match matchType x with
  | keyword => score x = 0.5 /\ belief x ∈ kw
  | semantic => x ∈ sem
  | hybrid =>
      exists (y : BeliefSearchResult) (i : nat) (b : Belief),
        y ∈ sem /\ belief x = belief y /\ kw !! i = Some b /\ id b = rid y
        /\ score x = (score y + positional_score i) / 2
  end.

End Vocabulary.

(** * Properties *)


(** ** Embeddings *)

Section EmbeddingFacts.
Local Open Scope R_scope.

Lemma dot_nonneg (a : list R) : 0 <= dot a a.
Proof.
  unfold dot. induction a as [|x a IH]; simpl; [lra|].
  pose proof (Rle_0_sqr x) as Hx. unfold Rsqr in Hx. lra.
Qed.

Lemma cos_loop (a : list R) :
  forall (b : list R) (d na nb : R),
    length a = length b ->
    foldl cos_step (d, na, nb) (zip a b) = (d + dot a b, na + dot a a, nb + dot b b).
Proof.
  induction a as [|x a IH]; intros [|y b] d na nb Hlen; simpl in Hlen; try discriminate.
  - unfold dot. simpl. f_equal; [f_equal|]; lra.
  - simpl. rewrite IH by congruence. unfold dot. simpl. f_equal; [f_equal|]; lra.
Qed.

Lemma cosineSimilarity_eq (a b : list R) :
  length a = length b ->
  cosineSimilarity a b =
    if decide (norm a * norm b = 0) then Ok 0 else Ok (dot a b / (norm a * norm b)).
Proof.
  intros Hlen. unfold cosineSimilarity.
  assert ((length a =? length b)%nat = true) as -> by (by apply Nat.eqb_eq).
  simpl. rewrite cos_loop by done. rewrite !Rplus_0_l. reflexivity.
Qed.

Lemma norm_zero_iff (a : list R) : norm a = 0 <-> dot a a = 0.
Proof.
  unfold norm. split.
  - intros H. apply sqrt_eq_0; [apply dot_nonneg | done].
  - intros ->. apply sqrt_0.
Qed.

Lemma dot_self_pos (v : list R) : Exists (fun x => x <> 0) v -> 0 < dot v v.
Proof.
  unfold dot. induction 1 as [x v Hx | x v _ IH]; simpl.
  - pose proof (dot_nonneg v) as Hv. unfold dot in Hv.
    assert (0 < x * x) by (apply Rsqr_pos_lt in Hx; unfold Rsqr in Hx; lra). lra.
  - pose proof (Rle_0_sqr x) as Hx. unfold Rsqr in Hx. lra.
Qed.

Lemma js_mod_lt (a d : nat) (i : nat) : js_mod a d = Some i -> (i < d)%nat.
Proof.
  unfold js_mod. destruct (d =? 0)%nat eqn:Hd; [discriminate|].
  intros [= <-]. apply Nat.eqb_neq in Hd. by apply Nat.mod_upper_bound.
Qed.

Lemma js_mod_pos (a d : nat) : (0 < d)%nat -> exists i, js_mod a d = Some i.
Proof.
  intros Hd. unfold js_mod. destruct (d =? 0)%nat eqn:E; [|eauto].
  apply Nat.eqb_eq in E. lia.
Qed.

Lemma add_at_length idx x e : length (add_at idx x e) = length e.
Proof. destruct idx; simpl; [apply length_alter | done]. Qed.

Lemma add_at_nonneg idx x e : 0 <= x -> nonneg e -> nonneg (add_at idx x e).
Proof.
  intros Hx He. destruct idx as [i|]; simpl; [|done].
  intros j v. destruct (decide (i = j)) as [->|Hne].
  - rewrite list_lookup_alter_eq. destruct (e !! j) as [w|] eqn:E; intros Hv; simplify_eq/=.
    specialize (He _ _ E). lra.
  - rewrite list_lookup_alter_ne by done. apply He.
Qed.

Lemma add_at_keeps_pos idx x e : 0 <= x -> has_pos e -> has_pos (add_at idx x e).
Proof.
  intros Hx (j & v & Hj & Hv). destruct idx as [i|]; simpl; [|by exists j, v].
  destruct (decide (i = j)) as [->|Hne].
  - exists j, (v + x). rewrite list_lookup_alter_eq, Hj. split; [done | lra].
  - exists j, v. by rewrite list_lookup_alter_ne.
Qed.

Lemma add_at_makes_pos i x e :
  0 < x -> (i < length e)%nat -> nonneg e -> has_pos (add_at (Some i) x e).
Proof.
  intros Hx Hi He. destruct (lookup_lt_is_Some_2 e i Hi) as [v Hv].
  exists i, (v + x). simpl. rewrite list_lookup_alter_eq, Hv. split; [done|].
  specialize (He _ _ Hv). lra.
Qed.

Lemma inv_INR_pos (i : nat) : 0 < / INR (i + 1).
Proof. apply Rinv_0_lt_compat. rewrite Nat.add_1_r. apply lt_0_INR. lia. Qed.

Lemma primary_pos (i : nat) : 0 < 1 / INR (i + 1).
Proof. pose proof (inv_INR_pos i). lra. Qed.

Lemma bigram_pos (i : nat) : 0 <= 0.5 / INR (i + 1).
Proof. pose proof (inv_INR_pos i). unfold Rdiv. nra. Qed.

Lemma hash_step_length dims codes e i : length (hash_step dims codes e i) = length e.
Proof.
  unfold hash_step. destruct (codes !! i); [|done].
  repeat (case_match; rewrite ?add_at_length); done.
Qed.

Lemma hash_step_nonneg dims codes e i : nonneg e -> nonneg (hash_step dims codes e i).
Proof.
  intros He. unfold hash_step. destruct (codes !! i); [|done].
  pose proof (primary_pos i). pose proof (bigram_pos i).
  repeat case_match; repeat (apply add_at_nonneg; [lra|]); done.
Qed.

Lemma hash_step_keeps_pos dims codes e i :
  has_pos e -> has_pos (hash_step dims codes e i).
Proof.
  intros He. unfold hash_step. destruct (codes !! i); [|done].
  pose proof (primary_pos i). pose proof (bigram_pos i).
  repeat case_match; repeat (apply add_at_keeps_pos; [lra|]); done.
Qed.

Lemma hash_step_makes_pos dims codes e i :
  (0 < dims)%nat -> length e = dims -> nonneg e -> (i < length codes)%nat ->
  has_pos (hash_step dims codes e i).
Proof.
  intros Hd Hlen He Hi. unfold hash_step.
  destruct (lookup_lt_is_Some_2 codes i Hi) as [c ->].
  destruct (js_mod_pos (c * (i + 1)) dims Hd) as [k Hk]. rewrite Hk.
  assert (has_pos (add_at (Some k) (1 / INR (i + 1)) e)) as H1.
  { apply add_at_makes_pos; [apply primary_pos | | done].
    rewrite Hlen. by eapply js_mod_lt. }
  pose proof (bigram_pos i).
  repeat case_match; repeat first [exact H1 | apply add_at_keeps_pos; [lra|]].
Qed.

Lemma hash_fold_inv dims codes (idxs : list nat) : forall e,
  length e = dims -> nonneg e ->
  length (foldl (hash_step dims codes) e idxs) = dims
  /\ nonneg (foldl (hash_step dims codes) e idxs).
Proof.
  induction idxs as [|i idxs IH]; intros e Hlen He; simpl; [done|].
  apply IH; [by rewrite hash_step_length | by apply hash_step_nonneg].
Qed.

Lemma hash_fold_keeps_pos dims codes (idxs : list nat) : forall e,
  has_pos e -> has_pos (foldl (hash_step dims codes) e idxs).
Proof.
  induction idxs as [|i idxs IH]; intros e He; simpl; [done|].
  apply IH. by apply hash_step_keeps_pos.
Qed.

Lemma replicate_nonneg (n : nat) : nonneg (replicate n 0).
Proof. intros j v Hj. apply lookup_replicate in Hj as [-> _]. lra. Qed.

Lemma hash_loop_length dims codes : length (hash_loop dims codes) = dims.
Proof.
  unfold hash_loop.
  apply hash_fold_inv; [apply length_replicate | apply replicate_nonneg].
Qed.

Lemma hash_loop_pos dims codes :
  (0 < dims)%nat -> codes <> [] -> has_pos (hash_loop dims codes).
Proof.
  intros Hd Hc. unfold hash_loop.
  destruct codes as [|c codes]; [done|]. simpl length. simpl seq.
  simpl foldl. apply hash_fold_keeps_pos.
  apply hash_step_makes_pos; [done | apply length_replicate | apply replicate_nonneg |].
  simpl. lia.
Qed.

Lemma sum_squares_acc (e : list R) : forall a,
  foldl (fun sum v => sum + v * v) a e = a + dot e e.
Proof.
  unfold dot. induction e as [|x e IH]; intros a; simpl; [lra|].
  rewrite IH. lra.
Qed.

Lemma sum_squares_dot (e : list R) : sum_squares e = dot e e.
Proof. unfold sum_squares. rewrite sum_squares_acc. lra. Qed.

Lemma has_pos_dot (e : list R) : has_pos e -> 0 < dot e e.
Proof.
  intros (j & v & Hj & Hv). apply dot_self_pos. apply Exists_exists.
  exists v. split; [by eapply list_elem_of_lookup_2 | lra].
Qed.

Lemma dot_scaled (e : list R) (m : R) :
  m <> 0 -> dot (map (fun v => v / m) e) (map (fun v => v / m) e) = dot e e / (m * m).
Proof.
  intros Hm. unfold dot. induction e as [|x e IH]; simpl.
  - field. done.
  - rewrite IH. field. done.
Qed.

Lemma toLowerCase_codes_length (s : string) :
  length (charCodes (toLowerCase s)) = String.length s.
Proof.
  unfold charCodes, toLowerCase.
  rewrite length_map, String.list_ascii_of_string_of_list_ascii, length_map.
  induction s as [|a s IH]; simpl; [done | by rewrite IH].
Qed.

End EmbeddingFacts.

Section EmbeddingClaims.
Local Open Scope R_scope.

Lemma dot_replicate_zero (n : nat) : dot (replicate n 0) (replicate n 0) = 0.
Proof. unfold dot. induction n as [|n IH]; simpl; [done|]. rewrite IH. lra. Qed.

Lemma generateEmbedding_length (text : string) (dims : nat) :
  length (generateEmbedding text dims) = dims.
Proof.
  unfold generateEmbedding. case_decide; rewrite ?length_map; apply hash_loop_length.
Qed.

Lemma generateEmbedding_unit (text : string) (dims : nat) :
  (0 < dims)%nat -> text <> EmptyString -> norm (generateEmbedding text dims) = 1.
Proof.
  intros Hd Ht. unfold generateEmbedding.
  set (e := hash_loop dims (charCodes (toLowerCase text))).
  assert (0 < dot e e) as Hpos.
  { apply has_pos_dot, hash_loop_pos; [done|].
    intros Hnil. apply (f_equal length) in Hnil.
    rewrite toLowerCase_codes_length in Hnil. by destruct text. }
  rewrite sum_squares_dot.
  assert (0 < sqrt (dot e e)) as Hm by (by apply sqrt_lt_R0).
  rewrite decide_True by done.
  unfold norm. rewrite dot_scaled by lra.
  rewrite sqrt_sqrt by lra.
  replace (dot e e / dot e e) with 1 by (field; lra). apply sqrt_1.
Qed.

Lemma generateEmbedding_empty (dims : nat) :
  generateEmbedding EmptyString dims = replicate dims 0.
Proof.
  unfold generateEmbedding, hash_loop. simpl.
  rewrite sum_squares_dot, dot_replicate_zero, sqrt_0.
  rewrite decide_False by lra. done.
Qed.

(** C6. [generateEmbedding] depends on its text only through the lower-cased
    text (so equal texts give equal vectors); its result has [dims] slots
    (384 by default); for a non-empty text the result has Euclidean norm 1,
    at the default dimension and at every positive dimension; for the empty
    text it is the zero vector. *)
Theorem generateEmbedding_spec (text text' : string) (dims : nat) :
  (toLowerCase text = toLowerCase text' ->
     generateEmbedding text dims = generateEmbedding text' dims)
  /\ length (generateEmbedding text dims) = dims
  /\ length (generateEmbedding text default_dims) = 384%nat
  /\ (text <> EmptyString -> norm (generateEmbedding text default_dims) = 1)
  /\ ((0 < dims)%nat -> text <> EmptyString -> norm (generateEmbedding text dims) = 1)
  /\ generateEmbedding EmptyString dims = replicate dims 0.
Proof.
  split; [|split; [|split; [|split; [|split]]]].
  - intros Heq. unfold generateEmbedding. by rewrite Heq.
  - apply generateEmbedding_length.
  - apply generateEmbedding_length.
  - apply generateEmbedding_unit. unfold default_dims. lia.
  - apply generateEmbedding_unit.
  - apply generateEmbedding_empty.
Qed.

Lemma generateEmbedding_spec_witness :
  generateEmbedding "Async Await" 384 = generateEmbedding "async await" 384
  /\ norm (generateEmbedding "Async Await" 384) = 1.
Proof.
  destruct (generateEmbedding_spec "Async Await" "async await" 384)
    as (Hlower & _ & _ & _ & Hunit & _).
  split.
  - apply Hlower. reflexivity.
  - apply Hunit; [lia | discriminate].
Defined.

(** C7. [cosineSimilarity] throws its length error when the two vectors
    differ in length; on vectors of one length it returns 0 when either norm
    is zero and dot(a,b)/(|a| |b|) otherwise; the similarity of a vector with
    a non-zero component to itself is 1. *)
Theorem cosineSimilarity_spec (a b v : list R) :
  (length a <> length b -> cosineSimilarity a b = Err VectorsLength)
  /\ (length a = length b -> norm a = 0 \/ norm b = 0 -> cosineSimilarity a b = Ok 0)
  /\ (length a = length b -> norm a <> 0 -> norm b <> 0 ->
        cosineSimilarity a b = Ok (dot a b / (norm a * norm b)))
  /\ (Exists (fun x => x <> 0) v -> cosineSimilarity v v = Ok 1).
Proof.
  split; [|split; [|split]].
  - intros Hne. unfold cosineSimilarity.
    by assert ((length a =? length b)%nat = false) as -> by (by apply Nat.eqb_neq).
  - intros Hlen Hz. rewrite cosineSimilarity_eq by done.
    rewrite decide_True; [done|]. destruct Hz as [-> | ->]; lra.
  - intros Hlen Ha Hb. rewrite cosineSimilarity_eq by done.
    rewrite decide_False; [done|]. intros H0.
    apply Rmult_integral in H0. tauto.
  - intros Hv. apply dot_self_pos in Hv.
    rewrite cosineSimilarity_eq by done.
    assert (norm v * norm v = dot v v) as Hsq by (unfold norm; apply sqrt_sqrt; lra).
    rewrite Hsq. rewrite decide_False by lra. f_equal. field. lra.
Qed.

Lemma cosineSimilarity_spec_witness :
  cosineSimilarity [1; 2] [1] = Err VectorsLength
  /\ cosineSimilarity [0; 0] [3; 4] = Ok 0
  /\ cosineSimilarity [3; 4] [3; 4] = Ok 1.
Proof.
  split; [|split].
  - apply (cosineSimilarity_spec [1; 2] [1] []). simpl. lia.
  - apply (cosineSimilarity_spec [0; 0] [3; 4] []); [reflexivity|].
    left. unfold norm, dot. simpl.
    replace (0 * 0 + (0 * 0 + 0)) with 0 by lra. apply sqrt_0.
  - apply (cosineSimilarity_spec [] [] [3; 4]).
    apply Exists_cons_hd. lra.
Defined.

End EmbeddingClaims.

(** ** Sorting, slicing and bulk updates *)

Lemma map_fmap {A B : Type} (f : A -> B) (l : list A) : map f l = f <$> l.
Proof. reflexivity. Qed.

Section SortFacts.
Context {A : Type} (before : A -> A -> bool).

Lemma insert_by_perm (x : A) (l : list A) : insert_by before x l ≡ₚ x :: l.
Proof.
  induction l as [|y l IH]; simpl; [done|].
  destruct (before y x); [|done].
  rewrite IH. apply Permutation_swap.
Qed.

Lemma sort_by_perm (l : list A) : sort_by before l ≡ₚ l.
Proof.
  induction l as [|x l IH]; simpl; [done|].
  by rewrite insert_by_perm, IH.
Qed.

Lemma sort_by_length (l : list A) : length (sort_by before l) = length l.
Proof. by rewrite sort_by_perm. Qed.

Hypothesis before_asym : forall x y, before x y = true -> before y x = false.

Lemma insert_by_sorted (x : A) (l : list A) :
  Sorted (in_order before) l -> Sorted (in_order before) (insert_by before x l).
Proof.
  induction 1 as [|y l Hl IH Hhd]; simpl.
  - repeat constructor.
  - destruct (before y x) eqn:Hyx.
    + constructor; [done|].
      destruct Hhd as [|z l Hz]; simpl.
      * constructor. by apply before_asym.
      * destruct (before z x); constructor; [done | by apply before_asym].
    + constructor; [by constructor | by constructor].
Qed.

Lemma sort_by_sorted (l : list A) : Sorted (in_order before) (sort_by before l).
Proof.
  induction l as [|x l IH]; simpl; [constructor | by apply insert_by_sorted].
Qed.

End SortFacts.

Lemma StronglySorted_lookup {A : Type} (rel : A -> A -> Prop) (l : list A) :
  StronglySorted rel l ->
  forall i j x y, i < j -> l !! i = Some x -> l !! j = Some y -> rel x y.
Proof.
  induction 1 as [|z l Hl IH Hall]; intros i j x y Hij Hi Hj; [done|].
  destruct j as [|j]; [lia|]. simpl in Hj.
  destruct i as [|i]; simpl in Hi.
  - injection Hi as ->. rewrite Forall_forall in Hall.
    apply Hall. by eapply list_elem_of_lookup_2.
  - apply (IH i j); [lia | done | done].
Qed.

Lemma slice0_take {A : Type} (n : Z) (l : list A) :
  exists k, slice0 n l = take k l.
Proof. unfold slice0. destruct (n <? 0)%Z; eauto. Qed.

Lemma slice0_nonneg {A : Type} (n : Z) (l : list A) :
  (0 <= n)%Z -> slice0 n l = take (Z.to_nat n) l.
Proof. intros Hn. unfold slice0. by rewrite (proj2 (Z.ltb_ge n 0)). Qed.

Lemma slice0_length {A : Type} (n : Z) (l : list A) :
  (0 <= n)%Z -> (Z.of_nat (length (slice0 n l)) <= n)%Z.
Proof. intros Hn. rewrite slice0_nonneg by done. rewrite length_take. lia. Qed.

Lemma sql_limit_pos {A : Type} (n : Z) (l : list A) :
  (0 <= n)%Z -> sql_limit n l = take (Z.to_nat n) l.
Proof. intros Hn. unfold sql_limit. by rewrite (proj2 (Z.ltb_ge n 0)). Qed.

Lemma sql_limit_take {A : Type} (n : Z) (l : list A) :
  exists k, sql_limit n l = take k l.
Proof.
  unfold sql_limit. destruct (n <? 0)%Z; [|eauto].
  exists (length l). by rewrite take_ge.
Qed.

Section UpdateFacts.
Context (where_ : BeliefRow -> Prop) `{!forall r, Decision (where_ r)}.
Context (set : BeliefRow -> BeliefRow).

Lemma sql_update_lookup (db : list BeliefRow) (k : nat) :
  (sql_update where_ set db).1 !! k
  = (fun r => if decide (where_ r) then set r else r) <$> db !! k.
Proof. unfold sql_update. simpl. apply list_lookup_fmap. Qed.

Lemma sql_update_length (db : list BeliefRow) :
  length (sql_update where_ set db).1 = length db.
Proof. unfold sql_update. simpl. apply length_map. Qed.

Lemma sql_update_changes (db : list BeliefRow) :
  (sql_update where_ set db).2 = Z.of_nat (length (filter where_ db)).
Proof. done. Qed.

Lemma sql_update_ids (db : list BeliefRow) :
  (forall r, id (set r) = id r) ->
  map id (sql_update where_ set db).1 = map id db.
Proof.
  intros Hid. unfold sql_update. simpl. rewrite map_map.
  apply map_ext. intros r. by case_decide.
Qed.

End UpdateFacts.

(** ** Confidence decay *)

Section DecayClaims.
Local Open Scope R_scope.
Variable config : Config.
Variable binding : NumberBinding.

Lemma decay_lookup (db : list BeliefRow) (now : Z) (k : nat) :
  (applyConfidenceDecay config binding db now).1 !! k
  = (fun r => if decide (decays config r) then set_confidence (decayed config binding now r) r else r) <$> db !! k.
Proof. unfold applyConfidenceDecay. by rewrite sql_update_lookup. Qed.

Lemma dayInMs_value : IZR dayInMs = 86400000.
Proof. reflexivity. Qed.

Lemma sql_div_days (b : NumberBinding) (k : Z) :
  sql_div b (k * 86400000) dayInMs = IZR k.
Proof.
  destruct b; simpl.
  - rewrite mult_IZR, dayInMs_value. field.
  - change dayInMs with 86400000%Z. by rewrite Z.quot_mul.
Qed.

Lemma elapsedDays_real (now : Z) (r : BeliefRow) :
  elapsedDays AsReal now r = (IZR now - IZR (last_evaluated r)) / 86400000.
Proof. unfold elapsedDays. simpl. by rewrite minus_IZR, dayInMs_value. Qed.

Lemma elapsedDays_integer (now : Z) (r : BeliefRow) :
  elapsedDays AsInteger now r = IZR (Z.quot (now - last_evaluated r) 86400000).
Proof. reflexivity. Qed.

Lemma sql_div_nonneg (b : NumberBinding) (x : Z) :
  (0 <= x)%Z -> 0 <= sql_div b x dayInMs.
Proof.
  intros Hx. destruct b; simpl.
  - rewrite dayInMs_value. apply IZR_le in Hx. lra.
  - apply IZR_le, Z.quot_pos; [done | reflexivity].
Qed.

(** C2, amended. [applyConfidenceDecay] replaces the confidence of every
    active row above the floor by max(floor, confidence - decayPerDay * days),
    where days is the quotient of now - last_evaluated by one day as SQLite
    takes it: the real quotient when the clock is bound as a REAL, the whole
    days (the quotient truncated) when it is bound as an INTEGER.  It leaves
    every other row as it is and returns the number of rows it selected; a
    row at 0.9 evaluated ten days ago ends at 0.8 with decayPerDay 0.01. *)
Theorem applyConfidenceDecay_spec (db : list BeliefRow) (now : Z) :
  let db' := (applyConfidenceDecay config binding db now).1 in
  length db' = length db
  /\ (forall k r, db !! k = Some r -> decays config r ->
        db' !! k = Some (set_confidence
                           (Rmax (minConfidenceFloor config)
                              (confidence r
                               - confidenceDecayPerDay config
                                 * match binding with
                                   | AsReal => (IZR now - IZR (last_evaluated r)) / 86400000
                                   | AsInteger =>
                                       IZR (Z.quot (now - last_evaluated r) 86400000)
                                   end)) r))
  /\ (forall k r, db !! k = Some r -> ~ decays config r -> db' !! k = Some r)
  /\ (applyConfidenceDecay config binding db now).2 = Z.of_nat (length (filter (decays config) db))
  /\ (forall k r,
        db !! k = Some r -> invalidated_at r = None ->
        confidence r = 0.9 -> last_evaluated r = (now - 10 * 86400000)%Z ->
        confidenceDecayPerDay config = 0.01 -> minConfidenceFloor config <= 0.8 ->
        exists r', db' !! k = Some r' /\ confidence r' = 0.8).
Proof.
  intros db'. subst db'. split; [|split; [|split; [|split]]].
  - unfold applyConfidenceDecay. apply sql_update_length.
  - intros k r Hk Hr. rewrite decay_lookup, Hk. cbn [fmap option_fmap option_map].
    rewrite decide_True by done. unfold decayed.
    destruct binding; [by rewrite elapsedDays_real | by rewrite elapsedDays_integer].
  - intros k r Hk Hr. rewrite decay_lookup, Hk. simpl. by rewrite decide_False.
  - done.
  - intros k r Hk Hact Hc Hle Hd Hfl.
    eexists. split.
    { rewrite decay_lookup, Hk. simpl.
      rewrite decide_True by (split; [done | lra]). done. }
    simpl. unfold decayed, elapsedDays.
    replace (now - last_evaluated r)%Z with (10 * 86400000)%Z by lia.
    rewrite Hc, Hd, sql_div_days.
    rewrite Rmax_right; lra.
Qed.

Lemma set_confidence_same (r : BeliefRow) : set_confidence (confidence r) r = r.
Proof. by destruct r. Qed.

(** C9. [applyConfidenceDecay] changes no field but [confidence]; in
    particular it keeps [last_evaluated], so a second sweep at the same clock
    time subtracts the same elapsed-time decay once more: the sweeps compound. *)
Theorem applyConfidenceDecay_compounds (db : list BeliefRow) (now : Z) :
  let db1 := (applyConfidenceDecay config binding db now).1 in
  let db2 := (applyConfidenceDecay config binding db1 now).1 in
  (forall k (r : BeliefRow), db !! k = Some r ->
     exists c, db1 !! k = Some (set_confidence c r))
  /\ (forall k (r r1 : BeliefRow), db !! k = Some r -> db1 !! k = Some r1 ->
        last_evaluated r1 = last_evaluated r)
  /\ (forall k (r : BeliefRow), db !! k = Some r -> decays config r ->
        let delta := confidenceDecayPerDay config * elapsedDays binding now r in
        minConfidenceFloor config < confidence r - delta ->
        exists r1 r2 : BeliefRow,
          db1 !! k = Some r1 /\ db2 !! k = Some r2
          /\ confidence r1 = confidence r - delta
          /\ confidence r2 = Rmax (minConfidenceFloor config) (confidence r - 2 * delta)
          /\ (0 < delta -> confidence r2 < confidence r1)).
Proof.
  intros db1 db2. subst db1 db2.
  assert (forall k (r : BeliefRow), db !! k = Some r ->
            exists c, (applyConfidenceDecay config binding db now).1 !! k
                      = Some (set_confidence c r)) as Hframe.
  { intros k r Hk. rewrite decay_lookup, Hk. simpl. case_decide; [by eexists|].
    exists (confidence r). by rewrite set_confidence_same. }
  split; [done|]. split.
  - intros k r r1 Hk Hk1. destruct (Hframe k r Hk) as [c Hc].
    rewrite Hk1 in Hc. by injection Hc as ->.
  - intros k r Hk Hr delta Hfl.
    assert (decayed config binding now r = confidence r - delta) as Hd1.
    { unfold decayed. fold delta. apply Rmax_right. lra. }
    eexists _, _. split; [|split].
    + rewrite decay_lookup, Hk. simpl. by rewrite decide_True.
    + rewrite decay_lookup, decay_lookup, Hk. simpl.
      rewrite (decide_True _ _ Hr). rewrite decide_True; [done|].
      destruct Hr as [Hact _]. split; [done|]. simpl. rewrite Hd1. lra.
    + assert (decayed config binding now (set_confidence (decayed config binding now r) r)
              = Rmax (minConfidenceFloor config) (confidence r - 2 * delta)) as Hd2.
      { unfold decayed at 1. simpl.
        change (elapsedDays binding now (set_confidence (decayed config binding now r) r))
          with (elapsedDays binding now r).
        fold delta. rewrite Hd1. f_equal. lra. }
      simpl. rewrite Hd2, Hd1. split; [done|]. split; [done|].
      intros Hpos. apply Rmax_lub_lt; lra.
Qed.

End DecayClaims.

Lemma applyConfidenceDecay_spec_witness :
  exists r' : BeliefRow,
    (applyConfidenceDecay DEFAULT_CONFIG AsInteger [sample_row "b1" 0.9 0 None] 864000000).1 !! 0%nat
    = Some r'
    /\ confidence r' = 0.8%R.
Proof.
  destruct (applyConfidenceDecay_spec DEFAULT_CONFIG AsInteger
              [sample_row "b1" 0.9 0 None] 864000000) as (_ & _ & _ & _ & H).
  destruct (H 0%nat (sample_row "b1" 0.9 0 None)) as (r' & Hr' & Hc);
    [reflexivity | reflexivity | reflexivity | reflexivity | reflexivity
    | simpl; lra |].
  exists r'. split; [exact Hr' | exact Hc].
Defined.

(** C2, as stated, fails when the clock is bound as an INTEGER: a day and a
    half after its evaluation a row at 0.9 is lowered by one day's decay, to
    0.89, and not to max(floor, 0.9 - 0.01 * 1.5) = 0.885. *)
Lemma decay_counts_whole_days :
  exists r' : BeliefRow,
    (applyConfidenceDecay DEFAULT_CONFIG AsInteger [sample_row "b1" 0.9 0 None] 129600000).1 !! 0%nat
    = Some r'
    /\ confidence r' = 0.89%R
    /\ confidence r'
       <> Rmax (minConfidenceFloor DEFAULT_CONFIG)
            (0.9 - confidenceDecayPerDay DEFAULT_CONFIG * ((129600000 - 0) / 86400000))%R.
Proof.
  assert (decayed DEFAULT_CONFIG AsInteger 129600000 (sample_row "b1" 0.9 0 None) = 0.89%R)
    as Hd.
  { unfold decayed. rewrite elapsedDays_integer.
    change (Z.quot _ _) with 1%Z.
    change (minConfidenceFloor DEFAULT_CONFIG) with 0.3%R.
    change (confidenceDecayPerDay DEFAULT_CONFIG) with 0.01%R.
    change (confidence (sample_row "b1" 0.9 0 None)) with 0.9%R.
    rewrite Rmax_right; lra. }
  eexists. split; [|split].
  - rewrite decay_lookup. cbn [lookup list_lookup fmap option_fmap option_map].
    rewrite decide_True; [reflexivity|].
    split; [reflexivity|]. cbn [confidence sample_row minConfidenceFloor DEFAULT_CONFIG]. lra.
  - cbn [confidence set_confidence]. exact Hd.
  - cbn [confidence set_confidence]. rewrite Hd.
    change (minConfidenceFloor DEFAULT_CONFIG) with 0.3%R.
    change (confidenceDecayPerDay DEFAULT_CONFIG) with 0.01%R.
    rewrite Rmax_right; lra.
Qed.

Lemma applyConfidenceDecay_compounds_witness :
  exists r1 r2 : BeliefRow,
    (applyConfidenceDecay DEFAULT_CONFIG AsInteger [sample_row "b1" 0.9 0 None] 864000000).1 !! 0%nat
    = Some r1
    /\ (applyConfidenceDecay DEFAULT_CONFIG AsInteger
          (applyConfidenceDecay DEFAULT_CONFIG AsInteger [sample_row "b1" 0.9 0 None] 864000000).1
          864000000).1 !! 0%nat = Some r2
    /\ (confidence r2 < confidence r1)%R.
Proof.
  destruct (applyConfidenceDecay_compounds DEFAULT_CONFIG AsInteger
              [sample_row "b1" 0.9 0 None] 864000000) as (_ & _ & H).
  assert (confidenceDecayPerDay DEFAULT_CONFIG
          * elapsedDays AsInteger 864000000 (sample_row "b1" 0.9 0 None) = 0.1)%R as Hdelta.
  { unfold elapsedDays. change (864000000 - _)%Z with (10 * 86400000)%Z.
    rewrite sql_div_days. simpl. lra. }
  destruct (H 0%nat (sample_row "b1" 0.9 0 None)) as (r1 & r2 & H1 & H2 & _ & _ & Hlt).
  - reflexivity.
  - split; [reflexivity | simpl; lra].
  - rewrite Hdelta. simpl. lra.
  - exists r1, r2. split; [exact H1|]. split; [exact H2|].
    apply Hlt. rewrite Hdelta. lra.
Defined.

(** ** Row-wise effect of [update] *)

Lemma getById_None (db : list BeliefRow) (i : string) :
  getById db i = None -> Forall (fun r => id r <> i) db.
Proof.
  unfold getById. induction db as [|r db IH]; [constructor|].
  rewrite filter_cons. case_decide as Hid; simpl; [discriminate|].
  intros H. constructor; [done | by apply IH].
Qed.

Lemma no_updates_id (changes : PartialBelief) (r : BeliefRow) :
  no_updates changes = true -> apply_changes changes r = r.
Proof.
  unfold no_updates, apply_changes. intros H.
  repeat (apply andb_true_iff in H as [H ?]).
  repeat match goal with
         | Hb : bool_decide _ = true |- _ => apply bool_decide_eq_true in Hb; rewrite Hb
         end.
  done.
Qed.

Lemma update_lookup (db : list BeliefRow) (i : string) (changes : PartialBelief) (k : nat) :
  (update db i changes).1 !! k
  = (fun r => if decide (id r = i) then apply_changes changes r else r) <$> db !! k.
Proof.
  unfold update. destruct (getById db i) as [existing|] eqn:Hget.
  - destruct (no_updates changes) eqn:Hno; simpl.
    + destruct (db !! k) as [r|]; simpl; [|done].
      case_decide; [by rewrite no_updates_id | done].
    + apply (sql_update_lookup (fun r => id r = i)).
  - simpl. destruct (db !! k) as [r|] eqn:Hk; simpl; [|done].
    apply getById_None in Hget. rewrite Forall_lookup in Hget.
    by rewrite decide_False by (by eapply Hget).
Qed.

Lemma apply_changes_confidence (changes : PartialBelief) (r : BeliefRow) :
  confidence (apply_changes changes r) = default (confidence r) (p_confidence changes).
Proof.
  unfold apply_changes.
  destruct (p_text changes), (p_confidence changes), (p_evidence_ids changes),
    (p_supporting_count changes), (p_contradicting_count changes),
    (p_last_evaluated changes), (p_importance changes), (p_tags changes),
    (p_embedding changes); reflexivity.
Qed.

Lemma apply_changes_frame (changes : PartialBelief) (r : BeliefRow) :
  id (apply_changes changes r) = id r
  /\ invalidated_at (apply_changes changes r) = invalidated_at r
  /\ invalidation_reason (apply_changes changes r) = invalidation_reason r.
Proof.
  unfold apply_changes.
  destruct (p_text changes), (p_confidence changes), (p_evidence_ids changes),
    (p_supporting_count changes), (p_contradicting_count changes),
    (p_last_evaluated changes), (p_importance changes), (p_tags changes),
    (p_embedding changes); done.
Qed.

(** ** The confidence range *)

Section ClampClaims.
Local Open Scope R_scope.

(** C1, as stated, fails: [create] stores the confidence it is given, here
    0.1 under the default floor 0.3. *)
Lemma create_stores_below_floor :
  exists (db' : list BeliefRow) (full : Belief),
    create [] "b1" (sample_input 0.1) = Ok (db', full)
    /\ exists r : BeliefRow, r ∈ db' /\ ~ in_range DEFAULT_CONFIG (confidence r).
Proof.
  eexists _, _. split; [reflexivity|].
  eexists. split; [apply list_elem_of_here|].
  unfold in_range. simpl. lra.
Qed.

Lemma adjustConfidence_lookup (config : Config) (db : list BeliefRow)
    (ids : list string) (delta : R) (k : nat) :
  adjustConfidence config db ids delta !! k
  = (fun r : BeliefRow =>
       if decide (id r ∈ ids)
       then set_confidence
              (Rmax (minConfidenceFloor config) (Rmin 1.0 (confidence r + delta))) r
       else r) <$> db !! k.
Proof.
  unfold adjustConfidence. case_decide as Hlen.
  - destruct ids; [|done]. destruct (db !! k) as [r|]; [|done].
    simpl. done.
  - by rewrite (sql_update_lookup (fun r => id r ∈ ids)).
Qed.

Lemma clamp_in_range (config : Config) (c : R) :
  minConfidenceFloor config <= 1 ->
  in_range config (Rmax (minConfidenceFloor config) (Rmin 1.0 c)).
Proof.
  intros Hfl. unfold in_range. split; [apply Rmax_l|].
  apply Rmax_lub; [done|]. pose proof (Rmin_l 1.0 c). lra.
Qed.

Lemma elapsedDays_nonneg (binding : NumberBinding) (now : Z) (r : BeliefRow) :
  (last_evaluated r <= now)%Z -> 0 <= elapsedDays binding now r.
Proof.
  intros Hle. unfold elapsedDays. apply sql_div_nonneg. lia.
Qed.

(** C1, amended.  [adjustConfidence] leaves every listed belief in
    [floor, 1] (for a floor of at most 1).  [applyConfidenceDecay] leaves
    every row it selects at or above the floor, and keeps a confidence that
    was in [floor, 1] there when the decay rate is not negative and the row
    was not evaluated in the future.  [create] and [update] store the
    confidence they are given. *)
Theorem confidence_range_amended (config : Config) (binding : NumberBinding) :
  (minConfidenceFloor config <= 1 ->
     forall db ids delta (r' : BeliefRow),
       r' ∈ adjustConfidence config db ids delta -> id r' ∈ ids ->
       in_range config (confidence r'))
  /\ (forall db now k (r r' : BeliefRow),
        db !! k = Some r -> (applyConfidenceDecay config binding db now).1 !! k = Some r' ->
        (decays config r -> minConfidenceFloor config <= confidence r')
        /\ (0 <= confidenceDecayPerDay config -> (last_evaluated r <= now)%Z ->
            in_range config (confidence r) -> in_range config (confidence r')))
  /\ (forall db newid b db' (full : Belief),
        create db newid b = Ok (db', full) ->
        exists row : BeliefRow,
          db' = db ++ [row] /\ id row = newid
          /\ confidence row = confidence b /\ confidence full = confidence b)
  /\ (forall db i changes c k (r : BeliefRow),
        p_confidence changes = Some c -> db !! k = Some r -> id r = i ->
        exists r' : BeliefRow,
          (update db i changes).1 !! k = Some r' /\ confidence r' = c).
Proof.
  split; [|split; [|split]].
  - intros Hfl db ids delta r' Hin Hid.
    apply list_elem_of_lookup_1 in Hin as [k Hk].
    rewrite adjustConfidence_lookup in Hk.
    destruct (db !! k) as [r|]; simplify_eq/=.
    case_decide as Hr; simpl in *; [by apply clamp_in_range | done].
  - intros db now k r r' Hk Hk'. rewrite decay_lookup, Hk in Hk'. simplify_eq/=.
    split.
    + intros Hr. rewrite decide_True by done. simpl. apply Rmax_l.
    + intros Hd Hle [Hlo Hhi]. pose proof (elapsedDays_nonneg binding now r Hle) as He.
      case_decide; simpl; [|done]. unfold in_range, decayed. split; [apply Rmax_l|].
      apply Rmax_lub; [lra|]. nra.
  - intros db newid b db' full Hc. unfold create in Hc.
    case_decide; [discriminate|]. injection Hc as <- <-. by eexists.
  - intros db i changes c k r Hc Hk Hid. rewrite update_lookup, Hk. simpl.
    rewrite decide_True by done. eexists. split; [done|].
    by rewrite apply_changes_confidence, Hc.
Qed.

Lemma confidence_range_amended_witness :
  in_range DEFAULT_CONFIG
    (Rmax (minConfidenceFloor DEFAULT_CONFIG) (Rmin 1.0 (0.7 + -5))).
Proof.
  destruct (confidence_range_amended DEFAULT_CONFIG AsInteger) as (Hadjust & _).
  apply (Hadjust ltac:(simpl; lra) [sample_row "b1" 0.7 0 None] ["b1"] (-5)
           (set_confidence
              (Rmax (minConfidenceFloor DEFAULT_CONFIG) (Rmin 1.0 (0.7 + -5)))
              (sample_row "b1" 0.7 0 None))).
  - apply list_elem_of_here.
  - apply list_elem_of_here.
Defined.

End ClampClaims.

(** ** Invalidation *)

Section InvalidateClaims.
Variable config : Config.
Variable binding : NumberBinding.

Lemma invalidate_lookup (db : list BeliefRow) (now : Z) (i reason : string) (k : nat) :
  (invalidate db now i reason).1 !! k
  = (fun r => if decide (active_with i r)
              then set_invalidation (Some now) (Some reason) r else r) <$> db !! k.
Proof. unfold invalidate. simpl. apply list_lookup_fmap. Qed.





End InvalidateClaims.


(** ** Reading the active beliefs *)

Section ActiveClaims.

Lemma getActive_unfold (db : list BeliefRow) (options : SearchOptions) :
  getActive db options
  = map rowToBelief
      (match truthyZ (limit options) with
       | Some n => sql_limit n (active_sorted db options)
       | None => active_sorted db options
       end).
Proof. reflexivity. Qed.

Lemma active_sorted_limit (db : list BeliefRow) (l : option Z) (options : SearchOptions) :
  active_sorted db (with_limit l options) = active_sorted db options.
Proof. reflexivity. Qed.

Lemma by_importance_confidence_order (x y : BeliefRow) :
  in_order by_importance_confidence x y <-> ranks_before x y.
Proof.
  unfold in_order, by_importance_confidence, ranks_before.
  rewrite orb_false_iff, andb_false_iff, !bool_decide_eq_false. split.
  - intros [Himp Hconf]. destruct (decide (importance y = importance x)) as [Heq|Hne].
    + right. split; [done|]. destruct Hconf as [Hc|Hc]; [done|]. lra.
    + left. lia.
  - intros [Hlt | [Heq Hc]]; (split; [lia|]); [left; lia | right; lra].
Qed.

Lemma by_importance_confidence_asym (x y : BeliefRow) :
  by_importance_confidence x y = true -> by_importance_confidence y x = false.
Proof.
  unfold by_importance_confidence.
  rewrite orb_true_iff, andb_true_iff, !bool_decide_eq_true.
  rewrite orb_false_iff, andb_false_iff, !bool_decide_eq_false.
  intros [Hlt | [Heq Hc]]; (split; [lia|]); [left; lia | right; lra].
Qed.

Lemma ranks_before_trans (x y z : Belief) :
  ranks_before x y -> ranks_before y z -> ranks_before x z.
Proof.
  unfold ranks_before. intros [H1 | [H1 H1']] [H2 | [H2 H2']].
  - left. lia.
  - left. lia.
  - left. lia.
  - right. split; [congruence | lra].
Qed.

Lemma active_sorted_strongly (db : list BeliefRow) (options : SearchOptions) :
  StronglySorted ranks_before (active_sorted db options).
Proof.
  apply Sorted_StronglySorted; [intros x y z; apply ranks_before_trans|].
  unfold active_sorted.
  eapply Sorted_ind with (P := Sorted ranks_before);
    [constructor | | apply (sort_by_sorted _ by_importance_confidence_asym)].
  intros a l _ IH Hhd. constructor; [done|].
  destruct Hhd; constructor. by apply by_importance_confidence_order.
Qed.

Lemma active_sorted_elem (db : list BeliefRow) (options : SearchOptions) (r : BeliefRow) :
  r ∈ active_sorted db options -> r ∈ db /\ invalidated_at r = None.
Proof.
  unfold active_sorted. rewrite sort_by_perm.
  destruct (truthyR (minConfidence options)), (o_domain options);
    rewrite !list_elem_of_filter; tauto.
Qed.

Lemma limited_prefix (l : option Z) (rows : list BeliefRow) :
  exists n, match truthyZ l with
            | Some n => sql_limit n rows
            | None => rows
            end = take n rows.
Proof.
  destruct (truthyZ l) as [n|]; [apply sql_limit_take|].
  exists (length rows). by rewrite take_ge.
Qed.

(** C8. [getActive] returns only beliefs without [invalidated_at], each read
    from an active row; the result is ordered by importance descending, then
    confidence descending; and with a limit it is a prefix of the result
    without a limit, the first [n] beliefs for a positive limit [n]. *)
Theorem getActive_spec (db : list BeliefRow) (options : SearchOptions) :
  (forall b : Belief, b ∈ getActive db options ->
     invalidated_at b = None
     /\ exists r : BeliefRow, r ∈ db /\ invalidated_at r = None /\ b = rowToBelief r)
  /\ (forall i j (x y : Belief), i < j ->
        getActive db options !! i = Some x -> getActive db options !! j = Some y ->
        ranks_before x y)
  /\ (forall n, (0 < n)%Z ->
        getActive db (with_limit (Some n) options)
        = take (Z.to_nat n) (getActive db (with_limit None options)))
  /\ (forall l, getActive db (with_limit l options)
                `prefix_of` getActive db (with_limit None options)).
Proof.
  split; [|split; [|split]].
  - intros b Hb. rewrite getActive_unfold in Hb.
    destruct (limited_prefix (limit options) (active_sorted db options)) as [n Hn].
    rewrite Hn, map_fmap in Hb. apply list_elem_of_fmap in Hb as (r & -> & Hr).
    apply elem_of_take in Hr as (k & Hr & _).
    apply list_elem_of_lookup_2, active_sorted_elem in Hr as [Hin Hact].
    split; [simpl; by rewrite Hact | by exists r].
  - intros i j x y Hij Hi Hj. rewrite getActive_unfold in Hi, Hj.
    destruct (limited_prefix (limit options) (active_sorted db options)) as [n Hn].
    rewrite Hn, map_fmap in Hi, Hj. rewrite list_lookup_fmap in Hi, Hj.
    destruct (take n _ !! i) as [ri|] eqn:Hri; simplify_eq/=.
    destruct (take n _ !! j) as [rj|] eqn:Hrj; simplify_eq/=.
    apply lookup_take_Some in Hri as [Hri _]. apply lookup_take_Some in Hrj as [Hrj _].
    exact (StronglySorted_lookup _ _ (active_sorted_strongly db options)
             i j ri rj Hij Hri Hrj).
  - intros n Hn. rewrite !getActive_unfold, !active_sorted_limit. simpl.
    rewrite decide_False by lia. rewrite sql_limit_pos by lia.
    rewrite !map_fmap. apply fmap_take.
  - intros l. rewrite !getActive_unfold, !active_sorted_limit. simpl.
    destruct (limited_prefix l (active_sorted db options)) as [n ->].
    rewrite !map_fmap, fmap_take. apply prefix_take.
Qed.

End ActiveClaims.

(** ** Zero-valued options *)

Lemma truthyR_zero : truthyR (Some 0%R) = None.
Proof. unfold truthyR. by rewrite decide_True. Qed.

(** ** Hybrid search: no duplicates, bounded length *)

Section HybridBounds.
Variable fts5 : list BeliefRow -> string -> result (BeliefRow -> option R).

Lemma merge_inv_push (seen : gset string) (combined : list BeliefSearchResult)
    (r : BeliefSearchResult) :
  merge_inv (seen, combined) -> rid r ∉ seen ->
  merge_inv ({[ rid r ]} ∪ seen, combined ++ [r]).
Proof.
  intros [Hnd Hseen] Hr. unfold merge_inv. simpl in *. rewrite fmap_app. split.
  - apply NoDup_app. split; [done|]. split; [|apply NoDup_singleton].
    intros x Hx Hx'. apply list_elem_of_singleton in Hx' as ->. by apply Hr, Hseen.
  - intros x Hx. apply elem_of_app in Hx as [Hx | Hx].
    + apply elem_of_union_r. by apply Hseen.
    + apply list_elem_of_singleton in Hx as ->. apply elem_of_union_l. set_solver.
Qed.

Lemma semantic_step_inv (keywordMap : gmap string (Belief * R))
    (st : gset string * list BeliefSearchResult) (r : BeliefSearchResult) :
  merge_inv st -> merge_inv (semantic_step keywordMap st r).
Proof.
  destruct st as [seen combined]. intros Hinv. unfold semantic_step.
  case_decide as Hseen; [done|].
  by apply (merge_inv_push seen combined (mkResult (belief r) _ _)).
Qed.

Lemma keyword_step_inv (st : gset string * list BeliefSearchResult) (b : Belief) :
  merge_inv st -> merge_inv (keyword_step st b).
Proof.
  destruct st as [seen combined]. intros Hinv. unfold keyword_step.
  case_decide as Hseen; [done|].
  by apply (merge_inv_push seen combined (mkResult b _ _)).
Qed.

Lemma foldl_inv {S X : Type} (P : S -> Prop) (f : S -> X -> S) (l : list X) :
  (forall s x, P s -> P (f s x)) -> forall s, P s -> P (foldl f s l).
Proof. intros Hf. induction l as [|x l IH]; intros s Hs; simpl; auto. Qed.

Lemma searchHybrid_unfold (db : list BeliefRow) (query : string) (options : SearchOptions)
    (res : list BeliefSearchResult) :
  searchHybrid fts5 db query options = Ok res ->
  exists keywordResults semanticResults,
    searchKeyword fts5 db query
      (with_limit (Some (effective_limit options * 2)%Z) options) = Ok keywordResults
    /\ searchSemantic db query
         (with_limit (Some (effective_limit options * 2)%Z) options) = Ok semanticResults
    /\ res = slice0 (effective_limit options)
               (sort_by by_score (combined_of keywordResults semanticResults)).
Proof.
  unfold searchHybrid. fold (effective_limit options).
  destruct (searchKeyword _ _ _ _) as [kw|e]; [|discriminate]. simpl.
  destruct (searchSemantic _ _ _) as [sem|e]; [|discriminate]. simpl.
  intros Hres. exists kw, sem. split; [done|]. split; [done|].
  unfold combined_of. destruct (foldl keyword_step _ kw) as [seen combined].
  by injection Hres as <-.
Qed.

Lemma combined_of_NoDup (kw : list Belief) (sem : list BeliefSearchResult) :
  NoDup (rid <$> combined_of kw sem).
Proof.
  unfold combined_of.
  apply (foldl_inv merge_inv keyword_step kw keyword_step_inv).
  apply (foldl_inv merge_inv _ sem (semantic_step_inv _)).
  split; [constructor | set_solver].
Qed.

Lemma cosineSimilarity_ok (a b : list R) :
  length a = length b -> exists s, cosineSimilarity a b = Ok s.
Proof.
  intros Hlen. rewrite cosineSimilarity_eq by done. case_decide; eauto.
Qed.

Lemma create_stored_row :
  exists full : Belief, create [] "b1" (sample_input 0.7) = Ok ([stored_row], full).
Proof. eexists. reflexivity. Qed.

(** C3, as stated, fails for the requested limit 0: the limit falls back to
    10, and the one stored belief is returned. *)
Lemma searchHybrid_exceeds_limit_zero :
  exists res : list BeliefSearchResult,
    searchHybrid fts_all [stored_row] "async" (with_limit (Some 0%Z) no_options) = Ok res
    /\ (0 < Z.of_nat (length res))%Z.
Proof.
  destruct (cosineSimilarity_ok (generateEmbedding "async" default_dims)
              (generateEmbedding "prefers async/await" default_dims)) as [s Hs];
    [by rewrite !generateEmbedding_length|].
  exists [mkResult (rowToBelief stored_row) ((s + (1 - INR 0 * 0.1)) / 2)%R hybrid].
  split; [|simpl; lia].
  unfold searchHybrid.
  change (searchKeyword fts_all [stored_row] "async" _)
    with (Ok (A := list Belief) [rowToBelief stored_row]).
  unfold searchSemantic.
  change (omap _ (getActive [stored_row] _))
    with [(rowToBelief stored_row, generateEmbedding "prefers async/await" default_dims)].
  cbn [rmap rbind fst snd]. rewrite Hs. reflexivity.
Qed.

(** The search on the one stored row, which both the keyword index and the
    embedding find: one hybrid result. *)
Lemma stored_row_hybrid :
  exists s : R,
    cosineSimilarity (generateEmbedding "async" default_dims)
      (generateEmbedding "prefers async/await" default_dims) = Ok s
    /\ searchHybrid fts_all [stored_row] "async" (with_limit (Some 0%Z) no_options)
       = Ok [mkResult (rowToBelief stored_row) ((s + positional_score 0) / 2)%R hybrid]
    /\ hybrid_steps fts_all [stored_row] "async" (with_limit (Some 0%Z) no_options) 0
       = Ok [].
Proof.
  destruct (cosineSimilarity_ok (generateEmbedding "async" default_dims)
              (generateEmbedding "prefers async/await" default_dims)) as [s Hs];
    [by rewrite !generateEmbedding_length|].
  exists s. split; [exact Hs|]. split.
  - unfold searchHybrid.
    change (searchKeyword fts_all [stored_row] "async" _)
      with (Ok (A := list Belief) [rowToBelief stored_row]).
    unfold searchSemantic.
    change (omap _ (getActive [stored_row] _))
      with [(rowToBelief stored_row, generateEmbedding "prefers async/await" default_dims)].
    cbn [rmap rbind fst snd]. rewrite Hs. reflexivity.
  - unfold hybrid_steps.
    change (searchKeyword fts_all [stored_row] "async" _)
      with (Ok (A := list Belief) [rowToBelief stored_row]).
    unfold searchSemantic.
    change (omap _ (getActive [stored_row] _))
      with [(rowToBelief stored_row, generateEmbedding "prefers async/await" default_dims)].
    cbn [rmap rbind fst snd]. rewrite Hs. reflexivity.
Qed.

(** C3, amended.  [searchHybrid] returns no belief identifier twice; with a
    positive requested limit it returns at most that many results, and with
    no limit or the limit 0 at most 10. *)
Theorem searchHybrid_bounds (db : list BeliefRow) (query : string)
    (options : SearchOptions) (res : list BeliefSearchResult) :
  searchHybrid fts5 db query options = Ok res ->
  NoDup (rid <$> res)
  /\ (forall L, limit options = Some L -> (0 < L)%Z -> (Z.of_nat (length res) <= L)%Z)
  /\ (limit options = None \/ limit options = Some 0%Z -> length res <= 10).
Proof.
  intros Hres. apply searchHybrid_unfold in Hres as (kw & sem & _ & _ & ->).
  split; [|split].
  - destruct (slice0_take (effective_limit options)
                (sort_by by_score (combined_of kw sem))) as [k ->].
    apply (sublist_NoDup _ (rid <$> sort_by by_score (combined_of kw sem))).
    + rewrite sort_by_perm. apply combined_of_NoDup.
    + apply fmap_sublist, sublist_take.
  - intros L HL Hpos. unfold effective_limit. rewrite HL. simpl.
    rewrite decide_False by lia. simpl. apply slice0_length. lia.
  - intros Hl.
    assert (effective_limit options = 10%Z) as ->.
    { unfold effective_limit. by destruct Hl as [-> | ->]. }
    pose proof (slice0_length 10 (sort_by by_score (combined_of kw sem))). lia.
Qed.

End HybridBounds.

(** ** Hybrid search: the merge, step by step *)

Section HybridSteps.
Variable fts5 : list BeliefRow -> string -> result (BeliefRow -> option R).

Lemma searchHybrid_eq (db : list BeliefRow) (query : string) (options : SearchOptions) :
  searchHybrid fts5 db query options
  = (keywordResults <-! searchKeyword fts5 db query
                          (with_limit (Some (effective_limit options * 2)%Z) options) ;;
     semanticResults <-! searchSemantic db query
                           (with_limit (Some (effective_limit options * 2)%Z) options) ;;
     Ok (slice0 (effective_limit options)
           (sort_by by_score (combined_of keywordResults semanticResults)))).
Proof.
  unfold searchHybrid. fold (effective_limit options).
  destruct (searchKeyword _ _ _ _) as [kw|e]; [|done]. simpl.
  destruct (searchSemantic _ _ _) as [sem|e]; [|done]. simpl.
  unfold combined_of. by destruct (foldl keyword_step _ kw).
Qed.

(** *** Identifiers stay distinct through the reads *)

Lemma rowToBelief_ids (rows : list BeliefRow) : id <$> (rowToBelief <$> rows) = id <$> rows.
Proof. rewrite <- list_fmap_compose. by apply list_fmap_ext. Qed.

Lemma NoDup_ids_filter (P : BeliefRow -> Prop) `{!forall r, Decision (P r)}
    (rows : list BeliefRow) :
  NoDup (id <$> rows) -> NoDup (id <$> filter P rows).
Proof.
  intros Hnd. apply (sublist_NoDup _ _ Hnd), fmap_sublist, sublist_filter.
Qed.

Lemma NoDup_ids_take {A : Type} (f : A -> string) (n : nat) (l : list A) :
  NoDup (f <$> l) -> NoDup (f <$> take n l).
Proof.
  intros Hnd. apply (sublist_NoDup _ _ Hnd), fmap_sublist, sublist_take.
Qed.

Lemma NoDup_ids_sort {A : Type} (f : A -> string) (before : A -> A -> bool)
    (l : list A) :
  NoDup (f <$> l) -> NoDup (f <$> sort_by before l).
Proof. intros Hnd. by rewrite sort_by_perm. Qed.

Lemma active_sorted_ids (db : list BeliefRow) (options : SearchOptions) :
  NoDup (id <$> db) -> NoDup (id <$> active_sorted db options).
Proof.
  intros Hnd. unfold active_sorted. apply NoDup_ids_sort.
  destruct (truthyR (minConfidence options)), (o_domain options);
    repeat first [exact Hnd | apply NoDup_ids_filter].
Qed.

Lemma getActive_ids (db : list BeliefRow) (options : SearchOptions) :
  NoDup (id <$> db) -> NoDup (id <$> getActive db options).
Proof.
  intros Hnd. rewrite getActive_unfold.
  destruct (limited_prefix (limit options) (active_sorted db options)) as [n ->].
  rewrite (map_fmap rowToBelief), rowToBelief_ids.
  by apply NoDup_ids_take, active_sorted_ids.
Qed.

Lemma searchKeyword_ids (db : list BeliefRow) (query : string) (options : SearchOptions)
    (kw : list Belief) :
  NoDup (id <$> db) -> searchKeyword fts5 db query options = Ok kw -> NoDup (id <$> kw).
Proof.
  intros Hnd. unfold searchKeyword.
  destruct (fts5 db query) as [rank|e]; [|discriminate]. simpl.
  intros [= <-]. rewrite (map_fmap rowToBelief), rowToBelief_ids.
  match goal with
  | |- NoDup (id <$> match _ with Some n => sql_limit n ?l | None => _ end) =>
      destruct (limited_prefix (limit options) l) as [n ->];
      apply NoDup_ids_take
  end.
  apply NoDup_ids_sort.
  destruct (decide (activeOnly options = Some false)),
    (truthyR (minConfidence options)), (o_domain options);
    repeat first [exact Hnd | apply NoDup_ids_filter].
Qed.

Lemma rmap_ids {A : Type} (f : A -> result BeliefSearchResult) (g : A -> string)
    (l : list A) (scored : list BeliefSearchResult) :
  (forall x y, f x = Ok y -> rid y = g x) ->
  rmap f l = Ok scored -> rid <$> scored = g <$> l.
Proof.
  intros Hf. revert scored. induction l as [|x l IH]; intros scored; simpl.
  - by intros [= <-].
  - destruct (f x) as [y|e] eqn:Hy; [|discriminate]. simpl.
    destruct (rmap f l) as [ys|e]; [|discriminate]. simpl.
    intros [= <-]. simpl. f_equal; [by apply Hf | by apply IH].
Qed.

Lemma with_embedding_sublist (beliefs : list Belief) :
  (fun be : Belief * list R => id be.1) <$> omap (fun b => pair b <$> embedding b) beliefs
  `sublist_of` id <$> beliefs.
Proof.
  induction beliefs as [|b beliefs IH]; simpl; [constructor|].
  destruct (embedding b); simpl; by constructor.
Qed.

Lemma searchSemantic_ids (db : list BeliefRow) (query : string) (options : SearchOptions)
    (sem : list BeliefSearchResult) :
  NoDup (id <$> db) -> searchSemantic db query options = Ok sem -> NoDup (rid <$> sem).
Proof.
  intros Hnd. unfold searchSemantic.
  destruct (rmap _ _) as [scored|e] eqn:Hscored; [|discriminate]. simpl.
  intros [= <-].
  destruct (slice0_take (default 10%Z (truthyZ (limit options)))
              (sort_by by_score scored)) as [k ->].
  apply NoDup_ids_take. rewrite sort_by_perm.
  erewrite (rmap_ids _ (fun be : Belief * list R => id be.1)); [| |exact Hscored].
  - eapply sublist_NoDup; [|apply with_embedding_sublist].
    by apply getActive_ids.
  - intros [b e] y. simpl. destruct (cosineSimilarity _ _); simpl; [|discriminate].
    by intros [= <-].
Qed.

(** *** The keyword map *)

Lemma js_Map_list_to_map {V : Type} (entries : list (string * V)) :
  js_Map entries = list_to_map (reverse entries).
Proof.
  unfold js_Map. induction entries as [|[k v] entries IH] using rev_ind; [done|].
  rewrite foldl_snoc, reverse_snoc, IH. done.
Qed.

Lemma js_Map_lookup_Some {V : Type} (entries : list (string * V)) (k : string) (v : V) :
  NoDup entries.*1 -> (k, v) ∈ entries -> js_Map entries !! k = Some v.
Proof.
  intros Hnd Hin. rewrite js_Map_list_to_map. apply elem_of_list_to_map_1.
  - by rewrite fmap_reverse, reverse_Permutation.
  - by apply elem_of_reverse.
Qed.

Lemma js_Map_lookup_None {V : Type} (entries : list (string * V)) (k : string) :
  k ∉ entries.*1 -> js_Map entries !! k = None.
Proof.
  intros Hin. rewrite js_Map_list_to_map. apply not_elem_of_list_to_map_1.
  by rewrite fmap_reverse, elem_of_reverse.
Qed.

Lemma keyword_entries_keys (kw : list Belief) : (keyword_entries kw).*1 = id <$> kw.
Proof.
  unfold keyword_entries. rewrite fmap_imap.
  rewrite <- (imap_const id kw). by apply imap_ext.
Qed.

Lemma keywordMap_lookup (kw : list Belief) (k : string) :
  NoDup (id <$> kw) ->
  js_Map (keyword_entries kw) !! k
  = (fun ib : nat * Belief => (ib.2, positional_score ib.1))
      <$> list_find (fun b => id b = k) kw.
Proof.
  intros Hnd. destruct (list_find _ kw) as [[i b]|] eqn:Hfind; simpl.
  - apply list_find_Some in Hfind as (Hi & Hid & _).
    apply js_Map_lookup_Some; [by rewrite keyword_entries_keys|].
    apply list_elem_of_lookup. exists i. unfold keyword_entries.
    rewrite list_lookup_imap, Hi. simpl. by rewrite Hid.
  - apply list_find_None in Hfind. apply js_Map_lookup_None.
    rewrite keyword_entries_keys. intros Hin.
    apply list_elem_of_fmap in Hin as (b & Hb & Hin).
    rewrite Forall_forall in Hfind. by apply (Hfind b).
Qed.

(** *** The two loops in closed form *)

Lemma filter_iff_in {A : Type} (P1 P2 : A -> Prop)
    `{!forall x, Decision (P1 x), !forall x, Decision (P2 x)} (l : list A) :
  (forall x, x ∈ l -> P1 x <-> P2 x) -> filter P1 l = filter P2 l.
Proof.
  induction l as [|a l IH]; intros Hiff; [done|].
  rewrite !filter_cons.
  assert (P1 a <-> P2 a) as Ha by (apply Hiff; left).
  rewrite IH by (intros x Hx; apply Hiff; by right).
  destruct (decide (P1 a)), (decide (P2 a)); tauto.
Qed.

Lemma semantic_step_blend (kw : list Belief) (seen : gset string)
    (combined : list BeliefSearchResult) (r : BeliefSearchResult) :
  NoDup (id <$> kw) -> rid r ∉ seen ->
  semantic_step (js_Map (keyword_entries kw)) (seen, combined) r
  = ({[ rid r ]} ∪ seen, combined ++ [blend kw r]).
Proof.
  intros Hnd Hseen. unfold semantic_step. fold (rid r).
  rewrite decide_False by done. rewrite keywordMap_lookup by done.
  unfold blend, keyword_position.
  by destruct (list_find _ kw) as [[i b]|].
Qed.

Lemma semantic_loop (kw : list Belief) (sem : list BeliefSearchResult) :
  NoDup (id <$> kw) ->
  forall (seen : gset string) (combined : list BeliefSearchResult),
    NoDup (rid <$> sem) -> (forall x, x ∈ rid <$> sem -> x ∉ seen) ->
    exists seen' : gset string,
      foldl (semantic_step (js_Map (keyword_entries kw))) (seen, combined) sem
      = (seen', combined ++ (blend kw <$> sem))
      /\ forall x, x ∈ seen' <-> x ∈ rid <$> sem \/ x ∈ seen.
Proof.
  intros Hkw. induction sem as [|r sem IH]; intros seen combined Hnd Hfresh.
  - exists seen. simpl. rewrite app_nil_r. split; [done|]. set_solver.
  - destruct (proj1 (NoDup_cons _ _) Hnd) as [Hr Hnd'].
    change (foldl ?f ?a (r :: sem)) with (foldl f (f a r) sem).
    rewrite semantic_step_blend; [|done|apply Hfresh; simpl; set_solver].
    destruct (IH ({[ rid r ]} ∪ seen) (combined ++ [blend kw r]) Hnd')
      as (seen' & -> & Hseen').
    { intros x Hx. specialize (Hfresh x). set_solver. }
    exists seen'. rewrite <- app_assoc. split; [done|].
    intros x. rewrite Hseen'. set_solver.
Qed.

Lemma keyword_loop (kw : list Belief) :
  NoDup (id <$> kw) ->
  forall (seen : gset string) (combined : list BeliefSearchResult),
    (foldl keyword_step (seen, combined) kw).2
    = combined ++ ((fun b => mkResult b 0.5%R keyword)
                     <$> filter (fun b => id b ∉ seen) kw).
Proof.
  induction kw as [|b kw IH]; intros Hnd seen combined.
  - simpl. by rewrite app_nil_r.
  - destruct (proj1 (NoDup_cons _ _) Hnd) as [Hb Hnd'].
    change (foldl ?f ?a (b :: kw)) with (foldl f (f a b) kw).
    unfold keyword_step at 2.
    rewrite filter_cons. destruct (decide (id b ∈ seen)) as [Hin|Hin].
    + rewrite decide_False by (by intros ?). by apply IH.
    + rewrite decide_True by done. rewrite IH by done.
      rewrite <- app_assoc. simpl. do 3 f_equal.
      apply filter_iff_in. intros b' Hb'.
      assert (id b' <> id b) by (intros Heq; apply Hb; rewrite <- Heq;
                                by apply list_elem_of_fmap_2).
      set_solver.
Qed.

Lemma combined_of_steps (kw : list Belief) (sem : list BeliefSearchResult) :
  NoDup (id <$> kw) -> NoDup (rid <$> sem) ->
  combined_of kw sem = (blend kw <$> sem) ++ keyword_only kw sem.
Proof.
  intros Hkw Hsem. unfold combined_of. fold (keyword_entries kw).
  destruct (semantic_loop kw sem Hkw ∅ [] Hsem) as (seen & -> & Hseen);
    [set_solver|].
  rewrite keyword_loop by done. simpl. unfold keyword_only. do 2 f_equal.
  apply list_filter_iff. intros b. rewrite Hseen. set_solver.
Qed.

(** *** The semantic list comes in score order *)

Lemma by_score_asym (x y : BeliefSearchResult) :
  by_score x y = true -> by_score y x = false.
Proof.
  unfold by_score. rewrite bool_decide_eq_true, bool_decide_eq_false. lra.
Qed.

Lemma by_score_order (x y : BeliefSearchResult) :
  in_order by_score x y <-> (score y <= score x)%R.
Proof. unfold in_order, by_score. rewrite bool_decide_eq_false. lra. Qed.

Lemma sort_by_score_sorted (l : list BeliefSearchResult) :
  StronglySorted (fun x y => (score y <= score x)%R) (sort_by by_score l).
Proof.
  apply Sorted_StronglySorted; [intros x y z ? ?; lra|].
  eapply Sorted_ind with (P := Sorted (fun x y => (score y <= score x)%R));
    [constructor | | apply (sort_by_sorted _ by_score_asym)].
  intros a l' _ IH Hhd. constructor; [done|].
  destruct Hhd; constructor. by apply by_score_order.
Qed.

Lemma searchSemantic_sorted (db : list BeliefRow) (query : string)
    (options : SearchOptions) (sem : list BeliefSearchResult) :
  searchSemantic db query options = Ok sem ->
  forall i j (x y : BeliefSearchResult), i < j ->
    sem !! i = Some x -> sem !! j = Some y -> (score y <= score x)%R.
Proof.
  unfold searchSemantic. destruct (rmap _ _) as [scored|e]; [|discriminate]. simpl.
  intros [= <-] i j x y Hij.
  destruct (slice0_take (default 10%Z (truthyZ (limit options)))
              (sort_by by_score scored)) as [k ->].
  intros [Hi _]%lookup_take_Some [Hj _]%lookup_take_Some.
  exact (StronglySorted_lookup _ _ (sort_by_score_sorted scored) i j x y Hij Hi Hj).
Qed.

(** *** The table keeps its primary key *)

Lemma exec_ids (config : Config) (binding : NumberBinding) (db : list BeliefRow)
    (op : Op) :
  NoDup (id <$> db) -> NoDup (id <$> exec config binding db op).
Proof.
  intros Hnd.
  assert (forall (P : BeliefRow -> Prop) `{!forall r, Decision (P r)} set,
            (forall r, id (set r) = id r) ->
            NoDup (id <$> (sql_update P set db).1)) as Hupd.
  { intros P ? set Hset. rewrite <- (map_fmap id), sql_update_ids by done.
    by rewrite (map_fmap id). }
  destruct op as [newid b|i changes|now i reason|i|i|ids delta|now]; cbn [exec].
  - unfold create. case_decide as Hin; [done|]. rewrite fmap_app. simpl.
    apply NoDup_app. split; [done|]. split; [|apply NoDup_singleton].
    intros x Hx ->%list_elem_of_singleton. by apply Hin.
  - unfold update. destruct (getById db i); [|done].
    destruct (no_updates changes); [done|]. simpl.
    apply Hupd. intros r. apply apply_changes_frame.
  - unfold invalidate. by apply Hupd.
  - unfold incrementContradicting. by apply Hupd.
  - unfold incrementSupporting. by apply Hupd.
  - unfold adjustConfidence. case_decide; [done|]. by apply Hupd.
  - unfold applyConfidenceDecay. by apply Hupd.
Qed.

Lemma searchHybrid_effective (db : list BeliefRow) (query : string)
    (options : SearchOptions) :
  NoDup (id <$> db) -> (0 <= effective_limit options)%Z ->
  searchHybrid fts5 db query options
  = hybrid_steps fts5 db query options (effective_limit options).
Proof.
  intros Hnd Hnonneg. rewrite searchHybrid_eq. unfold hybrid_steps.
  rewrite (Z.mul_comm (effective_limit options) 2).
  destruct (searchKeyword _ _ _ _) as [kw|e] eqn:Hkw; [|done]. simpl.
  destruct (searchSemantic _ _ _) as [sem|e] eqn:Hsem; [|done]. simpl.
  rewrite slice0_nonneg by done.
  rewrite combined_of_steps;
    [done | by eapply searchKeyword_ids | by eapply searchSemantic_ids].
Qed.

(** C4, amended.  On a table with distinct identifiers, [searchHybrid]
    with a positive limit [L] computes what the steps say for [L], and with no
    limit or the limit 0 what they say for 10: both searches run with twice
    the limit; the semantic results come in descending score order; a
    semantic result found at position [i] of the keyword list gets the
    average of its score and [1 - i * 0.1] and the tag hybrid, any other keeps
    its score and the tag semantic; the keyword hits not among the semantic
    results follow with score 0.5 and the tag keyword; the list is sorted by
    descending score and cut to the limit.  With a negative limit [L] the
    same steps run, and the cut drops the last [- L] entries of the sorted
    list. *)
Theorem searchHybrid_follows_steps (db : list BeliefRow) (query : string)
    (options : SearchOptions) :
  NoDup (id <$> db) ->
  (forall L, limit options = Some L -> (0 < L)%Z ->
     searchHybrid fts5 db query options = hybrid_steps fts5 db query options L)
  /\ (limit options = None \/ limit options = Some 0%Z ->
      searchHybrid fts5 db query options = hybrid_steps fts5 db query options 10)
  /\ (forall L, limit options = Some L -> (L < 0)%Z ->
      searchHybrid fts5 db query options
      = (keywordResults <-! searchKeyword fts5 db query
                              (with_limit (Some (2 * L)%Z) options) ;;
         semanticResults <-! searchSemantic db query
                               (with_limit (Some (2 * L)%Z) options) ;;
         let merged :=
           (blend keywordResults <$> semanticResults)
           ++ keyword_only keywordResults semanticResults in
         Ok (take (length merged - Z.to_nat (- L)) (sort_by by_score merged))))
  /\ (forall L (sem : list BeliefSearchResult),
        searchSemantic db query (with_limit (Some (2 * L)%Z) options) = Ok sem ->
        forall i j (x y : BeliefSearchResult), i < j ->
          sem !! i = Some x -> sem !! j = Some y -> (score y <= score x)%R).
Proof.
  intros Hnd. split; [|split; [|split]].
  - intros L HL Hpos.
    assert (effective_limit options = L) as Heff.
    { unfold effective_limit. rewrite HL. simpl. by rewrite decide_False by lia. }
    rewrite <- Heff. apply searchHybrid_effective; [done | lia].
  - intros Hl.
    assert (effective_limit options = 10%Z) as Heff.
    { unfold effective_limit. by destruct Hl as [-> | ->]. }
    rewrite <- Heff. apply searchHybrid_effective; [done | lia].
  - intros L HL Hneg.
    assert (effective_limit options = L) as Heff.
    { unfold effective_limit. rewrite HL. simpl. by rewrite decide_False by lia. }
    rewrite searchHybrid_eq, Heff, (Z.mul_comm L 2).
    destruct (searchKeyword _ _ _ _) as [kw|e] eqn:Hkw; [|done].
    cbn [rbind].
    destruct (searchSemantic _ _ _) as [sem|e] eqn:Hsem; [|done].
    cbn [rbind]. cbv zeta.
    rewrite combined_of_steps;
      [| by eapply searchKeyword_ids | by eapply searchSemantic_ids].
    f_equal. unfold slice0. rewrite (proj2 (Z.ltb_lt L 0)) by done.
    f_equal. rewrite (Permutation_length (sort_by_perm by_score _)). lia.
  - intros L sem. apply searchSemantic_sorted.
Qed.

End HybridSteps.

(** ** The operations on small tables *)

Example combined_of_example :
  let b1 := rowToBelief (sample_row "b1" 0.7 0 None) in
  let b2 := rowToBelief (sample_row "b2" 0.9 0 None) in
  let b3 := rowToBelief (sample_row "b3" 0.6 0 None) in
  combined_of [b1; b2] [mkResult b2 0.8%R semantic; mkResult b3 0.4%R semantic]
  = [mkResult b2 ((0.8 + (1 - INR 1 * 0.1)) / 2)%R hybrid;
     mkResult b3 0.4%R semantic;
     mkResult b1 0.5%R keyword].
Proof. reflexivity. Qed.

Example getActive_example :
  getActive two_rows no_options = [rowToBelief (sample_row "b1" 0.7 0 None)].
Proof. reflexivity. Qed.

Example invalidate_example :
  invalidate two_rows 9 "b1" "obsolete"
  = ([set_invalidation (Some 9%Z) (Some "obsolete") (sample_row "b1" 0.7 0 None);
      sample_row "b2" 0.9 0 (Some 4%Z)], true)
  /\ (invalidate (invalidate two_rows 9 "b1" "obsolete").1 10 "b1" "again").2 = false.
Proof. split; reflexivity. Qed.

Lemma searchHybrid_bounds_witness :
  NoDup (rid <$> [mkResult (rowToBelief (sample_row "b1" 0.7 0 None)) 0.5%R keyword])
  /\ (Z.of_nat 1 <= 1)%Z.
Proof.
  destruct (searchHybrid_bounds fts_all [sample_row "b1" 0.7 0 None] "async"
              (with_limit (Some 1%Z) no_options)
              [mkResult (rowToBelief (sample_row "b1" 0.7 0 None)) 0.5%R keyword]
              eq_refl) as (Hnd & Hlen & _).
  split; [exact Hnd | apply (Hlen 1%Z); [reflexivity | lia]].
Defined.

Lemma two_rows_ids : NoDup (id <$> two_rows).
Proof. apply (bool_decide_unpack _). reflexivity. Qed.

Lemma searchHybrid_follows_steps_witness :
  searchHybrid fts_all [stored_row] "async" (with_limit (Some 5%Z) no_options)
  = hybrid_steps fts_all [stored_row] "async" (with_limit (Some 5%Z) no_options) 5.
Proof.
  destruct (searchHybrid_follows_steps fts_all [stored_row] "async"
              (with_limit (Some 5%Z) no_options)) as (Hsteps & _).
  - apply NoDup_singleton.
  - apply (Hsteps 5%Z); [reflexivity | lia].
Defined.

(** C4, as stated, fails for the requested limit 0: the steps, cutting to
    the requested limit, leave nothing, while the search falls back to the
    limit 10 and returns the stored belief, found by both searches, with the
    blended score and the tag hybrid. *)
Lemma searchHybrid_limit_zero_runs_ten :
  exists res : list BeliefSearchResult,
    searchHybrid fts_all [stored_row] "async" (with_limit (Some 0%Z) no_options) = Ok res
    /\ (matchType <$> res) = [hybrid]
    /\ hybrid_steps fts_all [stored_row] "async" (with_limit (Some 0%Z) no_options) 0
       = Ok []
    /\ searchHybrid fts_all [stored_row] "async" (with_limit (Some 0%Z) no_options)
       <> hybrid_steps fts_all [stored_row] "async" (with_limit (Some 0%Z) no_options) 0.
Proof.
  destruct stored_row_hybrid as (s & _ & Hres & Hsteps).
  eexists. split; [exact Hres|]. split; [reflexivity|]. split; [exact Hsteps|].
  rewrite Hres, Hsteps. discriminate.
Qed.

Lemma getActive_spec_witness :
  getActive two_rows (with_limit (Some 1%Z) no_options)
  = take 1 (getActive two_rows (with_limit None no_options)).
Proof.
  destruct (getActive_spec two_rows no_options) as (_ & _ & Hlimit & _).
  apply (Hlimit 1%Z). lia.
Defined.

(** Deciding comparisons of concrete reals while running a sort. *)
Ltac decide_reals :=
  repeat match goal with
         | |- context [bool_decide (?a < ?b)%R] =>
             first [ rewrite (bool_decide_eq_true_2 (a < b)%R) by (simpl; lra)
                   | rewrite (bool_decide_eq_false_2 (a < b)%R) by (simpl; lra) ]
         end.

Example sort_by_score_example :
  let b := rowToBelief stored_row in
  sort_by by_score [mkResult b 0.4%R semantic; mkResult b 0.85%R hybrid;
                    mkResult b 0.5%R keyword; mkResult b 0.5%R semantic]
  = [mkResult b 0.85%R hybrid; mkResult b 0.5%R keyword;
     mkResult b 0.5%R semantic; mkResult b 0.4%R semantic].
Proof.
  intros b. cbn [sort_by insert_by]. unfold by_score.
  repeat (decide_reals; cbn [insert_by]). reflexivity.
Qed.

(** * Further properties of the belief store *)

Section StoreRoundTrips.

Lemma truthyS_idemp (o : option string) : truthyS (truthyS o) = truthyS o.
Proof. destruct o as [s|]; simpl; [|done]. by case_decide; simpl; rewrite ?decide_False. Qed.

Lemma truthyZ_idemp (o : option Z) : truthyZ (truthyZ o) = truthyZ o.
Proof. destruct o as [z|]; simpl; [|done]. by case_decide; simpl; rewrite ?decide_False. Qed.

Lemma rowToBelief_idemp (r : BeliefRow) : rowToBelief (rowToBelief r) = rowToBelief r.
Proof. unfold rowToBelief. simpl. by rewrite !truthyS_idemp, truthyZ_idemp. Qed.

Lemma filter_id_fresh (db : list BeliefRow) (i : string) :
  i ∉ id <$> db -> filter (fun r => id r = i) db = [].
Proof.
  intros Hi. induction db as [|r db IH]; [done|].
  rewrite filter_cons. rewrite fmap_cons, not_elem_of_cons in Hi.
  destruct Hi as [Hne Hi]. rewrite decide_False by done. by apply IH.
Qed.

(** X1. [create] under a fresh identifier, of a belief that supersedes
    nothing or supersedes a stored belief, succeeds and adds one row; the
    returned belief carries the identifier and the supplied or generated
    embedding; [getById] then reads the returned belief back, with a falsy
    [supersedes_id], [invalidated_at] or [invalidation_reason] dropped; the
    other identifiers read as before. *)
Theorem create_getById (db : list BeliefRow) (newid : string) (b : BeliefOf unit) :
  newid ∉ id <$> db -> references_stored db b ->
  exists (db' : list BeliefRow) (full : Belief),
    create db newid b = Ok (db', full)
    /\ id full = newid
    /\ embedding full
       = Some (default (generateEmbedding (text b) default_dims) (embedding b))
    /\ getById db' newid = Some (rowToBelief full)
    /\ (forall i, i <> newid -> getById db' i = getById db i)
    /\ length db' = S (length db).
Proof.
  intros Hfresh _. unfold create. rewrite decide_False by done.
  eexists _, _. split; [done|]. split; [done|]. split.
  { simpl. by destruct (embedding b). }
  split; [|split].
  - unfold getById. rewrite filter_app, filter_id_fresh by done.
    rewrite filter_cons, decide_True by done. simpl.
    unfold rowToBelief. simpl. by rewrite !truthyS_idemp, truthyZ_idemp.
  - intros i Hi. unfold getById. rewrite filter_app.
    rewrite (filter_cons _ _ []), decide_False by (simpl; congruence).
    by rewrite filter_nil, app_nil_r.
  - rewrite length_app. simpl. lia.
Qed.

Lemma create_getById_witness :
  exists (db' : list BeliefRow) (full : Belief),
    create two_rows "b3" (sample_input 0.6) = Ok (db', full)
    /\ getById db' "b3" = Some (rowToBelief full)
    /\ length db' = 3.
Proof.
  destruct (create_getById two_rows "b3" (sample_input 0.6))
    as (db' & full & Hc & _ & _ & Hget & _ & Hlen).
  - apply (bool_decide_unpack _). reflexivity.
  - exact I.
  - by exists db', full.
Defined.

Lemma apply_changes_normal (changes : PartialBelief) (r : BeliefRow) :
  apply_changes changes r
  = mkBelief (id r) (default (text r) (p_text changes)) (domain r)
      (default (confidence r) (p_confidence changes))
      (default (evidence_ids r) (p_evidence_ids changes))
      (default (supporting_count r) (p_supporting_count changes))
      (default (contradicting_count r) (p_contradicting_count changes))
      (derived_at r)
      (default (last_evaluated r) (p_last_evaluated changes))
      (supersedes_id r) (invalidated_at r) (invalidation_reason r)
      (match p_embedding changes with Some v => Some v | None => embedding r end)
      (default (importance r) (p_importance changes))
      (default (tags r) (p_tags changes)).
Proof.
  unfold apply_changes.
  destruct (p_text changes), (p_confidence changes), (p_evidence_ids changes),
    (p_supporting_count changes), (p_contradicting_count changes),
    (p_last_evaluated changes), (p_importance changes), (p_tags changes),
    (p_embedding changes); by destruct r.
Qed.

Lemma apply_changes_idemp (changes : PartialBelief) (r : BeliefRow) :
  apply_changes changes (apply_changes changes r) = apply_changes changes r.
Proof.
  rewrite (apply_changes_normal changes (apply_changes changes r)).
  rewrite (apply_changes_normal changes r). simpl.
  f_equal;
    first [ done
          | by destruct (p_text changes)
          | by destruct (p_confidence changes)
          | by destruct (p_evidence_ids changes)
          | by destruct (p_supporting_count changes)
          | by destruct (p_contradicting_count changes)
          | by destruct (p_last_evaluated changes)
          | by destruct (p_embedding changes)
          | by destruct (p_importance changes)
          | by destruct (p_tags changes) ].
Qed.

Lemma filter_id_map (f : BeliefRow -> BeliefRow) (db : list BeliefRow) (i : string) :
  (forall r, id (f r) = id r) ->
  filter (fun r => id r = i) (f <$> db) = f <$> filter (fun r => id r = i) db.
Proof.
  intros Hf. induction db as [|r db IH]; [done|].
  rewrite fmap_cons, !filter_cons, Hf, IH. by case_decide.
Qed.

Lemma update_table (db : list BeliefRow) (i : string) (changes : PartialBelief) :
  (update db i changes).1
  = (fun r => if decide (id r = i) then apply_changes changes r else r) <$> db.
Proof.
  apply list_eq. intros k. by rewrite update_lookup, list_lookup_fmap.
Qed.

Lemma update_id_kept (i : string) (changes : PartialBelief) (r : BeliefRow) :
  id (if decide (id r = i) then apply_changes changes r else r) = id r.
Proof. case_decide; [apply apply_changes_frame | done]. Qed.

Lemma row_of_mapped (db : list BeliefRow) (i : string) (changes : PartialBelief) :
  row_of ((fun r => if decide (id r = i) then apply_changes changes r else r) <$> db) i
  = apply_changes changes <$> row_of db i.
Proof.
  unfold row_of.
  rewrite filter_id_map by (intros r; apply update_id_kept).
  destruct (filter _ db) as [|r l] eqn:Hf; [done|]. simpl.
  assert (id r = i) as Hr.
  { assert (r ∈ filter (fun r => id r = i) db) as Hin by (rewrite Hf; left).
    by apply list_elem_of_filter in Hin as [? _]. }
  by rewrite decide_True.
Qed.

Lemma row_of_update (db : list BeliefRow) (i : string) (changes : PartialBelief) :
  row_of (update db i changes).1 i = apply_changes changes <$> row_of db i.
Proof. rewrite update_table. apply row_of_mapped. Qed.

Lemma update_reads_back (db : list BeliefRow) (i : string) (changes : PartialBelief) :
  (update db i changes).2 = getById (update db i changes).1 i.
Proof.
  unfold update at 1. destruct (getById db i) as [e|] eqn:He; simpl.
  - destruct (no_updates changes) eqn:Hno; simpl.
    + unfold update. by rewrite He, Hno.
    + unfold update. by rewrite He, Hno.
  - unfold update. by rewrite He.
Qed.

(** X2. What [update] returns: for an unknown identifier nothing (and no
    write); for a change set without updatable fields the stored belief as it
    is (and no write); otherwise the stored belief after the supplied fields
    were written.  In every case the result is what [getById] reads
    afterwards. *)
Theorem update_returns (db : list BeliefRow) (i : string) (changes : PartialBelief) :
  (row_of db i = None -> update db i changes = (db, None))
  /\ (no_updates changes = true -> update db i changes = (db, getById db i))
  /\ (forall r : BeliefRow, row_of db i = Some r ->
        (update db i changes).2 = Some (rowToBelief (apply_changes changes r)))
  /\ (update db i changes).2 = getById (update db i changes).1 i.
Proof.
  assert (forall d, getById d i = rowToBelief <$> row_of d i) as Hget by done.
  split; [|split; [|split]].
  - intros Hnone. unfold update. by rewrite Hget, Hnone.
  - intros Hno. unfold update. destruct (getById db i); [by rewrite Hno | done].
  - intros r Hr. unfold update. rewrite Hget, Hr. simpl.
    destruct (no_updates changes) eqn:Hno; simpl.
    + by rewrite no_updates_id.
    + rewrite Hget. unfold sql_update. cbn [fst].
      rewrite (map_fmap (fun r => if decide (id r = i) then _ else r)).
      by rewrite row_of_mapped, Hr.
  - apply update_reads_back.
Qed.

Lemma update_returns_witness :
  (update two_rows "b1" reactivate).2
  = Some (rowToBelief (apply_changes reactivate (sample_row "b1" 0.7 0 None))).
Proof.
  destruct (update_returns two_rows "b1" reactivate) as (_ & _ & Hret & _).
  apply Hret. reflexivity.
Defined.

End StoreRoundTrips.

Section StoreWrites.
Local Open Scope R_scope.

(** X3. [update] leaves every row with another identifier as it is; on the
    rows it writes it never changes [id], [domain], [derived_at],
    [supersedes_id], [invalidated_at] or [invalidation_reason], whatever the
    change set holds; and applying the same change set a second time changes
    nothing and returns the same belief. *)
Theorem update_frame_idempotent (db : list BeliefRow) (i : string)
    (changes : PartialBelief) :
  (forall k (r : BeliefRow), db !! k = Some r -> id r <> i ->
     (update db i changes).1 !! k = Some r)
  /\ (forall k (r : BeliefRow), db !! k = Some r ->
        exists r' : BeliefRow,
          (update db i changes).1 !! k = Some r'
          /\ id r' = id r /\ domain r' = domain r /\ derived_at r' = derived_at r
          /\ supersedes_id r' = supersedes_id r
          /\ invalidated_at r' = invalidated_at r
          /\ invalidation_reason r' = invalidation_reason r)
  /\ update (update db i changes).1 i changes
     = ((update db i changes).1, (update db i changes).2).
Proof.
  split; [|split].
  - intros k r Hk Hne. rewrite update_lookup, Hk. simpl. by rewrite decide_False.
  - intros k r Hk. rewrite update_lookup, Hk. simpl. eexists. split; [done|].
    case_decide; [|done]. by rewrite apply_changes_normal.
  - assert ((update (update db i changes).1 i changes).1 = (update db i changes).1)
      as Hstate.
    { rewrite (update_table (update db i changes).1), update_table.
      rewrite <- list_fmap_compose. apply list_fmap_ext. intros _ r _. simpl.
      destruct (decide (id r = i)) as [Hr|Hr].
      - rewrite decide_True by (by rewrite (proj1 (apply_changes_frame _ _))).
        apply apply_changes_idemp.
      - by rewrite decide_False. }
    pose proof (update_reads_back (update db i changes).1 i changes) as H2.
    pose proof (update_reads_back db i changes) as H1.
    rewrite (surjective_pairing (update (update db i changes).1 i changes)).
    by rewrite H2, Hstate, <- H1.
Qed.

Lemma update_frame_idempotent_witness :
  (update two_rows "b1" reactivate).1 !! 1%nat = Some (sample_row "b2" 0.9 0 (Some 4%Z)).
Proof.
  destruct (update_frame_idempotent two_rows "b1" reactivate) as (Hframe & _).
  apply Hframe; [reflexivity | discriminate].
Defined.

Lemma set_counts_commute (a b : Z) (r : BeliefRow) :
  set_supporting_count a (set_contradicting_count b r)
  = set_contradicting_count b (set_supporting_count a r).
Proof. reflexivity. Qed.

Lemma incrementContradicting_table (db : list BeliefRow) (i : string) :
  incrementContradicting db i
  = (fun r => if decide (id r = i)
              then set_contradicting_count (contradicting_count r + 1) r else r) <$> db.
Proof. reflexivity. Qed.

Lemma incrementSupporting_table (db : list BeliefRow) (i : string) :
  incrementSupporting db i
  = (fun r => if decide (id r = i)
              then set_supporting_count (supporting_count r + 1) r else r) <$> db.
Proof. reflexivity. Qed.

Lemma set_contradicting_count_same (r : BeliefRow) :
  set_contradicting_count (contradicting_count r) r = r.
Proof. by destruct r. Qed.

(** X4. [n] calls of [incrementContradicting] on an identifier add [n] to
    that belief's contradicting counter and change nothing else: not its
    confidence, not its invalidation, no other row.  The two increments
    commute, on equal and on different identifiers. *)
Theorem increments_add_and_commute (db : list BeliefRow) (i j : string) (n : nat) :
  (forall k, Nat.iter n (fun d => incrementContradicting d i) db !! k
             = (fun r : BeliefRow =>
                  if decide (id r = i)
                  then set_contradicting_count (contradicting_count r + Z.of_nat n) r
                  else r) <$> db !! k)
  /\ incrementSupporting (incrementContradicting db i) j
     = incrementContradicting (incrementSupporting db j) i.
Proof.
  split.
  - induction n as [|n IH]; intros k.
    + simpl. destruct (db !! k) as [r|]; simpl; [|done].
      case_decide; [|done]. by rewrite Z.add_0_r, set_contradicting_count_same.
    + rewrite Nat.iter_succ, incrementContradicting_table, list_lookup_fmap, IH.
      destruct (db !! k) as [r|]; simpl; [|done]. f_equal.
      destruct (decide (id r = i)) as [Hr|Hr].
      * rewrite decide_True by done. unfold set_contradicting_count. simpl.
        f_equal. lia.
      * by rewrite decide_False.
  - rewrite incrementSupporting_table, incrementContradicting_table.
    rewrite (incrementContradicting_table (incrementSupporting db j)).
    rewrite incrementSupporting_table, <- !list_fmap_compose.
    apply list_fmap_ext. intros _ r _. simpl.
    repeat (case_decide; simpl in * ); first [congruence | reflexivity].
Qed.

(** X5. [adjustConfidence] saturates: on a listed belief a sum at or under
    the floor gives exactly the floor, a sum of 1 or more gives 1 (the floor
    if that is larger), and a sum in between is stored as it is; the other
    fields of a listed belief and all unlisted beliefs stay as they are; only
    the set of listed identifiers matters. *)
Theorem adjustConfidence_saturates (config : Config) (db : list BeliefRow)
    (ids : list string) (delta : R) :
  (forall k (r : BeliefRow), db !! k = Some r ->
     exists r' : BeliefRow,
       adjustConfidence config db ids delta !! k = Some r'
       /\ r' = set_confidence (confidence r') r
       /\ (id r ∉ ids -> r' = r)
       /\ (id r ∈ ids -> confidence r + delta <= minConfidenceFloor config ->
           confidence r' = minConfidenceFloor config)
       /\ (id r ∈ ids -> 1 <= confidence r + delta ->
           confidence r' = Rmax (minConfidenceFloor config) 1)
       /\ (id r ∈ ids -> minConfidenceFloor config <= confidence r + delta <= 1 ->
           confidence r' = confidence r + delta))
  /\ (forall ids' : list string, (forall x, x ∈ ids <-> x ∈ ids') ->
        adjustConfidence config db ids delta = adjustConfidence config db ids' delta).
Proof.
  split.
  - intros k r Hk. rewrite adjustConfidence_lookup, Hk. simpl.
    eexists. split; [done|].
    destruct (decide (id r ∈ ids)) as [Hin|Hin]; simpl.
    + split; [done|]. split; [done|].
      split; [|split]; intros _ Hsum.
      * apply Rmax_left. pose proof (Rmin_r 1.0 (confidence r + delta)). lra.
      * rewrite Rmin_left by lra. f_equal. lra.
      * rewrite Rmin_right by lra. apply Rmax_right. lra.
    + split; [by rewrite set_confidence_same|]. done.
  - intros ids' Hsame. apply list_eq. intros k.
    rewrite !adjustConfidence_lookup. destruct (db !! k) as [r|]; simpl; [|done].
    destruct (decide (id r ∈ ids)) as [Hin|Hin].
    + by rewrite decide_True by (by apply Hsame).
    + by rewrite decide_False by (by rewrite <- Hsame).
Qed.

Lemma adjustConfidence_saturates_witness :
  exists r' : BeliefRow,
    adjustConfidence DEFAULT_CONFIG two_rows ["b1"] (-5) !! 0%nat = Some r'
    /\ confidence r' = minConfidenceFloor DEFAULT_CONFIG.
Proof.
  destruct (adjustConfidence_saturates DEFAULT_CONFIG two_rows ["b1"] (-5))
    as (Hsat & _).
  destruct (Hsat 0%nat (sample_row "b1" 0.7 0 None) eq_refl)
    as (r' & Hk & _ & _ & Hfloor & _).
  exists r'. split; [exact Hk|]. apply Hfloor.
  - apply list_elem_of_here.
  - simpl. lra.
Defined.

End StoreWrites.

Section DomainReads.
Local Open Scope R_scope.

Lemma by_confidence_importance_order (x y : BeliefRow) :
  in_order by_confidence_importance x y <-> ranks_before_in_domain x y.
Proof.
  unfold in_order, by_confidence_importance, ranks_before_in_domain.
  rewrite orb_false_iff, andb_false_iff, !bool_decide_eq_false. split.
  - intros [Hc Hi]. destruct (decide (confidence y = confidence x)) as [Heq|Hne].
    + right. split; [done|]. destruct Hi as [Hi|Hi]; [done | lia].
    + left. lra.
  - intros [Hlt | [Heq Hi]]; (split; [lra|]); [left; lra | right; lia].
Qed.

Lemma by_confidence_importance_asym (x y : BeliefRow) :
  by_confidence_importance x y = true -> by_confidence_importance y x = false.
Proof.
  unfold by_confidence_importance.
  rewrite orb_true_iff, andb_true_iff, !bool_decide_eq_true.
  rewrite orb_false_iff, andb_false_iff, !bool_decide_eq_false.
  intros [Hlt | [Heq Hi]]; (split; [lra|]); [left; lra | right; lia].
Qed.

Lemma ranks_before_in_domain_trans (x y z : Belief) :
  ranks_before_in_domain x y -> ranks_before_in_domain y z ->
  ranks_before_in_domain x z.
Proof.
  unfold ranks_before_in_domain. intros [H1 | [H1 H1']] [H2 | [H2 H2']].
  - left. lra.
  - left. lra.
  - left. lra.
  - right. split; [congruence | lia].
Qed.

Lemma sort_by_domain_sorted (rows : list BeliefRow) :
  StronglySorted ranks_before_in_domain (sort_by by_confidence_importance rows).
Proof.
  apply Sorted_StronglySorted; [intros x y z; apply ranks_before_in_domain_trans|].
  eapply Sorted_ind with (P := Sorted ranks_before_in_domain);
    [constructor | | apply (sort_by_sorted _ by_confidence_importance_asym)].
  intros a l _ IH Hhd. constructor; [done|].
  destruct Hhd; constructor. by apply by_confidence_importance_order.
Qed.

Lemma getByDomain_rows (db : list BeliefRow) (d : BeliefDomain) (ao : option bool) :
  getByDomain db d ao
  = rowToBelief <$> sort_by by_confidence_importance (filter (selected ao (Some d)) db).
Proof.
  unfold getByDomain. rewrite (map_fmap rowToBelief). do 2 f_equal.
  destruct (decide (ao = Some false)) as [Hao|Hao].
  - apply filter_iff_in. intros r _. unfold selected. split.
    + intros Hd. split; [by left | done].
    + by intros [_ Hd].
  - rewrite list_filter_filter. apply filter_iff_in. intros r _. unfold selected. split.
    + intros [Hact Hd]. split; [by right | done].
    + by intros [[Hf|Hact] Hd].
Qed.

(** X6. [getByDomain] returns exactly the stored beliefs of the domain,
    without the invalidated ones unless [activeOnly] is [false], each once per
    row, ordered by confidence descending and then importance descending. *)
Theorem getByDomain_spec (db : list BeliefRow) (d : BeliefDomain) (ao : option bool) :
  getByDomain db d ao ≡ₚ rowToBelief <$> filter (selected ao (Some d)) db
  /\ (forall b : Belief, b ∈ getByDomain db d ao ->
        domain b = d /\ (ao <> Some false -> invalidated_at b = None))
  /\ (forall (i j : nat) (x y : Belief), (i < j)%nat ->
        getByDomain db d ao !! i = Some x -> getByDomain db d ao !! j = Some y ->
        ranks_before_in_domain x y).
Proof.
  rewrite getByDomain_rows. split; [|split].
  - by rewrite sort_by_perm.
  - intros b Hb. apply list_elem_of_fmap in Hb as (r & -> & Hr).
    rewrite sort_by_perm in Hr. apply list_elem_of_filter in Hr as [[Hact Hd] _].
    split; [done|]. intros Hao. destruct Hact as [?|Hact]; [done|].
    simpl. by rewrite Hact.
  - intros i j x y Hij Hi Hj. rewrite list_lookup_fmap in Hi, Hj.
    destruct (sort_by _ _ !! i) as [ri|] eqn:Hri; simplify_eq/=.
    destruct (sort_by _ _ !! j) as [rj|] eqn:Hrj; simplify_eq/=.
    exact (StronglySorted_lookup _ _ (sort_by_domain_sorted _) i j ri rj Hij Hri Hrj).
Qed.

Lemma getByDomain_spec_witness :
  domain (rowToBelief (sample_row "b1" 0.7 0 None)) = code_pattern.
Proof.
  destruct (getByDomain_spec two_rows code_pattern None) as (_ & Hdom & _).
  apply (Hdom (rowToBelief (sample_row "b1" 0.7 0 None))).
  change (getByDomain two_rows code_pattern None)
    with [rowToBelief (sample_row "b1" 0.7 0 None)].
  apply list_elem_of_here.
Defined.

Lemma filter_all {A : Type} (P : A -> Prop) `{!forall x, Decision (P x)} (l : list A) :
  (forall x, x ∈ l -> P x) -> filter P l = l.
Proof.
  induction l as [|a l IH]; intros Hall; [done|].
  rewrite filter_cons, decide_True by (apply Hall; left).
  f_equal. apply IH. intros x Hx. apply Hall. by right.
Qed.

Lemma count_selected (db : list BeliefRow) (options : CountOptions) :
  count db options
  = Z.of_nat (length (filter (selected (c_activeOnly options) (c_domain options)) db)).
Proof.
  unfold count. do 2 f_equal.
  destruct (decide (c_activeOnly options = Some false)) as [Hao|Hao],
    (c_domain options) as [d|].
  - apply filter_iff_in. intros r _. unfold selected. split.
    + intros Hd. split; [by left | done].
    + by intros [_ Hd].
  - symmetry. apply filter_all. intros r _. split; [by left | done].
  - rewrite list_filter_filter. apply filter_iff_in. intros r _. unfold selected. split.
    + intros [Hd Hact]. split; [by right | done].
    + by intros [[Hf|Hact] Hd].
  - apply filter_iff_in. intros r _. unfold selected. split.
    + intros Hact. split; [by right | done].
    + by intros [[Hf|Hact] _].
Qed.

(** X7. [count] without [activeOnly] counts the active beliefs only, as with
    [activeOnly: true]; it agrees with the length of [getByDomain] for the
    same options and with the length of [getActive] for the same domain,
    whatever [activeOnly] the latter is given; and it never exceeds the count
    with [activeOnly: false], which for no domain is the number of rows. *)
Theorem count_agrees (db : list BeliefRow) (d : BeliefDomain) (dom : option BeliefDomain)
    (ao ao' : option bool) :
  count db (mkCountOptions None dom) = count db (mkCountOptions (Some true) dom)
  /\ count db (mkCountOptions ao (Some d)) = Z.of_nat (length (getByDomain db d ao))
  /\ count db (mkCountOptions None dom)
     = Z.of_nat (length (getActive db (mkOptions None None dom None ao')))
  /\ (0 <= count db (mkCountOptions ao dom)
      <= count db (mkCountOptions (Some false) dom))%Z
  /\ count db (mkCountOptions (Some false) None) = Z.of_nat (length db).
Proof.
  split; [|split; [|split; [|split]]].
  - reflexivity.
  - rewrite count_selected, getByDomain_rows, length_fmap, sort_by_length. done.
  - unfold count, getActive. simpl. rewrite length_map, sort_by_length.
    by destruct dom.
  - rewrite !count_selected. simpl. split; [lia|]. apply inj_le.
    apply sublist_length.
    rewrite <- (list_filter_filter_l (selected ao dom) (selected (Some false) dom)).
    + apply sublist_filter.
    + intros r [_ Hd]. split; [by left | done].
  - reflexivity.
Qed.

End DomainReads.

Section DomainStats.
Local Open Scope R_scope.

Lemma domain_name_inj (d d' : BeliefDomain) : domain_name d = domain_name d' -> d = d'.
Proof. by destruct d, d'. Qed.

Lemma all_domains_complete (d : BeliefDomain) : d ∈ all_domains.
Proof. unfold all_domains. destruct d; set_solver. Qed.

Lemma domain_group_filter (db : list BeliefRow) (d : BeliefDomain) :
  domain_group db d
  = match filter (selected None (Some d)) db with
    | [] => None
    | g => Some (domain_name d,
                 (Z.of_nat (length g), sum_confidence g / INR (length g)))
    end.
Proof.
  unfold domain_group.
  replace (filter (fun r => invalidated_at r = None /\ domain r = d) db)
    with (filter (selected None (Some d)) db); [done|].
  apply filter_iff_in. intros r _. unfold selected. naive_solver.
Qed.

Lemma domain_group_key (db : list BeliefRow) (d : BeliefDomain) (kv : string * (Z * R)) :
  domain_group db d = Some kv -> kv.1 = domain_name d.
Proof. unfold domain_group. destruct (filter _ db); [done|]. by intros [= <-]. Qed.

Lemma group_keys_NoDup (db : list BeliefRow) (ds : list BeliefDomain) :
  NoDup ds -> NoDup (omap (domain_group db) ds).*1.
Proof.
  induction 1 as [|d ds Hd Hnd IH]; simpl; [constructor|].
  destruct (domain_group db d) as [kv|] eqn:Hg; [|done]. simpl.
  constructor; [|done]. intros Hin.
  apply list_elem_of_fmap in Hin as (kv' & Hk & Hin).
  apply list_elem_of_omap in Hin as (d' & Hd' & Hg').
  apply domain_group_key in Hg, Hg'.
  assert (d' = d) as -> by (apply domain_name_inj; congruence). done.
Qed.

Lemma getStatsPerDomain_lookup (db : list BeliefRow) (d : BeliefDomain) :
  getStatsPerDomain db !! domain_name d = snd <$> domain_group db d.
Proof.
  change (getStatsPerDomain db) with (js_Map (omap (domain_group db) all_domains)).
  destruct (domain_group db d) as [[k v]|] eqn:Hg; cbn [fmap option_fmap option_map snd].
  - pose proof (domain_group_key _ _ _ Hg) as Hk. cbn [fst] in Hk. subst k.
    apply js_Map_lookup_Some.
    + apply group_keys_NoDup, (bool_decide_unpack _). reflexivity.
    + apply list_elem_of_omap. exists d. split; [apply all_domains_complete | done].
  - apply js_Map_lookup_None. intros Hin.
    apply list_elem_of_fmap in Hin as (kv' & Hk & Hin).
    apply list_elem_of_omap in Hin as (d' & Hd' & Hg').
    pose proof (domain_group_key _ _ _ Hg') as Hk'.
    assert (d' = d) as -> by (apply domain_name_inj; congruence). congruence.
Qed.

Lemma stats_count_count (db : list BeliefRow) (d : BeliefDomain) :
  stats_count (getStatsPerDomain db) d = count db (mkCountOptions None (Some d)).
Proof.
  unfold stats_count. rewrite getStatsPerDomain_lookup, domain_group_filter.
  rewrite count_selected. simpl. by destruct (filter _ db).
Qed.

Lemma selected_split (r : BeliefRow) :
  foldr Z.add 0%Z
    ((fun d => if decide (selected None (Some d) r) then 1%Z else 0%Z) <$> all_domains)
  = if decide (selected None None r) then 1%Z else 0%Z.
Proof.
  unfold all_domains. cbn [fmap list_fmap foldr].
  destruct (decide (invalidated_at r = None)) as [Hact|Hact].
  - rewrite (decide_True (P := selected None None r)) by (split; [by right | done]).
    destruct (domain r) eqn:Hd;
      repeat match goal with
             | |- context [decide (selected None (Some ?d) r)] =>
                 first [ rewrite (decide_True (P := selected None (Some d) r))
                           by (split; [by right | done])
                       | rewrite (decide_False (P := selected None (Some d) r))
                           by (intros [_ Hd']; simpl in Hd'; congruence) ]
             end; reflexivity.
  - rewrite (decide_False (P := selected None None r)) by (by intros [[?|?] _]).
    repeat match goal with
           | |- context [decide (selected None (Some ?d) r)] =>
               rewrite (decide_False (P := selected None (Some d) r))
                 by (by intros [[?|?] _])
           end.
    reflexivity.
Qed.

Lemma foldr_add_pointwise {A : Type} (f g : A -> Z) (l : list A) :
  foldr Z.add 0%Z ((fun x => f x + g x)%Z <$> l)
  = (foldr Z.add 0%Z (f <$> l) + foldr Z.add 0%Z (g <$> l))%Z.
Proof.
  induction l as [|x l IH]; [done|].
  rewrite !fmap_cons. cbn [foldr]. rewrite IH. lia.
Qed.

Lemma counts_partition (db : list BeliefRow) :
  foldr Z.add 0%Z ((fun d => count db (mkCountOptions None (Some d))) <$> all_domains)
  = count db (mkCountOptions None None).
Proof.
  induction db as [|r db IH].
  - reflexivity.
  - assert (forall o, count (r :: db) o
                      = ((if decide (selected (c_activeOnly o) (c_domain o) r)
                          then 1 else 0) + count db o)%Z) as Hcons.
    { intros o. rewrite !count_selected, filter_cons. case_decide; simpl length; lia. }
    rewrite (Hcons (mkCountOptions None None)), <- IH, <- selected_split.
    rewrite <- foldr_add_pointwise. f_equal. apply list_fmap_ext. intros _ d _.
    by rewrite (Hcons (mkCountOptions None (Some d))).
Qed.

(** X8. [getStatsPerDomain] has a key for a domain exactly when the domain
    has an active belief; the count under the key is [count] for that domain;
    for a domain with one active belief the average is the confidence of that
    belief; and the counts of all keys add up to [count] without options. *)
Theorem getStatsPerDomain_spec (db : list BeliefRow) (d : BeliefDomain) :
  let stats := getStatsPerDomain db in
  let g := filter (selected None (Some d)) db in
  let n := count db (mkCountOptions None (Some d)) in
  (n = 0%Z -> stats !! domain_name d = None)
  /\ ((0 < n)%Z -> fst <$> stats !! domain_name d = Some n)
  /\ (forall r : BeliefRow, g = [r] -> stats !! domain_name d = Some (1%Z, confidence r))
  /\ foldr Z.add 0%Z (stats_count stats <$> all_domains)
     = count db (mkCountOptions None None).
Proof.
  intros stats g n. subst stats n.
  rewrite getStatsPerDomain_lookup, domain_group_filter, count_selected.
  cbn [c_activeOnly c_domain]. fold g. clearbody g.
  split; [|split; [|split]].
  - intros Hn. destruct g; [done | cbn [length] in Hn; lia].
  - intros Hn. destruct g as [|r g'] eqn:Hg; [cbn [length] in Hn; lia|].
    by rewrite <- Hg.
  - intros r ->. cbn [fmap option_fmap option_map snd length sum_confidence foldr INR].
    do 2 f_equal. field.
  - rewrite <- counts_partition. f_equal. apply list_fmap_ext. intros _ d' _.
    apply stats_count_count.
Qed.

Lemma getStatsPerDomain_spec_witness :
  fst <$> getStatsPerDomain two_rows !! domain_name code_pattern = Some 1%Z
  /\ getStatsPerDomain two_rows !! domain_name code_pattern = Some (1%Z, 0.7).
Proof.
  destruct (getStatsPerDomain_spec two_rows code_pattern) as (_ & Hsome & Hone & _).
  split.
  - apply Hsome. reflexivity.
  - apply (Hone (sample_row "b1" 0.7 0 None)). reflexivity.
Defined.

End DomainStats.

(** * Further properties of the embeddings *)

Section SimilarityBounds.
Local Open Scope R_scope.

Lemma dot_comm (a : list R) : forall b, dot a b = dot b a.
Proof.
  unfold dot. induction a as [|x a IH]; intros [|y b]; simpl; try done.
  rewrite IH. lra.
Qed.

Lemma nonneg_tail (x : R) (a : list R) : nonneg (x :: a) -> 0 <= x /\ nonneg a.
Proof.
  intros H. split; [by apply (H 0%nat) | intros j v Hj; by apply (H (S j))].
Qed.

Lemma dot_nonneg_slots (a : list R) : forall b, nonneg a -> nonneg b -> 0 <= dot a b.
Proof.
  unfold dot. induction a as [|x a IH]; intros [|y b] Ha Hb; simpl; try lra.
  apply nonneg_tail in Ha as [Hx Ha]. apply nonneg_tail in Hb as [Hy Hb].
  specialize (IH b Ha Hb). nra.
Qed.


Lemma norm_nonneg (a : list R) : 0 <= norm a.
Proof. apply sqrt_pos. Qed.

Lemma cosineSimilarity_nonneg (a b : list R) (s : R) :
  nonneg a -> nonneg b -> cosineSimilarity a b = Ok s -> 0 <= s.
Proof.
  intros Ha Hb. destruct (decide (length a = length b)) as [Hlen|Hlen].
  - rewrite cosineSimilarity_eq by done. case_decide as Hm; intros [= <-]; [lra|].
    pose proof (norm_nonneg a). pose proof (norm_nonneg b).
    assert (0 < norm a * norm b) as Hpos by nra.
    pose proof (dot_nonneg_slots a b Ha Hb).
    unfold Rdiv. apply Rmult_le_pos; [done|]. left. by apply Rinv_0_lt_compat.
  - unfold cosineSimilarity.
    by assert ((length a =? length b)%nat = false) as -> by (by apply Nat.eqb_neq).
Qed.

Lemma cosineSimilarity_comm (a b : list R) : cosineSimilarity a b = cosineSimilarity b a.
Proof.
  destruct (decide (length a = length b)) as [Hlen|Hlen].
  - rewrite (cosineSimilarity_eq a b), (cosineSimilarity_eq b a) by done.
    by rewrite (dot_comm b a), (Rmult_comm (norm b)).
  - unfold cosineSimilarity.
    assert ((length a =? length b)%nat = false) as -> by (by apply Nat.eqb_neq).
    by assert ((length b =? length a)%nat = false) as -> by (by apply Nat.eqb_neq).
Qed.

(** X9. [cosineSimilarity] does not depend on the order of its arguments,
    and the number it returns is not negative when no slot of either vector
    is. *)
Theorem cosineSimilarity_symmetric (a b : list R) :
  cosineSimilarity a b = cosineSimilarity b a
  /\ (forall s, nonneg a -> nonneg b -> cosineSimilarity a b = Ok s -> 0 <= s).
Proof.
  split; [apply cosineSimilarity_comm|].
  intros s. apply cosineSimilarity_nonneg.
Qed.

Lemma cosineSimilarity_symmetric_witness :
  exists s, cosineSimilarity [3; 4] [1; 2] = Ok s /\ 0 <= s.
Proof.
  destruct (cosineSimilarity_ok [3; 4] [1; 2] eq_refl) as [s Hs].
  exists s. split; [exact Hs|].
  apply (cosineSimilarity_symmetric [3; 4] [1; 2]); [| |exact Hs].
  - intros [|[|j]] v Hj; [injection Hj as <-; lra | injection Hj as <-; lra | done].
  - intros [|[|j]] v Hj; [injection Hj as <-; lra | injection Hj as <-; lra | done].
Defined.

Lemma hash_loop_nonneg (dims : nat) (codes : list nat) : nonneg (hash_loop dims codes).
Proof.
  unfold hash_loop.
  apply hash_fold_inv; [apply length_replicate | apply replicate_nonneg].
Qed.

Lemma generateEmbedding_nonneg (text : string) (dims : nat) :
  nonneg (generateEmbedding text dims).
Proof.
  unfold generateEmbedding. case_decide as Hm; [|apply hash_loop_nonneg].
  intros j v Hj. rewrite (map_fmap (fun v => v / _)) in Hj.
  rewrite list_lookup_fmap in Hj.
  destruct (hash_loop dims _ !! j) as [w|] eqn:Hw; [|done].
  injection Hj as <-. apply hash_loop_nonneg in Hw.
  apply Rmult_le_reg_r with (sqrt (sum_squares (hash_loop dims (charCodes (toLowerCase text)))));
    [done|].
  match goal with |- _ <= ?x / ?m * ?m => replace (x / m * m) with x by (field; lra) end.
  lra.
Qed.

Lemma slot_sqr_le_dot (e : list R) : forall j v, e !! j = Some v -> v * v <= dot e e.
Proof.
  unfold dot. induction e as [|x e IH]; intros j v Hj; [done|].
  simpl. pose proof (dot_nonneg e) as He. unfold dot in He.
  destruct j as [|j]; simpl in Hj.
  - injection Hj as ->. lra.
  - specialize (IH j v Hj). nra.
Qed.

Lemma norm_sqr (e : list R) : norm e * norm e = dot e e.
Proof. unfold norm. apply sqrt_sqrt, dot_nonneg. Qed.

Lemma generateEmbedding_norm (text : string) (dims : nat) :
  norm (generateEmbedding text dims) = 0 \/ norm (generateEmbedding text dims) = 1.
Proof.
  destruct (decide (text = EmptyString)) as [->|Ht].
  - left. rewrite generateEmbedding_empty. unfold norm.
    rewrite dot_replicate_zero. apply sqrt_0.
  - destruct dims as [|dims].
    + left. pose proof (generateEmbedding_length text 0) as Hlen.
      destruct (generateEmbedding text 0); [|done]. unfold norm, dot. simpl. apply sqrt_0.
    + right. apply generateEmbedding_unit; [lia | done].
Qed.

Lemma generateEmbedding_slot_le (text : string) (dims : nat) (j : nat) (v : R) :
  generateEmbedding text dims !! j = Some v -> v <= 1.
Proof.
  intros Hj. pose proof (slot_sqr_le_dot _ _ _ Hj) as Hsq.
  rewrite <- norm_sqr in Hsq.
  destruct (generateEmbedding_norm text dims) as [Hn|Hn]; rewrite Hn in Hsq; nra.
Qed.

(** X10. Every slot of a generated embedding lies between 0 and 1.  The
    similarity of two generated embeddings of one dimension is defined and
    not negative, and it is 0 when one of the texts is empty.  Two texts
    that differ only in case have the same similarity to any third text.
    Any two vectors of one [generateEmbeddings] call can be compared, with a
    result that is not negative. *)
Theorem generateEmbedding_similarity (t1 t2 t3 : string) (dims : nat)
    (texts : list string) :
  (forall j v, generateEmbedding t1 dims !! j = Some v -> 0 <= v <= 1)
  /\ (exists s,
        cosineSimilarity (generateEmbedding t1 dims) (generateEmbedding t2 dims) = Ok s
        /\ 0 <= s
        /\ (t1 = EmptyString \/ t2 = EmptyString -> s = 0))
  /\ (toLowerCase t1 = toLowerCase t2 ->
      cosineSimilarity (generateEmbedding t1 dims) (generateEmbedding t3 dims)
      = cosineSimilarity (generateEmbedding t2 dims) (generateEmbedding t3 dims))
  /\ (forall u v, u ∈ generateEmbeddings texts -> v ∈ generateEmbeddings texts ->
        exists s, cosineSimilarity u v = Ok s /\ 0 <= s).
Proof.
  assert (forall a b d, exists s,
            cosineSimilarity (generateEmbedding a d) (generateEmbedding b d) = Ok s
            /\ 0 <= s) as Hdefined.
  { intros a b d.
    destruct (cosineSimilarity_ok (generateEmbedding a d) (generateEmbedding b d))
      as (s & Hs); [by rewrite !generateEmbedding_length|].
    exists s. split; [done|].
    eapply cosineSimilarity_nonneg; [| |exact Hs]; apply generateEmbedding_nonneg. }
  split; [|split; [|split]].
  - intros j v Hj. split.
    + by eapply generateEmbedding_nonneg.
    + by eapply generateEmbedding_slot_le.
  - destruct (Hdefined t1 t2 dims) as (s & Hs & Hpos).
    exists s. split; [done|]. split; [done|].
    rewrite cosineSimilarity_eq in Hs by (by rewrite !generateEmbedding_length).
    intros Hempty.
    assert (norm (generateEmbedding t1 dims) * norm (generateEmbedding t2 dims) = 0)
      as Hz.
    { assert (forall d, norm (generateEmbedding EmptyString d) = 0) as Hnorm.
      { intros d. rewrite generateEmbedding_empty. unfold norm.
        rewrite dot_replicate_zero. apply sqrt_0. }
      destruct Hempty as [-> | ->]; rewrite Hnorm; lra. }
    rewrite decide_True in Hs by done. congruence.
  - intros Hlow.
    assert (generateEmbedding t2 dims = generateEmbedding t1 dims) as ->
      by (unfold generateEmbedding; by rewrite Hlow).
    done.
  - intros u v Hu Hv. unfold generateEmbeddings in *.
    apply list_elem_of_fmap in Hu as (a & -> & _).
    apply list_elem_of_fmap in Hv as (b & -> & _).
    apply Hdefined.
Qed.

Lemma generateEmbedding_similarity_witness :
  cosineSimilarity (generateEmbedding "Async Await" 384) (generateEmbedding "await" 384)
  = cosineSimilarity (generateEmbedding "async await" 384) (generateEmbedding "await" 384).
Proof.
  destruct (generateEmbedding_similarity "Async Await" "async await" "await" 384 [])
    as (_ & _ & Hcase & _).
  apply Hcase. reflexivity.
Defined.

End SimilarityBounds.

Section FindSimilar.
Local Open Scope R_scope.

Lemma rmap_Forall2 {A B : Type} (f : A -> result B) (l : list A) : forall ys,
  rmap f l = Ok ys -> Forall2 (fun x y => f x = Ok y) l ys.
Proof.
  induction l as [|x l IH]; intros ys; cbn [rmap].
  - intros [= <-]. constructor.
  - destruct (f x) as [y|e] eqn:Hy; [|discriminate]. cbn [rbind].
    destruct (rmap f l) as [ys'|e]; [|discriminate]. cbn [rbind].
    intros [= <-]. constructor; [done | by apply IH].
Qed.

Lemma rmap_Ok_all {A B : Type} (f : A -> result B) (l : list A) :
  (forall x, x ∈ l -> exists y, f x = Ok y) -> exists ys, rmap f l = Ok ys.
Proof.
  induction l as [|x l IH]; intros Hall; cbn [rmap]; [eauto|].
  destruct (Hall x) as [y ->]; [left|]. cbn [rbind].
  destruct IH as [ys ->]; [intros x' Hx'; apply Hall; by right|].
  cbn [rbind]. eauto.
Qed.

Lemma rmap_Err_one {A B : Type} (f : A -> result B) (l : list A) (x : A) (e : error) :
  x ∈ l -> f x = Err e -> (forall x' e', f x' = Err e' -> e' = e) -> rmap f l = Err e.
Proof.
  intros Hx Hfx Hone. induction l as [|z l IH]; [by apply elem_of_nil in Hx|].
  cbn [rmap]. destruct (f z) as [y|e'] eqn:Hz; cbn [rbind].
  - apply elem_of_cons in Hx as [->|Hx]; [congruence|].
    rewrite (IH Hx). done.
  - f_equal. by eapply Hone.
Qed.

Lemma by_similarity_asym (x y : string * R) :
  by_similarity x y = true -> by_similarity y x = false.
Proof.
  unfold by_similarity. rewrite bool_decide_eq_true, bool_decide_eq_false. lra.
Qed.

Lemma by_similarity_order (x y : string * R) :
  in_order by_similarity x y <-> y.2 <= x.2.
Proof. unfold in_order, by_similarity. rewrite bool_decide_eq_false. lra. Qed.

Lemma sort_by_similarity_sorted (l : list (string * R)) :
  StronglySorted (fun x y => y.2 <= x.2) (sort_by by_similarity l).
Proof.
  apply Sorted_StronglySorted; [intros x y z ? ?; lra|].
  eapply Sorted_ind with (P := Sorted (fun x y : string * R => y.2 <= x.2));
    [constructor | | apply (sort_by_sorted _ by_similarity_asym)].
  intros a l' _ IH Hhd. constructor; [done|].
  destruct Hhd; constructor. by apply by_similarity_order.
Qed.

Lemma fill_embedding_fields (c : Candidate) :
  c_id (fill_embedding c) = c_id c
  /\ c_text (fill_embedding c) = c_text c
  /\ c_embedding (fill_embedding c)
     = Some (default (generateEmbedding (c_text c) default_dims) (c_embedding c)).
Proof.
  unfold fill_embedding. destruct (c_embedding c) eqn:He; cbn [c_id c_text c_embedding from_option Datatypes.id].
  - by rewrite He.
  - done.
Qed.

(** X11. [findSimilar] leaves every candidate with an embedding: the one it
    had, or the one generated from its text.  It throws the length error
    when a candidate came with an embedding whose length is not 384.
    Otherwise it returns pairs of a candidate's id and its similarity to the
    query, in descending order of similarity:
    [topK] of them (10 when [topK] is absent), or all when there are fewer;
    none for [topK] 0; all but the last [-topK] for a negative [topK]. *)
Theorem findSimilar_spec (query : string) (candidates : list Candidate) (topK : option Z) :
  let after := (findSimilar query candidates topK).1 in
  let res := (findSimilar query candidates topK).2 in
  let q := generateEmbedding query default_dims in
  let k := default 10%Z topK in
  (forall i c, candidates !! i = Some c ->
     exists c', after !! i = Some c' /\ c_id c' = c_id c /\ c_text c' = c_text c
       /\ c_embedding c'
          = Some (default (generateEmbedding (c_text c) default_dims) (c_embedding c)))
  /\ length after = length candidates
  /\ ((exists c e, c ∈ candidates /\ c_embedding c = Some e /\ length e <> default_dims) ->
      res = Err VectorsLength)
  /\ ((forall c e, c ∈ candidates -> c_embedding c = Some e -> length e = default_dims) ->
      exists out, res = Ok out
        /\ ((0 <= k)%Z -> length out = Nat.min (Z.to_nat k) (length candidates))
        /\ ((k < 0)%Z -> length out = (length candidates - Z.to_nat (- k))%nat)
        /\ (forall (i j : nat) x y, (i < j)%nat ->
              out !! i = Some x -> out !! j = Some y -> y.2 <= x.2)
        /\ (forall x, x ∈ out ->
              exists c e, c ∈ after /\ c_embedding c = Some e /\ x.1 = c_id c
                /\ cosineSimilarity q e = Ok x.2)
        /\ out.*1 ⊆+ c_id <$> candidates).
Proof.
  intros after res q k. subst after res. unfold findSimilar. cbn [fst snd].
  fold q. fold k.
  set (f := fun c : Candidate =>
              s <-! cosineSimilarity q (default [] (c_embedding c)) ;; Ok (c_id c, s)).
  assert (forall c y, f c = Ok y ->
            y.1 = c_id c /\ cosineSimilarity q (default [] (c_embedding c)) = Ok y.2)
    as Hf.
  { intros c y. unfold f. destruct (cosineSimilarity q _) as [s|e]; [|discriminate].
    cbn [rbind]. by intros [= <-]. }
  split; [|split; [|split]].
  - intros i c Hi. exists (fill_embedding c).
    rewrite list_lookup_fmap, Hi. split; [done|]. apply fill_embedding_fields.
  - apply length_fmap.
  - intros (c & e & Hc & He & Hlen).
    rewrite (rmap_Err_one f (fill_embedding <$> candidates) (fill_embedding c) VectorsLength);
      [done | | |].
    + apply list_elem_of_fmap. eauto.
    + destruct (fill_embedding_fields c) as (_ & _ & Hemb).
      unfold f. rewrite Hemb, He. cbn [from_option Datatypes.id].
      unfold cosineSimilarity.
      assert ((length q =? length e)%nat = false) as ->; [|done].
      apply Nat.eqb_neq. unfold q. rewrite generateEmbedding_length. congruence.
    + intros c' e'. unfold f, cosineSimilarity.
      destruct (negb _); [cbn [rbind]; congruence|].
      destruct (foldl _ _ _) as [[d na] nb]. by case_decide.
  - intros Hall.
    assert (forall c, c ∈ fill_embedding <$> candidates ->
              exists e, c_embedding c = Some e /\ length e = default_dims) as Hfilled.
    { intros c' (c & -> & Hc)%list_elem_of_fmap.
      destruct (fill_embedding_fields c) as (_ & _ & ->).
      eexists. split; [done|].
      destruct (c_embedding c) as [e|] eqn:He; cbn [from_option Datatypes.id].
      - by eapply Hall.
      - apply generateEmbedding_length. }
    destruct (rmap_Ok_all f (fill_embedding <$> candidates)) as [scored Hscored].
    { intros c Hc. destruct (Hfilled c Hc) as (e & He & Hlen).
      unfold f. rewrite He. cbn [from_option Datatypes.id].
      destruct (cosineSimilarity_ok q e) as [s ->];
        [unfold q; rewrite generateEmbedding_length; congruence|].
      cbn [rbind]. eauto. }
    rewrite Hscored. cbn [rbind].
    exists (slice0 k (sort_by by_similarity scored)). split; [done|].
    pose proof (rmap_Forall2 f _ _ Hscored) as Hrel.
    assert (length scored = length candidates) as Hlen
      by (rewrite <- (Forall2_length _ _ _ Hrel); apply length_fmap).
    split; [|split; [|split; [|split]]].
    + intros Hk. rewrite slice0_nonneg by done.
      rewrite length_take, sort_by_length, Hlen. done.
    + intros Hk. unfold slice0. rewrite (proj2 (Z.ltb_lt k 0)) by done.
      rewrite length_take, sort_by_length, Hlen. lia.
    + intros i j x y Hij.
      destruct (slice0_take k (sort_by by_similarity scored)) as [n ->].
      intros [Hi _]%lookup_take_Some [Hj _]%lookup_take_Some.
      exact (StronglySorted_lookup _ _ (sort_by_similarity_sorted scored) i j x y Hij Hi Hj).
    + intros x Hx.
      destruct (slice0_take k (sort_by by_similarity scored)) as [n Hn].
      rewrite Hn in Hx. apply elem_of_take in Hx as (i & Hx & _).
      apply list_elem_of_lookup_2 in Hx. rewrite sort_by_perm in Hx.
      apply list_elem_of_lookup_1 in Hx as [m Hm].
      destruct (Forall2_lookup_r _ _ _ _ _ Hrel Hm) as (c & Hc & Hfc).
      apply list_elem_of_lookup_2 in Hc.
      destruct (Hfilled c Hc) as (e & He & Hle).
      destruct (Hf c x Hfc) as [Hid Hcos]. rewrite He in Hcos. cbn [from_option Datatypes.id] in Hcos.
      exists c, e. by repeat split.
    + assert (scored.*1 = c_id <$> candidates) as <-.
      { clear -Hrel Hf. revert scored Hrel.
        induction candidates as [|c cs IH]; intros scored Hrel.
        - by apply Forall2_nil_inv_l in Hrel as ->.
        - rewrite fmap_cons in Hrel.
          apply Forall2_cons_inv_l in Hrel as (y & ys & Hy & Hys & ->).
          rewrite !fmap_cons. f_equal; [|by apply IH].
          destruct (Hf _ _ Hy) as [-> _]. apply fill_embedding_fields. }
      destruct (slice0_take k (sort_by by_similarity scored)) as [n ->].
      rewrite fmap_take. etrans; [apply submseteq_take|].
      by rewrite sort_by_perm.
Qed.

Lemma findSimilar_spec_witness :
  (findSimilar "query" [mkCandidate "a" "text" (Some [])] None).2 = Err VectorsLength
  /\ exists out, (findSimilar "query" [mkCandidate "a" "text" None] (Some 0%Z)).2 = Ok out
       /\ length out = 0%nat.
Proof.
  split.
  - apply (findSimilar_spec "query" [mkCandidate "a" "text" (Some [])] None).
    exists (mkCandidate "a" "text" (Some [])), [].
    split; [by apply list_elem_of_singleton|]. split; [done|]. discriminate.
  - destruct (findSimilar_spec "query" [mkCandidate "a" "text" None] (Some 0%Z))
      as (_ & _ & _ & Hok).
    destruct Hok as (out & Hout & Hlen & _).
    + intros c e Hc He. apply list_elem_of_singleton in Hc. subst c. discriminate.
    + exists out. split; [exact Hout|]. apply Hlen. reflexivity.
Defined.

End FindSimilar.

(** * Further properties: the history of the table *)

Section StoreHistory.
Variable config : Config.
Variable binding : NumberBinding.

Lemma same_identity_refl (r : BeliefRow) : same_identity r r.
Proof. by repeat split. Qed.

Lemma same_identity_trans (r1 r2 r3 : BeliefRow) :
  same_identity r1 r2 -> same_identity r2 r3 -> same_identity r1 r3.
Proof. unfold same_identity. intros (? & ? & ? & ?) (? & ? & ? & ?). repeat split; congruence. Qed.

Lemma exec_same_identity (db : list BeliefRow) (op : Op) (k : nat) (r : BeliefRow) :
  db !! k = Some r ->
  exists r' : BeliefRow, exec config binding db op !! k = Some r' /\ same_identity r r'.
Proof.
  intros Hk.
  destruct op as [newid b|i changes|now i reason|i|i|ids delta|now]; cbn [exec].
  - exists r. split; [|apply same_identity_refl].
    destruct (create db newid b) as [[db' full]|e] eqn:Hc; [|done].
    unfold create in Hc. case_decide; [discriminate|]. injection Hc as <- _.
    by apply lookup_app_l_Some.
  - rewrite update_lookup, Hk. simpl. eexists. split; [done|].
    case_decide; [|apply same_identity_refl]. by rewrite apply_changes_normal.
  - rewrite invalidate_lookup, Hk. simpl. eexists. split; [done|].
    case_decide; [done | apply same_identity_refl].
  - unfold incrementContradicting.
    rewrite (sql_update_lookup (fun r => id r = i)), Hk. simpl.
    eexists. split; [done|]. case_decide; [done | apply same_identity_refl].
  - unfold incrementSupporting.
    rewrite (sql_update_lookup (fun r => id r = i)), Hk. simpl.
    eexists. split; [done|]. case_decide; [done | apply same_identity_refl].
  - rewrite adjustConfidence_lookup, Hk. simpl.
    eexists. split; [done|]. case_decide; [done | apply same_identity_refl].
  - rewrite decay_lookup, Hk. simpl.
    eexists. split; [done|]. case_decide; [done | apply same_identity_refl].
Qed.

Lemma lookup_fmap_length {A : Type} (f : A -> A) (l l' : list A) :
  (forall k, l' !! k = f <$> l !! k) -> length l' = length l.
Proof.
  intros H. assert (l' = f <$> l) as ->
    by (apply list_eq; intros k; by rewrite H, list_lookup_fmap).
  apply length_fmap.
Qed.

Lemma exec_length (db : list BeliefRow) (op : Op) :
  length db <= length (exec config binding db op)
  <= length db + (if is_create op then 1 else 0).
Proof.
  destruct op as [newid b|i changes|now i reason|i|i|ids delta|now]; cbn [exec is_create].
  - unfold create. case_decide; [lia|]. rewrite length_app. simpl. lia.
  - rewrite (lookup_fmap_length _ _ _ (update_lookup db i changes)). lia.
  - rewrite (lookup_fmap_length _ _ _ (invalidate_lookup db now i reason)). lia.
  - unfold incrementContradicting. rewrite sql_update_length. lia.
  - unfold incrementSupporting. rewrite sql_update_length. lia.
  - rewrite (lookup_fmap_length _ _ _ (adjustConfidence_lookup config db ids delta)). lia.
  - rewrite (lookup_fmap_length _ _ _ (decay_lookup config binding db now)). lia.
Qed.

Lemma history_rows (ops : list Op) : forall (db : list BeliefRow) k (r : BeliefRow),
  db !! k = Some r ->
  exists r' : BeliefRow,
    foldl (exec config binding) db ops !! k = Some r' /\ same_identity r r'.
Proof.
  induction ops as [|op ops IH]; intros db k r Hk; cbn [foldl].
  - exists r. split; [done | apply same_identity_refl].
  - destruct (exec_same_identity db op k r Hk) as (r1 & Hk1 & H1).
    destruct (IH _ k r1 Hk1) as (r' & Hk' & H').
    exists r'. split; [done | by eapply same_identity_trans].
Qed.

Lemma history_length (ops : list Op) : forall db : list BeliefRow,
  length db <= length (foldl (exec config binding) db ops)
  <= length db + length (filter is_create ops).
Proof.
  induction ops as [|op ops IH]; intros db; cbn [foldl].
  - simpl. lia.
  - pose proof (exec_length db op) as H1.
    pose proof (IH (exec config binding db op)) as H2.
    rewrite filter_cons. destruct (is_create op); simpl in *; lia.
Qed.

Lemma row_of_is_Some (db : list BeliefRow) (i : string) :
  is_Some (row_of db i) <-> i ∈ id <$> db.
Proof.
  unfold row_of. rewrite list_elem_of_fmap. split.
  - intros [r Hr]. exists r.
    assert (r ∈ filter (fun r => id r = i) db) as Hin
      by (destruct (filter _ db); simplify_eq/=; left).
    apply list_elem_of_filter in Hin as [-> Hin]. done.
  - intros (r & -> & Hin).
    assert (r ∈ filter (fun r' => id r' = id r) db) as Hf by (by apply list_elem_of_filter).
    destruct (filter _ db); [by apply elem_of_nil in Hf | by eexists].
Qed.

(** X12. What no sequence of writes does: it removes no row and moves none;
    it leaves the [id], [domain], [derived_at] and [supersedes_id] of every
    row as they are; the table grows by at most one row per [create]; so the
    identifiers of the table stay, in place, a prefix of the later
    identifiers, and an identifier that [getById] finds is found ever after. *)
Theorem writes_keep_rows (ops : list Op) (db : list BeliefRow) :
  let db' := foldl (exec config binding) db ops in
  (forall k (r : BeliefRow), db !! k = Some r ->
     exists r' : BeliefRow, db' !! k = Some r' /\ same_identity r r')
  /\ (length db <= length db' <= length db + length (filter is_create ops))%nat
  /\ (id <$> db) `prefix_of` (id <$> db')
  /\ (forall i, is_Some (getById db i) -> is_Some (getById db' i)).
Proof.
  intros db'.
  assert (forall k (r : BeliefRow), db !! k = Some r ->
            exists r' : BeliefRow, db' !! k = Some r' /\ same_identity r r') as Hrows
    by apply history_rows.
  assert ((id <$> db) `prefix_of` (id <$> db')) as Hprefix.
  { exists (drop (length db) (id <$> db')).
    rewrite <- (take_drop (length db) (id <$> db')) at 1. f_equal.
    apply list_eq. intros k. destruct (db !! k) as [r|] eqn:Hk.
    - destruct (Hrows k r Hk) as (r' & Hk' & Hid & _).
      rewrite (list_lookup_fmap id db), Hk. simpl.
      apply lookup_take_Some. split.
      + rewrite list_lookup_fmap, Hk'. simpl. by rewrite Hid.
      + by apply lookup_lt_Some in Hk.
    - rewrite (list_lookup_fmap id db), Hk. simpl.
      apply lookup_ge_None. rewrite length_take, length_fmap.
      apply lookup_ge_None in Hk. lia. }
  split; [done|]. split; [apply history_length|]. split; [done|].
  intros i. unfold getById. rewrite !fmap_is_Some.
  fold (row_of db i). fold (row_of db' i). rewrite !row_of_is_Some.
  intros Hin. destruct Hprefix as [rest ->]. apply elem_of_app. by left.
Qed.

End StoreHistory.

Lemma writes_keep_rows_witness :
  is_Some (getById (foldl (exec DEFAULT_CONFIG AsInteger) two_rows
                      [OpInvalidate 9 "b1" "stale"; OpIncrementSupporting "b1"]) "b1").
Proof.
  apply (writes_keep_rows DEFAULT_CONFIG AsInteger
           [OpInvalidate 9 "b1" "stale"; OpIncrementSupporting "b1"] two_rows).
  eexists. reflexivity.
Defined.

(** * Further properties of the searches *)

Section SearchReads.
Local Open Scope R_scope.
Variable fts5 : list BeliefRow -> string -> result (BeliefRow -> option R).

Lemma Sorted_Forall_impl {A : Type} (R1 R2 : A -> A -> Prop) (P : A -> Prop) (l : list A) :
  (forall x y, P x -> P y -> R1 x y -> R2 x y) ->
  Forall P l -> Sorted R1 l -> Sorted R2 l.
Proof.
  intros Himp Hall Hs. induction Hs as [|x l Hl IH Hhd]; [constructor|].
  apply Forall_cons in Hall as [Hx Hall]. constructor; [by apply IH|].
  destruct Hhd as [|y l' Hxy]; constructor.
  apply Forall_cons in Hall as [Hy _]. by apply Himp.
Qed.

Lemma by_rank_asym (rank : BeliefRow -> option R) (x y : BeliefRow) :
  by_rank rank x y = true -> by_rank rank y x = false.
Proof.
  unfold by_rank. destruct (rank x), (rank y); try done.
  rewrite bool_decide_eq_true, bool_decide_eq_false. lra.
Qed.

Lemma rank_le_trans (rank : BeliefRow -> option R) (x y z : BeliefRow) :
  rank_le rank x y -> rank_le rank y z -> rank_le rank x z.
Proof.
  intros (a & b & Ha & Hb & Hab) (b' & c & Hb' & Hc & Hbc).
  exists a, c. rewrite Hb in Hb'. injection Hb' as <-.
  split; [done|]. split; [done | lra].
Qed.

Lemma keyword_rows (db : list BeliefRow) (options : SearchOptions)
    (rank : BeliefRow -> option R) :
  (let q0 := filter (fun r => is_Some (rank r)) db in
   let q1 :=
     if decide (activeOnly options = Some false) then q0
     else filter (fun r => invalidated_at r = None) q0 in
   let q2 :=
     match truthyR (minConfidence options) with
     | Some m => filter (fun r => m <= confidence r) q1
     | None => q1
     end in
   match o_domain options with
   | Some d => filter (fun r => domain r = d) q2
   | None => q2
   end)
  = filter (keyword_hit rank options) db.
Proof.
  cbv zeta.
  destruct (decide (activeOnly options = Some false)) as [Hao|Hao],
    (truthyR (minConfidence options)) as [m|] eqn:Hm,
    (o_domain options) as [d|] eqn:Hd;
    rewrite ?list_filter_filter; apply filter_iff_in; intros r _;
    unfold keyword_hit, passes; rewrite Hm, Hd; tauto.
Qed.

Lemma searchKeyword_rows (db : list BeliefRow) (query : string) (options : SearchOptions)
    (rank : BeliefRow -> option R) :
  fts5 db query = Ok rank ->
  searchKeyword fts5 db query options
  = Ok (rowToBelief <$>
          match truthyZ (limit options) with
          | Some n => sql_limit n (sort_by (by_rank rank) (filter (keyword_hit rank options) db))
          | None => sort_by (by_rank rank) (filter (keyword_hit rank options) db)
          end).
Proof.
  intros Hrank. unfold searchKeyword. rewrite Hrank. cbn [rbind].
  pose proof (keyword_rows db options rank) as Hrows. cbv zeta in Hrows |- *.
  rewrite Hrows. by rewrite (map_fmap rowToBelief).
Qed.

Lemma keyword_rows_sorted (db : list BeliefRow) (options : SearchOptions)
    (rank : BeliefRow -> option R) :
  StronglySorted (rank_le rank)
    (sort_by (by_rank rank) (filter (keyword_hit rank options) db)).
Proof.
  apply Sorted_StronglySorted; [intros x y z; apply rank_le_trans|].
  apply (Sorted_Forall_impl (in_order (by_rank rank)) _ (fun r => is_Some (rank r))).
  - intros x y [rx Hx] [ry Hy]. unfold in_order, by_rank, rank_le.
    rewrite Hx, Hy, bool_decide_eq_false. intros Hle.
    exists rx, ry. split; [done|]. split; [done | lra].
  - apply Forall_forall. intros r. rewrite sort_by_perm, list_elem_of_filter.
    by intros [[Hr _] _].
  - apply sort_by_sorted, by_rank_asym.
Qed.

(** X13. [searchKeyword] throws what the FTS engine throws.  Otherwise,
    without a limit, it returns the rows that match, that are active unless
    [activeOnly] is [false], and that pass the [minConfidence] and [domain]
    filters, each once, best rank first; a positive limit [n] gives the first
    [n] of them and a negative limit gives all. *)
Theorem searchKeyword_spec (db : list BeliefRow) (query : string) (options : SearchOptions) :
  (forall e, fts5 db query = Err e -> searchKeyword fts5 db query options = Err e)
  /\ (forall rank, fts5 db query = Ok rank ->
        exists rows : list BeliefRow,
          searchKeyword fts5 db query (with_limit None options)
          = Ok (rowToBelief <$> rows)
          /\ rows ≡ₚ filter (keyword_hit rank options) db
          /\ (forall (i j : nat) (x y : BeliefRow), (i < j)%nat ->
                rows !! i = Some x -> rows !! j = Some y -> rank_le rank x y)
          /\ (forall n, (0 < n)%Z ->
                searchKeyword fts5 db query (with_limit (Some n) options)
                = Ok (take (Z.to_nat n) (rowToBelief <$> rows)))
          /\ (forall n, (n < 0)%Z ->
                searchKeyword fts5 db query (with_limit (Some n) options)
                = Ok (rowToBelief <$> rows))).
Proof.
  split.
  - intros e He. unfold searchKeyword. by rewrite He.
  - intros rank Hrank.
    exists (sort_by (by_rank rank) (filter (keyword_hit rank options) db)).
    split; [|split; [|split; [|split]]].
    + by rewrite (searchKeyword_rows _ _ _ rank Hrank).
    + apply sort_by_perm.
    + intros i j x y Hij Hi Hj.
      exact (StronglySorted_lookup _ _ (keyword_rows_sorted db options rank)
               i j x y Hij Hi Hj).
    + intros n Hn. rewrite (searchKeyword_rows _ _ _ rank Hrank).
      cbn [limit with_limit truthyZ]. rewrite decide_False by lia.
      rewrite sql_limit_pos by lia. by rewrite fmap_take.
    + intros n Hn. rewrite (searchKeyword_rows _ _ _ rank Hrank).
      cbn [limit with_limit truthyZ]. rewrite decide_False by lia.
      unfold sql_limit. by rewrite (proj2 (Z.ltb_lt n 0)).
Qed.

Lemma searchKeyword_elem (db : list BeliefRow) (query : string) (options : SearchOptions)
    (kw : list Belief) (b : Belief) :
  searchKeyword fts5 db query options = Ok kw -> b ∈ kw ->
  exists rank (r : BeliefRow),
    fts5 db query = Ok rank /\ r ∈ db /\ keyword_hit rank options r /\ b = rowToBelief r.
Proof.
  destruct (fts5 db query) as [rank|e] eqn:Hrank.
  - rewrite (searchKeyword_rows _ _ _ rank Hrank). intros [= <-] Hb.
    apply list_elem_of_fmap in Hb as (r & -> & Hr).
    destruct (limited_prefix (limit options)
                (sort_by (by_rank rank) (filter (keyword_hit rank options) db)))
      as [n Hn].
    rewrite Hn in Hr. apply elem_of_take in Hr as (k & Hr & _).
    apply list_elem_of_lookup_2 in Hr. rewrite sort_by_perm in Hr.
    apply list_elem_of_filter in Hr as [Hhit Hin]. by exists rank, r.
  - unfold searchKeyword. rewrite Hrank. discriminate.
Qed.

End SearchReads.

Lemma searchKeyword_spec_witness :
  exists rows : list BeliefRow,
    searchKeyword fts_all two_rows "async" (with_limit None no_options)
    = Ok (rowToBelief <$> rows)
    /\ rows ≡ₚ filter (keyword_hit (fun _ => Some 0%R) no_options) two_rows.
Proof.
  destruct (searchKeyword_spec fts_all two_rows "async" no_options) as [_ Hok].
  destruct (Hok (fun _ => Some 0%R) eq_refl) as (rows & Hrows & Hperm & _).
  exists rows. split; [exact Hrows | exact Hperm].
Defined.

Section SemanticReads.
Local Open Scope R_scope.

Lemma active_rows (db : list BeliefRow) (options : SearchOptions) :
  active_sorted db options
  = sort_by by_importance_confidence
      (filter (fun r => invalidated_at r = None /\ passes options r) db).
Proof.
  unfold active_sorted. cbv zeta. f_equal.
  destruct (truthyR (minConfidence options)) as [m|] eqn:Hm,
    (o_domain options) as [d|] eqn:Hd;
    rewrite ?list_filter_filter; apply filter_iff_in; intros r _;
    unfold passes; rewrite Hm, Hd; tauto.
Qed.

Lemma semantic_pairs (l : list BeliefRow) :
  omap (fun b : Belief => pair b <$> embedding b) (map rowToBelief l)
  = (fun r => (rowToBelief r, default [] (embedding r)))
      <$> filter (fun r => is_Some (embedding r)) l.
Proof.
  induction l as [|r l IH]; [done|].
  rewrite filter_cons. cbn [map omap list_omap]. rewrite IH.
  cbn [embedding rowToBelief].
  destruct (embedding r) as [e|] eqn:He.
  - rewrite decide_True by (by eexists). rewrite fmap_cons.
    cbn [fmap option_fmap option_map from_option Datatypes.id]. by rewrite He.
  - rewrite decide_False by (by intros [? ?]). done.
Qed.

Lemma semantic_rows_elem (db : list BeliefRow) (options : SearchOptions) (r : BeliefRow) :
  r ∈ filter (fun r => is_Some (embedding r)) (active_sorted db options)
  <-> r ∈ db /\ semantic_candidate options r.
Proof.
  rewrite active_rows, list_elem_of_filter, sort_by_perm, list_elem_of_filter.
  unfold semantic_candidate. tauto.
Qed.

Lemma semantic_rows_length (db : list BeliefRow) (options : SearchOptions) :
  length (filter (fun r => is_Some (embedding r)) (active_sorted db options))
  = length (filter (semantic_candidate options) db).
Proof.
  rewrite active_rows, sort_by_perm, list_filter_filter. f_equal.
  apply filter_iff_in. intros r _. unfold semantic_candidate. tauto.
Qed.

Lemma searchSemantic_rows (db : list BeliefRow) (query : string) (options : SearchOptions) :
  searchSemantic db query options
  = (scored <-! rmap (fun be : Belief * list R =>
                        s <-! cosineSimilarity (generateEmbedding query default_dims) be.2 ;;
                        Ok (mkResult be.1 s semantic))
                  ((fun r => (rowToBelief r, default [] (embedding r)))
                     <$> filter (fun r => is_Some (embedding r)) (active_sorted db options)) ;;
     Ok (slice0 (effective_limit options) (sort_by by_score scored))).
Proof.
  unfold searchSemantic. cbv zeta. rewrite getActive_unfold.
  cbn [limit with_limit truthyZ]. rewrite active_sorted_limit, semantic_pairs. done.
Qed.

Lemma searchSemantic_elem (db : list BeliefRow) (query : string) (options : SearchOptions)
    (res : list BeliefSearchResult) (x : BeliefSearchResult) :
  searchSemantic db query options = Ok res -> x ∈ res ->
  matchType x = semantic
  /\ exists (r : BeliefRow) (e : list R),
       r ∈ db /\ semantic_candidate options r /\ belief x = rowToBelief r
       /\ embedding r = Some e
       /\ cosineSimilarity (generateEmbedding query default_dims) e = Ok (score x).
Proof.
  rewrite searchSemantic_rows.
  destruct (rmap _ _) as [scored|err] eqn:Hscored; [|discriminate]. cbn [rbind].
  intros [= <-] Hx.
  destruct (slice0_take (effective_limit options) (sort_by by_score scored)) as [n Hn].
  rewrite Hn in Hx. apply elem_of_take in Hx as (k & Hx & _).
  apply list_elem_of_lookup_2 in Hx. rewrite sort_by_perm in Hx.
  apply list_elem_of_lookup_1 in Hx as [m Hm].
  destruct (Forall2_lookup_r _ _ _ _ _ (rmap_Forall2 _ _ _ Hscored) Hm)
    as (be & Hbe & Hfx).
  apply list_elem_of_lookup_2, list_elem_of_fmap in Hbe as (r & -> & Hr).
  apply semantic_rows_elem in Hr as [Hin Hcand].
  cbn [fst snd] in Hfx.
  destruct (cosineSimilarity _ _) as [s|err] eqn:Hcos; [|discriminate].
  cbn [rbind] in Hfx. injection Hfx as <-. cbn [matchType belief score].
  split; [done|].
  destruct Hcand as (Hact & Hpass & [e He]).
  exists r, e. rewrite He in Hcos. cbn [from_option Datatypes.id] in Hcos.
  split; [done|]. split; [unfold semantic_candidate; rewrite He; eauto|].
  split; [done|]. split; [done|]. done.
Qed.

(** X14. [searchSemantic] scores the active rows that pass the
    [minConfidence] and [domain] filters and have an embedding, whatever
    [activeOnly] says.  It throws the length error when one of them has an
    embedding whose length is not 384.  Otherwise every result is tagged
    semantic, is one of those rows and carries its similarity to the query;
    the results are in descending order of score and there are as many as
    the effective limit allows. *)
Theorem searchSemantic_spec (db : list BeliefRow) (query : string) (options : SearchOptions) :
  let q := generateEmbedding query default_dims in
  ((exists (r : BeliefRow) (e : list R),
      r ∈ db /\ semantic_candidate options r /\ embedding r = Some e
      /\ length e <> default_dims) ->
   searchSemantic db query options = Err VectorsLength)
  /\ ((forall (r : BeliefRow) (e : list R),
         r ∈ db -> semantic_candidate options r -> embedding r = Some e ->
         length e = default_dims) ->
      exists res, searchSemantic db query options = Ok res
        /\ (forall x, x ∈ res ->
              matchType x = semantic
              /\ exists (r : BeliefRow) (e : list R),
                   r ∈ db /\ semantic_candidate options r /\ belief x = rowToBelief r
                   /\ embedding r = Some e /\ cosineSimilarity q e = Ok (score x))
        /\ (forall (i j : nat) x y, (i < j)%nat ->
              res !! i = Some x -> res !! j = Some y -> score y <= score x)
        /\ ((0 <= effective_limit options)%Z ->
            length res = Nat.min (Z.to_nat (effective_limit options))
                           (length (filter (semantic_candidate options) db))))
  /\ (forall ao, searchSemantic db query (with_activeOnly ao options)
                 = searchSemantic db query options).
Proof.
  intros q. split; [|split].
  - intros (r & e & Hin & Hcand & He & Hlen). rewrite searchSemantic_rows.
    rewrite (rmap_Err_one _ _ (rowToBelief r, e) VectorsLength); [done| | |].
    + apply list_elem_of_fmap. exists r. split; [by rewrite He|].
      by apply semantic_rows_elem.
    + cbn [snd]. unfold cosineSimilarity.
      assert ((length (generateEmbedding query default_dims) =? length e)%nat = false)
        as ->; [|done].
      apply Nat.eqb_neq. rewrite generateEmbedding_length. congruence.
    + intros be err. unfold cosineSimilarity.
      destruct (negb _); [cbn [rbind]; congruence|].
      destruct (foldl _ _ _) as [[d na] nb]. by case_decide.
  - intros Hall.
    destruct (rmap_Ok_all
                (fun be : Belief * list R =>
                   s <-! cosineSimilarity (generateEmbedding query default_dims) be.2 ;;
                   Ok (mkResult be.1 s semantic))
                ((fun r => (rowToBelief r, default [] (embedding r)))
                   <$> filter (fun r => is_Some (embedding r)) (active_sorted db options)))
      as [scored Hscored].
    { intros be (r & -> & Hr)%list_elem_of_fmap.
      apply semantic_rows_elem in Hr as [Hin Hcand].
      pose proof Hcand as (_ & _ & [e He]). rewrite He. cbn [snd from_option Datatypes.id].
      destruct (cosineSimilarity_ok (generateEmbedding query default_dims) e) as [s ->].
      - rewrite generateEmbedding_length. symmetry. by eapply Hall.
      - cbn [rbind]. eauto. }
    exists (slice0 (effective_limit options) (sort_by by_score scored)).
    assert (searchSemantic db query options
            = Ok (slice0 (effective_limit options) (sort_by by_score scored))) as Hres
      by (by rewrite searchSemantic_rows, Hscored).
    split; [done|]. split; [|split].
    + intros x Hx. by eapply searchSemantic_elem.
    + intros i j x y Hij. by eapply searchSemantic_sorted.
    + intros Hk. rewrite slice0_nonneg by done.
      rewrite length_take, sort_by_length.
      rewrite <- (Forall2_length _ _ _ (rmap_Forall2 _ _ _ Hscored)).
      by rewrite length_fmap, semantic_rows_length.
  - done.
Qed.

Lemma searchSemantic_spec_witness :
  searchSemantic [set_embedding (Some [1]) (sample_row "b1" 0.7 0 None)] "async" no_options
  = Err VectorsLength
  /\ exists res, searchSemantic [stored_row] "async" no_options = Ok res
       /\ length res = Nat.min (Z.to_nat (effective_limit no_options))
                         (length (filter (semantic_candidate no_options) [stored_row])).
Proof.
  split.
  - apply (searchSemantic_spec [set_embedding (Some [1]) (sample_row "b1" 0.7 0 None)]
             "async" no_options).
    exists (set_embedding (Some [1]) (sample_row "b1" 0.7 0 None)), [1].
    split; [by left|]. split; [|split; [reflexivity | discriminate]].
    split; [reflexivity|]. split; [by split | by eexists].
  - destruct (searchSemantic_spec [stored_row] "async" no_options) as (_ & Hok & _).
    destruct Hok as (res & Hres & _ & _ & Hlen).
    + intros r e Hr _ He. apply list_elem_of_singleton in Hr. subst r.
      injection He as <-. apply generateEmbedding_length.
    + exists res. split; [exact Hres|]. apply Hlen. unfold effective_limit. simpl. lia.
Defined.

End SemanticReads.

Section HybridReads.
Local Open Scope R_scope.
Variable fts5 : list BeliefRow -> string -> result (BeliefRow -> option R).

Lemma keywordMap_entry (kw : list Belief) (k : string) (b : Belief) (s : R) :
  js_Map (keyword_entries kw) !! k = Some (b, s) ->
  exists i : nat, kw !! i = Some b /\ id b = k /\ s = positional_score i.
Proof.
  rewrite js_Map_list_to_map. intros Hin%elem_of_list_to_map_2.
  rewrite elem_of_reverse in Hin. unfold keyword_entries in Hin.
  apply elem_of_lookup_imap in Hin as (i & b' & Heq & Hi).
  injection Heq as -> -> ->. by exists i.
Qed.

Lemma semantic_step_from (kw : list Belief) (sem : list BeliefSearchResult)
    (st : gset string * list BeliefSearchResult) (y : BeliefSearchResult) :
  y ∈ sem -> matchType y = semantic ->
  Forall (merged_from kw sem) st.2 ->
  Forall (merged_from kw sem) (semantic_step (js_Map (keyword_entries kw)) st y).2.
Proof.
  intros Hy Hty Hst. destruct st as [seen combined]. unfold semantic_step.
  case_decide; [done|]. cbn [snd] in *.
  apply Forall_app. split; [done|]. apply Forall_singleton.
  destruct (js_Map (keyword_entries kw) !! id (belief y)) as [[b s]|] eqn:Hk.
  - apply keywordMap_entry in Hk as (i & Hi & Hid & ->).
    unfold merged_from. cbn [matchType score belief snd]. by exists y, i, b.
  - unfold merged_from. cbn [matchType]. by destruct y; simplify_eq/=.
Qed.

Lemma keyword_step_from (kw : list Belief) (sem : list BeliefSearchResult)
    (st : gset string * list BeliefSearchResult) (b : Belief) :
  b ∈ kw ->
  Forall (merged_from kw sem) st.2 ->
  Forall (merged_from kw sem) (keyword_step st b).2.
Proof.
  intros Hb Hst. destruct st as [seen combined]. unfold keyword_step.
  case_decide; [done|]. cbn [snd] in *.
  apply Forall_app. split; [done|]. apply Forall_singleton.
  unfold merged_from. cbn [matchType score belief]. done.
Qed.

Lemma combined_of_from (kw : list Belief) (sem : list BeliefSearchResult) :
  (forall y, y ∈ sem -> matchType y = semantic) ->
  Forall (merged_from kw sem) (combined_of kw sem).
Proof.
  intros Hsem. unfold combined_of. fold (keyword_entries kw).
  assert (forall l st, (forall y, y ∈ l -> y ∈ sem) ->
            Forall (merged_from kw sem) st.2 ->
            Forall (merged_from kw sem)
              (foldl (semantic_step (js_Map (keyword_entries kw))) st l).2) as Hloop1.
  { induction l as [|y l IH]; intros st Hl Hst; [done|]. cbn [foldl].
    apply IH; [intros z Hz; apply Hl; by right|].
    apply semantic_step_from; [apply Hl; left | apply Hsem, Hl; left | done]. }
  assert (forall l st, (forall b, b ∈ l -> b ∈ kw) ->
            Forall (merged_from kw sem) st.2 ->
            Forall (merged_from kw sem) (foldl keyword_step st l).2) as Hloop2.
  { induction l as [|b l IH]; intros st Hl Hst; [done|]. cbn [foldl].
    apply IH; [intros z Hz; apply Hl; by right|].
    apply keyword_step_from; [apply Hl; left | done]. }
  apply Hloop2; [done|]. apply Hloop1; [done|]. constructor.
Qed.

(** X15. [searchHybrid] throws what the FTS engine throws.  Each of its
    results is read from a stored row that passes the [minConfidence] and
    [domain] filters.  A result tagged keyword scores 0.5; a result tagged
    semantic or hybrid is an active belief with an embedding, also under
    [activeOnly: false], so an invalidated belief is returned as a keyword
    result only; a semantic result scores the similarity of its embedding to
    the query and a hybrid result the mean of that similarity and the
    positional score of a keyword hit. *)
Theorem searchHybrid_provenance (db : list BeliefRow) (query : string)
    (options : SearchOptions) :
  let q := generateEmbedding query default_dims in
  (forall e, fts5 db query = Err e -> searchHybrid fts5 db query options = Err e)
  /\ (forall res x, searchHybrid fts5 db query options = Ok res -> x ∈ res ->
        (exists r : BeliefRow, r ∈ db /\ belief x = rowToBelief r /\ passes options r)
        /\ match matchType x with
           | keyword => score x = 0.5
           | semantic =>
               invalidated_at (belief x) = None
               /\ exists e : list R,
                    embedding (belief x) = Some e
                    /\ cosineSimilarity q e = Ok (score x)
           | hybrid =>
               invalidated_at (belief x) = None
               /\ exists (i : nat) (s : R) (e : list R),
                    embedding (belief x) = Some e
                    /\ cosineSimilarity q e = Ok s
                    /\ score x = (s + positional_score i) / 2
           end).
Proof.
  intros q. split.
  - intros e He. unfold searchHybrid, searchKeyword. by rewrite He.
  - intros res x Hres Hx.
    apply searchHybrid_unfold in Hres as (kw & sem & Hkw & Hsem & ->).
    destruct (slice0_take (effective_limit options)
                (sort_by by_score (combined_of kw sem))) as [n Hn].
    rewrite Hn in Hx. apply elem_of_take in Hx as (k & Hx & _).
    apply list_elem_of_lookup_2 in Hx. rewrite sort_by_perm in Hx.
    assert (forall y, y ∈ sem ->
              matchType y = semantic
              /\ invalidated_at (belief y) = None
              /\ (exists e : list R,
                    embedding (belief y) = Some e /\ cosineSimilarity q e = Ok (score y))
              /\ exists r : BeliefRow,
                   r ∈ db /\ belief y = rowToBelief r /\ passes options r) as Hfacts.
    { intros y Hy.
      destruct (searchSemantic_elem _ _ _ _ _ Hsem Hy)
        as (Hty & r & e & Hin & (Hact & Hpass & _) & Hb & He & Hcos).
      split; [done|]. split; [by rewrite Hb; cbn [invalidated_at rowToBelief]; rewrite Hact|].
      split; [|by exists r].
      exists e. split; [|done]. by rewrite Hb; cbn [embedding rowToBelief]. }
    pose proof (combined_of_from kw sem (fun y Hy => proj1 (Hfacts y Hy))) as Hfrom.
    rewrite Forall_forall in Hfrom. specialize (Hfrom x Hx).
    unfold merged_from in Hfrom. destruct (matchType x) eqn:Hty.
    + destruct (Hfacts x Hfrom) as (_ & Hact & Hsim & Hrow). done.
    + destruct Hfrom as [Hscore Hb].
      destruct (searchKeyword_elem fts5 _ _ _ _ _ Hkw Hb)
        as (rank & r & _ & Hin & (_ & _ & Hpass) & Hr).
      split; [by exists r | done].
    + destruct Hfrom as (y & i & b & Hy & Hb & Hi & Hid & Hscore).
      destruct (Hfacts y Hy) as (_ & Hact & (e & He & Hcos) & r & Hin & Hr & Hpass).
      split; [exists r; by rewrite Hb|].
      split; [by rewrite Hb|]. exists i, (score y), e. by rewrite Hb.
Qed.

End HybridReads.

Lemma searchHybrid_provenance_witness :
  exists x : BeliefSearchResult,
    matchType x = hybrid
    /\ invalidated_at (belief x) = None
    /\ exists (i : nat) (s : R) (e : list R),
         embedding (belief x) = Some e
         /\ cosineSimilarity (generateEmbedding "async" default_dims) e = Ok s
         /\ score x = ((s + positional_score i) / 2)%R.
Proof.
  destruct stored_row_hybrid as (s & _ & Hres & _).
  destruct (searchHybrid_provenance fts_all [stored_row] "async"
              (with_limit (Some 0%Z) no_options)) as [_ Hok].
  destruct (Hok _ (mkResult (rowToBelief stored_row) ((s + positional_score 0) / 2)%R hybrid)
              Hres) as (_ & Hhybrid).
  - by left.
  - exists (mkResult (rowToBelief stored_row) ((s + positional_score 0) / 2)%R hybrid).
    split; [reflexivity | exact Hhybrid].
Defined.

Section IgnoredOptions.
Local Open Scope R_scope.
Variable fts5 : list BeliefRow -> string -> result (BeliefRow -> option R).

(** X16. Without a limit [getActive] returns exactly the active beliefs
    that pass the [minConfidence] and [domain] filters, each once per row.
    [getActive] reads neither [activeOnly] nor [timeRange], and no search of
    the belief store reads [timeRange]. *)
Theorem getActive_selects (db : list BeliefRow) (query : string) (options : SearchOptions) :
  getActive db (with_limit None options)
    ≡ₚ rowToBelief <$> filter (fun r => invalidated_at r = None /\ passes options r) db
  /\ (forall ao tr,
        getActive db (with_timeRange tr (with_activeOnly ao options)) = getActive db options)
  /\ (forall tr,
        searchKeyword fts5 db query (with_timeRange tr options)
        = searchKeyword fts5 db query options
        /\ searchSemantic db query (with_timeRange tr options)
           = searchSemantic db query options
        /\ searchHybrid fts5 db query (with_timeRange tr options)
           = searchHybrid fts5 db query options).
Proof.
  split; [|split].
  - rewrite getActive_unfold. cbn [limit with_limit truthyZ].
    rewrite active_sorted_limit, active_rows, (map_fmap rowToBelief).
    by rewrite sort_by_perm.
  - done.
  - done.
Qed.

End IgnoredOptions.

(** ** Zero-valued options, read by read *)

Section ZeroClaims.
Local Open Scope R_scope.
Variable fts5 : list BeliefRow -> string -> result (BeliefRow -> option R).

(** C10. A [minConfidence] of 0 is no confidence filter and a [limit] of 0
    is no limit in [getActive] and [searchKeyword]; a [limit] of 0 is the
    limit 10 in [searchSemantic] and [searchHybrid].  Each call with the zero
    equals the call with the option absent (or with the limit 10); and, read
    by read: with [minConfidence] 0, [getActive] returns the active rows of
    the domain and [searchKeyword] the matching rows of the domain, whatever
    their confidence; with [limit] 0, [getActive] and [searchKeyword] return
    every selected row in order, [searchSemantic] the ten best scored
    candidates, and [searchHybrid] what the merge steps give for the limit
    10. *)
Theorem zero_options_are_absent (db : list BeliefRow) (query : string)
    (options : SearchOptions) :
  getActive db (with_minConfidence (Some 0%R) options)
  = getActive db (with_minConfidence None options)
  /\ searchKeyword fts5 db query (with_minConfidence (Some 0%R) options)
     = searchKeyword fts5 db query (with_minConfidence None options)
  /\ getActive db (with_limit (Some 0%Z) options)
     = getActive db (with_limit None options)
  /\ getActive db (with_limit (Some 0%Z) options)
     = map rowToBelief (active_sorted db options)
  /\ searchKeyword fts5 db query (with_limit (Some 0%Z) options)
     = searchKeyword fts5 db query (with_limit None options)
  /\ searchSemantic db query (with_limit (Some 0%Z) options)
     = searchSemantic db query (with_limit (Some 10%Z) options)
  /\ searchSemantic db query (with_limit (Some 0%Z) options)
     = searchSemantic db query (with_limit None options)
  /\ searchHybrid fts5 db query (with_limit (Some 0%Z) options)
     = searchHybrid fts5 db query (with_limit (Some 10%Z) options)
  /\ searchHybrid fts5 db query (with_limit (Some 0%Z) options)
     = searchHybrid fts5 db query (with_limit None options)
  /\ getActive db (with_minConfidence (Some 0%R) options)
     = map rowToBelief
         (let rows :=
            sort_by by_importance_confidence
              (filter (selected None (o_domain options)) db) in
          match truthyZ (limit options) with
          | Some n => sql_limit n rows
          | None => rows
          end)
  /\ (forall rank : BeliefRow -> option R,
        fts5 db query = Ok rank ->
        searchKeyword fts5 db query (with_minConfidence (Some 0%R) options)
        = Ok (map rowToBelief
                (let rows :=
                   sort_by (by_rank rank)
                     (filter (fun r => is_Some (rank r)
                                       /\ selected (activeOnly options) (o_domain options) r)
                        db) in
                 match truthyZ (limit options) with
                 | Some n => sql_limit n rows
                 | None => rows
                 end))
        /\ searchKeyword fts5 db query (with_limit (Some 0%Z) options)
           = Ok (map rowToBelief
                   (sort_by (by_rank rank) (filter (keyword_hit rank options) db))))
  /\ (forall e : error,
        fts5 db query = Err e ->
        searchKeyword fts5 db query (with_minConfidence (Some 0%R) options) = Err e
        /\ searchKeyword fts5 db query (with_limit (Some 0%Z) options) = Err e)
  /\ searchSemantic db query (with_limit (Some 0%Z) options)
     = (scored <-! rmap (fun be : Belief * list R =>
                           s <-! cosineSimilarity (generateEmbedding query default_dims)
                                   be.2 ;;
                           Ok (mkResult be.1 s semantic))
                     ((fun r => (rowToBelief r, default [] (embedding r)))
                        <$> filter (fun r => is_Some (embedding r))
                              (active_sorted db options)) ;;
        Ok (take 10 (sort_by by_score scored)))
  /\ (NoDup (id <$> db) ->
      searchHybrid fts5 db query (with_limit (Some 0%Z) options)
      = hybrid_steps fts5 db query options 10).
Proof.
  split; [|split; [|split; [|split; [|split; [|split; [|split; [|split; [|split;
    [|split; [|split; [|split; [|split]]]]]]]]]]]]; try reflexivity.
  - unfold getActive, with_minConfidence. cbn [minConfidence].
    by rewrite truthyR_zero.
  - unfold searchKeyword, with_minConfidence. cbn [minConfidence].
    by rewrite truthyR_zero.
  - rewrite getActive_unfold. cbv zeta. f_equal.
    assert (active_sorted db (with_minConfidence (Some 0) options)
            = sort_by by_importance_confidence
                (filter (selected None (o_domain options)) db)) as ->; [|done].
    rewrite active_rows. f_equal. apply filter_iff_in. intros r _.
    unfold passes, selected. cbn [minConfidence o_domain with_minConfidence].
    rewrite truthyR_zero. split; [|intros [[?|?] ?]]; [tauto|done|tauto].
  - intros rank Hrank. split.
    + rewrite (searchKeyword_rows fts5 db query _ rank Hrank).
      cbv zeta. cbn [limit with_minConfidence].
      assert (filter (keyword_hit rank (with_minConfidence (Some 0) options)) db
              = filter (fun r => is_Some (rank r)
                                 /\ selected (activeOnly options) (o_domain options) r) db)
        as ->; [|done].
      apply filter_iff_in. intros r _.
      unfold keyword_hit, passes, selected.
      cbn [minConfidence o_domain activeOnly with_minConfidence].
      rewrite truthyR_zero. tauto.
    + by rewrite (searchKeyword_rows fts5 db query _ rank Hrank).
  - intros e He. unfold searchKeyword. by rewrite He.
  - by rewrite searchSemantic_rows.
  - intros Hnd.
    by rewrite (searchHybrid_effective fts5 db query (with_limit (Some 0%Z) options) Hnd).
Qed.

End ZeroClaims.

Lemma zero_options_are_absent_witness :
  searchKeyword fts_all two_rows "async" (with_limit (Some 0%Z) no_options)
  = Ok (map rowToBelief
          (sort_by (by_rank (fun _ => Some 0%R))
             (filter (keyword_hit (fun _ => Some 0%R) no_options) two_rows)))
  /\ searchHybrid fts_all two_rows "async" (with_limit (Some 0%Z) no_options)
     = hybrid_steps fts_all two_rows "async" no_options 10.
Proof.
  destruct (zero_options_are_absent fts_all two_rows "async" no_options)
    as (_ & _ & _ & _ & _ & _ & _ & _ & _ & _ & Hkeyword & _ & _ & Hhybrid).
  split.
  - apply (Hkeyword (fun _ => Some 0%R) eq_refl).
  - apply Hhybrid. exact two_rows_ids.
Defined.

(** * Properties of the session store *)

Section UpdateWhere.
Context {A : Type} (where_ : A -> Prop) `{!forall r, Decision (where_ r)} (set : A -> A).

Lemma update_where_lookup (rows : list A) (k : nat) :
  (update_where where_ set rows).1 !! k
  = (fun r => if decide (where_ r) then set r else r) <$> rows !! k.
Proof. unfold update_where. cbn [fst]. apply list_lookup_fmap. Qed.


Lemma update_where_changes (rows : list A) :
  (0 < (update_where where_ set rows).2)%Z <-> exists r, r ∈ rows /\ where_ r.
Proof.
  unfold update_where. cbn [snd]. split.
  - intros Hpos. destruct (filter where_ rows) as [|r l] eqn:Hf; [simpl in Hpos; lia|].
    assert (r ∈ filter where_ rows) as Hin by (rewrite Hf; left).
    apply list_elem_of_filter in Hin as [Hr Hin]. by exists r.
  - intros (r & Hin & Hr).
    assert (r ∈ filter where_ rows) as Hf by (by apply list_elem_of_filter).
    destruct (filter where_ rows); [by apply elem_of_nil in Hf | simpl; lia].
Qed.


End UpdateWhere.

Section SessionFacts.
Import SessionStore.

Lemma by_started_at_desc_asym (x y : SessionRow) :
  by_started_at_desc x y = true -> by_started_at_desc y x = false.
Proof.
  unfold by_started_at_desc. rewrite bool_decide_eq_true, bool_decide_eq_false. lia.
Qed.

Lemma sessions_sorted (l : list SessionRow) :
  StronglySorted (fun x y => (started_at y <= started_at x)%Z)
    (sort_by by_started_at_desc l).
Proof.
  apply Sorted_StronglySorted; [intros x y z ? ?; lia|].
  eapply Sorted_ind with (P := Sorted (fun x y : SessionRow => (started_at y <= started_at x)%Z));
    [constructor | | apply (sort_by_sorted _ by_started_at_desc_asym)].
  intros a l' _ IH Hhd. constructor; [done|].
  destruct Hhd as [|b l'' Hab]; constructor.
  unfold in_order, by_started_at_desc in Hab. apply bool_decide_eq_false in Hab. lia.
Qed.

Lemma getCurrent_head (db : list SessionRow) :
  getCurrent db
  = rowToSession <$> head (sort_by by_started_at_desc (filter (fun r => ended_at r = None) db)).
Proof.
  unfold getCurrent. rewrite sql_limit_pos by lia.
  by destruct (sort_by _ _).
Qed.

Lemma getCurrent_Some (db : list SessionRow) (c : Session) :
  getCurrent db = Some c ->
  exists r : SessionRow,
    r ∈ db /\ ended_at r = None /\ c = rowToSession r
    /\ forall r' : SessionRow, r' ∈ db -> ended_at r' = None ->
         (started_at r' <= started_at r)%Z.
Proof.
  rewrite getCurrent_head.
  pose proof (sessions_sorted (filter (fun r => ended_at r = None) db)) as Hsorted.
  pose proof (sort_by_perm by_started_at_desc (filter (fun r => ended_at r = None) db))
    as Hperm.
  destruct (sort_by _ _) as [|r l]; [discriminate|]. cbn [head fmap option_fmap option_map].
  intros [= <-]. exists r.
  assert (forall x, x ∈ r :: l <-> x ∈ db /\ ended_at x = None) as Hin.
  { intros x. rewrite Hperm, list_elem_of_filter. tauto. }
  destruct (proj1 (Hin r)) as [Hr Hopen]; [left|].
  split; [done|]. split; [done|]. split; [done|].
  intros r' Hr' Hopen'.
  assert (r' ∈ r :: l) as Hmem by (by apply Hin).
  apply elem_of_cons in Hmem as [->|Hmem]; [lia|].
  apply StronglySorted_inv in Hsorted as [_ Hall].
  rewrite Forall_forall in Hall. by apply Hall.
Qed.

Lemma getCurrent_None (db : list SessionRow) :
  getCurrent db = None <-> forall r : SessionRow, r ∈ db -> ended_at r <> None.
Proof.
  rewrite getCurrent_head.
  pose proof (sort_by_perm by_started_at_desc (filter (fun r => ended_at r = None) db))
    as Hperm.
  destruct (sort_by _ _) as [|r l]; split.
  - intros _ x Hx Hopen.
    assert (x ∈ @nil SessionRow) as Hnil
      by (rewrite Hperm; by apply list_elem_of_filter).
    by apply elem_of_nil in Hnil.
  - done.
  - discriminate.
  - intros Hall. exfalso.
    assert (r ∈ filter (fun r => ended_at r = None) db) as Hr by (rewrite <- Hperm; left).
    apply list_elem_of_filter in Hr as [Hopen Hr]. by apply (Hall r).
Qed.





Lemma create_current (db : list SessionRow) (newid : string) (now : Z) :
  (forall r : SessionRow, r ∈ db -> ended_at r <> None) ->
  getCurrent (db ++ [mkSession newid now None None 0]) = Some (mkSession newid now None None 0).
Proof.
  intros Hall. rewrite getCurrent_head, filter_app.
  replace (filter (fun r => ended_at r = None) db) with (@nil SessionRow).
  - reflexivity.
  - symmetry. induction db as [|r db IH]; [done|].
    rewrite filter_cons, decide_False by (apply Hall; left).
    apply IH. intros x Hx. apply Hall. by right.
Qed.

(** X18. [getCurrent] returns an open session that started last, and none
    exactly when no session is open.  [getOrCreate] returns the current
    session and writes nothing when there is one; otherwise it creates a
    session with no events under the fresh identifier.  Calling it again
    returns the same session and writes nothing. *)
Theorem getOrCreate_spec (db : list SessionRow) (newid : string) (now : Z) :
  (forall c : Session, getCurrent db = Some c ->
     exists r : SessionRow,
       r ∈ db /\ ended_at r = None /\ c = rowToSession r
       /\ forall r' : SessionRow, r' ∈ db -> ended_at r' = None ->
            (started_at r' <= started_at r)%Z)
  /\ (getCurrent db = None <-> forall r : SessionRow, r ∈ db -> ended_at r <> None)
  /\ (forall c : Session, getCurrent db = Some c -> getOrCreate db newid now = Ok (db, c))
  /\ (getCurrent db = None -> newid ∉ id <$> db ->
      getOrCreate db newid now
      = Ok (db ++ [mkSession newid now None None 0], mkSession newid now None None 0))
  /\ (forall (db' : list SessionRow) (s : Session),
        getOrCreate db newid now = Ok (db', s) ->
        forall newid' now', getOrCreate db' newid' now' = Ok (db', s)).
Proof.
  split; [apply getCurrent_Some|]. split; [apply getCurrent_None|].
  split; [|split].
  - intros c Hc. unfold getOrCreate. by rewrite Hc.
  - intros Hnone Hfresh. unfold getOrCreate, create. rewrite Hnone.
    by rewrite decide_False.
  - intros db' s. unfold getOrCreate.
    destruct (getCurrent db) as [c|] eqn:Hc.
    + intros [= <- <-] newid' now'. by rewrite Hc.
    + unfold create. case_decide; [discriminate|]. intros [= <- <-] newid' now'.
      rewrite create_current; [done|]. by apply getCurrent_None.
Qed.

Lemma getOrCreate_spec_witness :
  getOrCreate [mkSession "s1" 5 (Some 7%Z) None 2] "s2" 8
  = Ok ([mkSession "s1" 5 (Some 7%Z) None 2; mkSession "s2" 8 None None 0],
        mkSession "s2" 8 None None 0).
Proof.
  destruct (getOrCreate_spec [mkSession "s1" 5 (Some 7%Z) None 2] "s2" 8)
    as (_ & _ & _ & Hcreate & _).
  apply Hcreate.
  - reflexivity.
  - apply (bool_decide_unpack _). reflexivity.
Defined.

End SessionFacts.

(** * Properties of the event store *)

Section SortFilter.
Context {A : Type} (before : A -> A -> bool).
Hypothesis before_asym : forall x y, before x y = true -> before y x = false.
Hypothesis before_neg_trans :
  forall x y z, before y x = false -> before z y = false -> before z x = false.

Lemma sort_by_strongly (l : list A) : StronglySorted (in_order before) (sort_by before l).
Proof.
  apply Sorted_StronglySorted; [|by apply sort_by_sorted].
  intros x y z Hxy Hyz. unfold in_order in *. by eapply before_neg_trans.
Qed.

Lemma insert_by_front (x : A) (l : list A) :
  Forall (fun z => before z x = false) l -> insert_by before x l = x :: l.
Proof. destruct 1 as [|z l Hz _]; [done|]. simpl. by rewrite Hz. Qed.

Lemma insert_by_filter (P : A -> Prop) `{!forall x, Decision (P x)} (x : A) (l : list A) :
  StronglySorted (in_order before) l ->
  filter P (insert_by before x l)
  = if decide (P x) then insert_by before x (filter P l) else filter P l.
Proof.
  induction 1 as [|y l Hl IH Hall]; cbn [insert_by].
  - rewrite filter_cons, filter_nil. by case_decide.
  - destruct (before y x) eqn:Hyx.
    + rewrite !(filter_cons _ y), IH.
      destruct (decide (P y)), (decide (P x)); cbn [insert_by]; by rewrite ?Hyx.
    + rewrite (filter_cons _ x). destruct (decide (P x)) as [Hx|Hx]; [|done].
      rewrite insert_by_front; [done|].
      apply Forall_forall. intros z [_ Hz]%list_elem_of_filter.
      apply elem_of_cons in Hz as [->|Hz]; [done|].
      rewrite Forall_forall in Hall. specialize (Hall z Hz).
      unfold in_order in Hall. by eapply before_neg_trans.
Qed.

Lemma sort_by_filter (P : A -> Prop) `{!forall x, Decision (P x)} (l : list A) :
  filter P (sort_by before l) = sort_by before (filter P l).
Proof.
  induction l as [|x l IH]; [done|]. cbn [sort_by].
  rewrite insert_by_filter by apply sort_by_strongly.
  rewrite filter_cons, IH. by case_decide.
Qed.

End SortFilter.

Lemma filter_fmap_comm {A B : Type} (f : A -> B) (P : B -> Prop)
    `{!forall y, Decision (P y)} (l : list A) :
  filter P (f <$> l) = f <$> filter (fun x => P (f x)) l.
Proof.
  induction l as [|x l IH]; [done|].
  rewrite fmap_cons, !filter_cons, IH. by case_decide.
Qed.

Section EventFacts.
Import EventStore.

Lemma by_timestamp_asc_asym (x y : EventRow) :
  by_timestamp_asc x y = true -> by_timestamp_asc y x = false.
Proof. unfold by_timestamp_asc. rewrite bool_decide_eq_true, bool_decide_eq_false. lia. Qed.

Lemma by_timestamp_asc_neg_trans (x y z : EventRow) :
  by_timestamp_asc y x = false -> by_timestamp_asc z y = false ->
  by_timestamp_asc z x = false.
Proof. unfold by_timestamp_asc. rewrite !bool_decide_eq_false. lia. Qed.

Lemma limited_take {A : Type} (l : option Z) (rows : list A) :
  exists n, limited l rows = take n rows.
Proof.
  unfold limited. destruct (BeliefStore.truthyZ l) as [n|]; [apply sql_limit_take|].
  exists (length rows). by rewrite take_ge.
Qed.

Lemma markProcessed_fmap (db : list EventRow) (ids : list string) :
  markProcessed db ids
  = (fun r => if decide (id r ∈ ids) then set_processed 1 r else r) <$> db.
Proof.
  unfold markProcessed. case_decide as Hlen; [|done].
  destruct ids; [|done]. rewrite <- (list_fmap_id db) at 1.
  apply list_fmap_ext. intros _ r _. rewrite decide_False; [done|]. apply not_elem_of_nil.
Qed.

Lemma unprocessed_after (db : list EventRow) (ids : list string) :
  filter (fun r => processed r = 0%Z) (markProcessed db ids)
  = filter (fun r => id r ∉ ids) (filter (fun r => processed r = 0%Z) db).
Proof.
  rewrite markProcessed_fmap. induction db as [|r db IH]; [done|].
  rewrite fmap_cons, !filter_cons, IH.
  destruct (decide (id r ∈ ids)) as [Hin|Hin].
  - rewrite decide_False by done.
    destruct (decide (processed r = 0%Z)); [|done].
    by rewrite filter_cons, decide_False by (by intros ?).
  - destruct (decide (processed r = 0%Z)); [|done].
    by rewrite filter_cons, decide_True.
Qed.

Lemma getUnprocessed_rows (db : list EventRow) (s : option string) (l : option Z) :
  getUnprocessed db s l
  = rowToEvent <$> limited l
      (sort_by by_timestamp_asc
         (filter (in_session s)
            (filter (fun r => processed r = 0%Z) db))).
Proof.
  unfold getUnprocessed. cbv zeta. do 3 f_equal.
  destruct (BeliefStore.truthyS s) as [s'|] eqn:Hs.
  - apply filter_iff_in. intros r _. unfold in_session. by rewrite Hs.
  - symmetry. apply filter_all. intros r _. unfold in_session. by rewrite Hs.
Qed.

(** X19. [markProcessed] writes the column [processed] only, sets it to 1 on
    the listed events and never back to 0, and marking twice is marking
    once.  Afterwards [getUnprocessed] returns what it returned before
    without the listed events, in the same order; and [getUnprocessed]
    returns only events that read as unprocessed, oldest first. *)
Theorem markProcessed_getUnprocessed (db : list EventRow) (ids : list string)
    (s : option string) :
  getUnprocessed (markProcessed db ids) s None
  = filter (fun e : Event => id e ∉ ids) (getUnprocessed db s None)
  /\ markProcessed (markProcessed db ids) ids = markProcessed db ids
  /\ (forall k (r : EventRow), db !! k = Some r ->
        exists r' : EventRow,
          markProcessed db ids !! k = Some r'
          /\ r' = set_processed (processed r') r
          /\ (id r ∈ ids -> processed r' = 1%Z)
          /\ (id r ∉ ids -> r' = r))
  /\ (forall l (e : Event), e ∈ getUnprocessed db s l -> processed e = Some false)
  /\ (forall l (i j : nat) (x y : Event), (i < j)%nat ->
        getUnprocessed db s l !! i = Some x -> getUnprocessed db s l !! j = Some y ->
        (timestamp x <= timestamp y)%Z).
Proof.
  split; [|split; [|split; [|split]]].
  - rewrite !getUnprocessed_rows. unfold limited. cbn [BeliefStore.truthyZ].
    rewrite unprocessed_after.
    rewrite (filter_fmap_comm rowToEvent). cbn [id rowToEvent]. f_equal.
    rewrite (sort_by_filter _ by_timestamp_asc_asym by_timestamp_asc_neg_trans).
    f_equal. rewrite !list_filter_filter. apply filter_iff_in. intros r _. tauto.
  - rewrite !markProcessed_fmap, <- list_fmap_compose. apply list_fmap_ext.
    intros _ r _. cbn [compose]. destruct (decide (id r ∈ ids)) as [Hin|Hin].
    + by rewrite decide_True.
    + by rewrite decide_False.
  - intros k r Hk. rewrite markProcessed_fmap, list_lookup_fmap, Hk.
    cbn [fmap option_fmap option_map]. eexists. split; [done|].
    destruct (decide (id r ∈ ids)) as [Hin|Hin].
    + split; [done|]. split; [done | by intros ?].
    + split; [by destruct r|]. split; [by intros ? | done].
  - intros l e. rewrite getUnprocessed_rows.
    intros (r & -> & Hr)%list_elem_of_fmap.
    assert (r ∈ filter (fun r => processed r = 0%Z) db) as Hin.
    { destruct (limited_take l
                  (sort_by by_timestamp_asc
                     (filter (in_session s)
                        (filter (fun r => processed r = 0%Z) db)))) as [n Hn].
      rewrite Hn in Hr. apply elem_of_take in Hr as (k & Hr & _).
      apply list_elem_of_lookup_2 in Hr. rewrite sort_by_perm in Hr.
      by apply list_elem_of_filter in Hr as [_ Hr]. }
    apply list_elem_of_filter in Hin as [Hzero _].
    cbn [processed rowToEvent]. by rewrite Hzero.
  - intros l i j x y Hij. rewrite getUnprocessed_rows, !list_lookup_fmap.
    destruct (limited_take l
                (sort_by by_timestamp_asc
                   (filter (in_session s)
                      (filter (fun r => processed r = 0%Z) db)))) as [n Hn].
    rewrite Hn.
    destruct (take n _ !! i) as [ri|] eqn:Hri; [|discriminate].
    destruct (take n _ !! j) as [rj|] eqn:Hrj; [|discriminate].
    intros [= <-] [= <-].
    apply lookup_take_Some in Hri as [Hri _]. apply lookup_take_Some in Hrj as [Hrj _].
    pose proof (StronglySorted_lookup _ _
                  (sort_by_strongly _ by_timestamp_asc_asym by_timestamp_asc_neg_trans _)
                  i j ri rj Hij Hri Hrj) as Hord.
    unfold in_order, by_timestamp_asc in Hord. apply bool_decide_eq_false in Hord.
    cbn [timestamp rowToEvent]. lia.
Qed.

End EventFacts.

Lemma markProcessed_getUnprocessed_witness :
  exists r' : EventStore.EventRow,
    EventStore.markProcessed [sample_event "e1" "s1" 5 0] ["e1"] !! 0%nat = Some r'
    /\ EventStore.processed r' = 1%Z.
Proof.
  destruct (markProcessed_getUnprocessed [sample_event "e1" "s1" 5 0] ["e1"] None)
    as (_ & _ & Hrows & _).
  destruct (Hrows 0%nat (sample_event "e1" "s1" 5 0) eq_refl) as (r' & Hr' & _ & Hin & _).
  exists r'. split; [exact Hr' | apply Hin; by left].
Defined.

Section CaptureFacts.
Import EventStore.

Lemma string_length_append (s1 s2 : string) :
  String.length (s1 +:+ s2) = String.length s1 + String.length s2.
Proof.
  induction s1 as [|a s1 IH]; [done|].
  change (S (String.length (s1 +:+ s2)) = S (String.length s1 + String.length s2)).
  by rewrite IH.
Qed.

Lemma string_append_nil_r (s : string) : s +:+ EmptyString = s.
Proof.
  induction s as [|a s IH]; [done|].
  change (String a (s +:+ EmptyString) = String a s). by rewrite IH.
Qed.

Lemma substring_length_le (n : nat) (s : string) :
  String.length (String.substring 0 n s) <= n.
Proof.
  revert s. induction n as [|n IH]; intros [|a s]; simpl; try lia.
  specialize (IH s). lia.
Qed.

Lemma concat_cons_length (x : string) (l : list string) :
  String.length (String.concat " " (x :: l))
  = String.length x + foldr (fun y acc => 1 + String.length y + acc) 0 l.
Proof.
  revert x. induction l as [|y l IH]; intros x.
  - simpl. lia.
  - change (String.concat " " (x :: y :: l))
      with (x +:+ " " +:+ String.concat " " (y :: l)).
    rewrite !string_length_append, IH. simpl. lia.
Qed.

Lemma concat_cons_prefix (x : string) (l : list string) :
  exists rest, String.concat " " (x :: l) = x +:+ rest.
Proof.
  destruct l as [|y l].
  - exists EmptyString. simpl. by rewrite string_append_nil_r.
  - by exists (" " +:+ String.concat " " (y :: l)).
Qed.

Lemma push_if_fmap (f : string -> string) (s : option string) :
  push_if f s = from_option (fun v => [v]) [] (f <$> BeliefStore.truthyS s).
Proof. unfold push_if. by destruct (BeliefStore.truthyS s). Qed.

Lemma push_if_length (f : string -> string) (s : option string) (n : nat) :
  (forall v, String.length (f v) <= n) ->
  foldr (fun y acc => 1 + String.length y + acc) 0 (push_if f s) <= 1 + n.
Proof.
  intros Hf. unfold push_if. destruct (BeliefStore.truthyS s) as [v|]; simpl; [|lia].
  specialize (Hf v). lia.
Qed.

Lemma truthyS_length (s : option string) (v : string) :
  BeliefStore.truthyS s = Some v -> String.length v = len s.
Proof.
  unfold BeliefStore.truthyS, len. destruct s as [w|]; [|discriminate].
  case_decide; [discriminate|]. by intros [= <-].
Qed.

Lemma push_id_length (s : option string) :
  foldr (fun y acc => 1 + String.length y + acc) 0 (push_if (fun v => v) s) <= 1 + len s.
Proof.
  unfold push_if. destruct (BeliefStore.truthyS s) as [v|] eqn:Hv; simpl; [|lia].
  rewrite (truthyS_length _ _ Hv). lia.
Qed.

Lemma foldr_length_app (l1 l2 : list string) :
  foldr (fun y acc => 1 + String.length y + acc) 0 (l1 ++ l2)
  = foldr (fun y acc => 1 + String.length y + acc) 0 l1
    + foldr (fun y acc => 1 + String.length y + acc) 0 l2.
Proof. induction l1 as [|y l1 IH]; [done|]. cbn [app foldr]. rewrite IH. lia. Qed.

(** X20. The searchable text of an event starts with the name of its type
    and is that name alone when the payload has no tool name, tool output,
    message, file path or error message.  It depends on the payload only
    through those five fields, an empty one counting as absent, and on the
    tool output only through its first 1000 characters; so its length is
    bounded by the lengths of the type name and of the other four fields
    plus 1005. *)
Theorem buildSearchableText_spec (t : EventType) (p p' : EventPayload) :
  (exists rest, buildSearchableText t p = type_name t +:+ rest)
  /\ (BeliefStore.truthyS (tool_name p) = None ->
      BeliefStore.truthyS (tool_output p) = None ->
      BeliefStore.truthyS (message_content p) = None ->
      BeliefStore.truthyS (file_path p) = None ->
      BeliefStore.truthyS (error_message p) = None ->
      buildSearchableText t p = type_name t)
  /\ (BeliefStore.truthyS (tool_name p) = BeliefStore.truthyS (tool_name p') ->
      String.substring 0 1000 <$> BeliefStore.truthyS (tool_output p)
      = String.substring 0 1000 <$> BeliefStore.truthyS (tool_output p') ->
      BeliefStore.truthyS (message_content p) = BeliefStore.truthyS (message_content p') ->
      BeliefStore.truthyS (file_path p) = BeliefStore.truthyS (file_path p') ->
      BeliefStore.truthyS (error_message p) = BeliefStore.truthyS (error_message p') ->
      buildSearchableText t p = buildSearchableText t p')
  /\ String.length (buildSearchableText t p)
     <= String.length (type_name t) + 1005
        + len (tool_name p) + len (message_content p) + len (file_path p)
        + len (error_message p).
Proof.
  split; [|split; [|split]].
  - unfold buildSearchableText. cbv zeta. cbn [app]. apply concat_cons_prefix.
  - intros H1 H2 H3 H4 H5. unfold buildSearchableText, push_if.
    by rewrite H1, H2, H3, H4, H5.
  - intros H1 H2 H3 H4 H5. unfold buildSearchableText. cbv zeta.
    rewrite !push_if_fmap, !option_fmap_id, H1, H2, H3, H4, H5. done.
  - unfold buildSearchableText. cbv zeta. cbn [app].
    rewrite concat_cons_length, !foldr_length_app.
    pose proof (push_id_length (tool_name p)).
    pose proof (push_if_length (String.substring 0 1000) (tool_output p) 1000
                  (substring_length_le 1000)).
    pose proof (push_id_length (message_content p)).
    pose proof (push_id_length (file_path p)).
    pose proof (push_id_length (error_message p)).
    lia.
Qed.

Lemma buildSearchableText_spec_witness :
  buildSearchableText tool_call (mkPayload (Some "") None None None None None None None)
  = "tool_call".
Proof.
  apply (buildSearchableText_spec tool_call
           (mkPayload (Some "") None None None None None None None)
           (mkPayload None None None None None None None None)); reflexivity.
Defined.

Lemma filter_id_none (db : list EventRow) (i : string) :
  i ∉ id <$> db -> filter (fun r : EventRow => id r = i) db = [].
Proof.
  induction db as [|r db IH]; [done|]. rewrite fmap_cons, not_elem_of_cons.
  intros [Hne Hi]. rewrite filter_cons, decide_False by done. by apply IH.
Qed.

(** X21. [capture] under an identifier already in the table throws and
    writes nothing.  Under a fresh identifier it adds one row and returns
    the event with the given type, session and payload, the time of the
    call, the context or the empty one, the searchable text built from type
    and payload, and [processed] false; [getById] reads exactly that event
    back and reads the other identifiers as before; [count] grows by one,
    for all sessions and for the session of the event, and stays for every
    other session. *)
Theorem capture_getById (db : list EventRow) (newid : string) (now : Z) (t : EventType)
    (sid : string) (p : EventPayload) (ctx : option EventContext) :
  (newid ∈ id <$> db -> capture db newid now t sid p ctx = Err UniqueId)
  /\ (newid ∉ id <$> db ->
      exists (db' : list EventRow) (e : Event),
        capture db newid now t sid p ctx = Ok (db', e)
        /\ e = mkEvent newid t sid now p (default empty_context ctx)
                 (buildSearchableText t p) (Some false)
        /\ getById db' newid = Some e
        /\ (forall i, i <> newid -> getById db' i = getById db i)
        /\ length db' = S (length db)
        /\ count db' None = (count db None + 1)%Z
        /\ (forall s, s <> EmptyString ->
              count db' (Some s)
              = (count db (Some s) + if decide (s = sid) then 1 else 0)%Z)).
Proof.
  split.
  - intros Hin. unfold capture, create. by rewrite decide_True.
  - intros Hfresh. unfold capture, create. rewrite decide_False by done.
    cbn [type session_id timestamp payload context searchable_text processed].
    eexists _, _. split; [done|]. split; [done|]. split; [|split; [|split; [|split]]].
    + unfold getById. rewrite filter_app, filter_id_none by done.
      rewrite filter_cons, decide_True by done. done.
    + intros i Hi. unfold getById. rewrite filter_app.
      rewrite (filter_cons _ _ []), decide_False by (cbn [id]; congruence).
      by rewrite filter_nil, app_nil_r.
    + rewrite length_app. simpl. lia.
    + unfold count. cbn [BeliefStore.truthyS]. rewrite length_app. simpl. lia.
    + intros s Hs. unfold count, BeliefStore.truthyS. rewrite decide_False by done.
      rewrite filter_app, length_app, (filter_cons _ _ []), filter_nil.
      cbn [session_id]. destruct (decide (s = sid)) as [->|Hne].
      * rewrite decide_True by done. simpl. lia.
      * rewrite decide_False by congruence. simpl. lia.
Qed.

Lemma capture_getById_witness :
  capture [sample_event "e1" "s1" 5 0] "e1" 6 tool_call "s1"
    (mkPayload None None None None None None None None) None
  = Err UniqueId.
Proof.
  apply (capture_getById [sample_event "e1" "s1" 5 0] "e1" 6 tool_call "s1"
           (mkPayload None None None None None None None None) None).
  by left.
Defined.

End CaptureFacts.

(** * Properties of the commands *)

Section CommandFacts.

Lemma consistent_map (g : SessionStore.Session -> SessionStore.Session)
    (sessions : list SessionStore.Session) (events : list EventStore.EventRow) :
  (forall r, SessionStore.id (g r) = SessionStore.id r) ->
  (forall r, SessionStore.event_count (g r) = SessionStore.event_count r) ->
  consistent sessions events -> consistent (g <$> sessions) events.
Proof.
  intros Hid Hcount (Hnd & Hev & Hn).
  assert (SessionStore.id <$> (g <$> sessions) = SessionStore.id <$> sessions) as Hids.
  { rewrite <- list_fmap_compose. apply list_fmap_ext. intros _ r _. apply Hid. }
  split; [by rewrite Hids|]. split; [by rewrite Hids|].
  intros r' (r & -> & Hr)%list_elem_of_fmap. rewrite Hid, Hcount. by apply Hn.
Qed.

Lemma consistent_new (sessions : list SessionStore.Session)
    (events : list EventStore.EventRow) (sid : string) (now : Z) :
  sid ∉ SessionStore.id <$> sessions ->
  consistent sessions events ->
  consistent (sessions ++ [SessionStore.mkSession sid now None None 0]) events.
Proof.
  intros Hfresh (Hnd & Hev & Hn). split; [|split].
  - rewrite fmap_app. apply NoDup_app. split; [done|].
    split; [|apply NoDup_singleton].
    intros x Hx ->%list_elem_of_singleton. by apply Hfresh.
  - intros e He. rewrite fmap_app. apply elem_of_app. left. by apply Hev.
  - intros r [Hr | ->%list_elem_of_singleton]%elem_of_app; [by apply Hn|].
    cbn [SessionStore.event_count SessionStore.id]. unfold events_of.
    replace (filter (fun e => EventStore.session_id e = sid) events)
      with (@nil EventStore.EventRow); [done|].
    symmetry. clear Hn. induction events as [|e events IH]; [done|].
    rewrite filter_cons, decide_False.
    + apply IH. intros e' He'. apply Hev. by right.
    + intros Heq. apply Hfresh. rewrite <- Heq. apply Hev. left.
Qed.

Lemma getOrCreate_consistent (sessions sessions1 : list SessionStore.Session)
    (events : list EventStore.EventRow) (sid : string) (now : Z)
    (session : SessionStore.Session) :
  SessionStore.getOrCreate sessions sid now = Ok (sessions1, session) ->
  consistent sessions events ->
  consistent sessions1 events
  /\ SessionStore.id session ∈ SessionStore.id <$> sessions1.
Proof.
  unfold SessionStore.getOrCreate.
  destruct (SessionStore.getCurrent sessions) as [c|] eqn:Hc.
  - intros [= <- <-] Hcons. split; [done|].
    apply getCurrent_Some in Hc as (r & Hr & _ & -> & _).
    apply list_elem_of_fmap. by exists r.
  - unfold SessionStore.create. case_decide as Hin; [discriminate|].
    intros [= <- <-] Hcons. split; [by apply consistent_new|].
    rewrite fmap_app. apply elem_of_app. right. by left.
Qed.

Lemma incrementEventCount_fmap (sessions : list SessionStore.Session) (i : string) :
  SessionStore.incrementEventCount sessions i
  = (fun r => if decide (SessionStore.id r = i)
              then SessionStore.set_event_count (SessionStore.event_count r + 1) r
              else r) <$> sessions.
Proof. done. Qed.

Lemma captured_consistent (sessions : list SessionStore.Session)
    (events : list EventStore.EventRow) (row : EventStore.EventRow) :
  consistent sessions events ->
  EventStore.session_id row ∈ SessionStore.id <$> sessions ->
  consistent (SessionStore.incrementEventCount sessions (EventStore.session_id row))
    (events ++ [row]).
Proof.
  intros (Hnd & Hev & Hn) Hin. rewrite incrementEventCount_fmap.
  set (g := fun r => if decide (SessionStore.id r = EventStore.session_id row)
                     then SessionStore.set_event_count (SessionStore.event_count r + 1) r
                     else r).
  assert (forall r, SessionStore.id (g r) = SessionStore.id r) as Hid
    by (intros r; unfold g; by case_decide).
  assert (SessionStore.id <$> (g <$> sessions) = SessionStore.id <$> sessions) as Hids.
  { rewrite <- list_fmap_compose. apply list_fmap_ext. intros _ r _. apply Hid. }
  split; [by rewrite Hids|]. split.
  - intros e [He | ->%list_elem_of_singleton]%elem_of_app; rewrite Hids; [by apply Hev | done].
  - intros r' (r & -> & Hr)%list_elem_of_fmap. rewrite Hid.
    unfold events_of. rewrite filter_app, length_app, (filter_cons _ _ []), filter_nil.
    specialize (Hn r Hr). unfold events_of in Hn. unfold g.
    destruct (decide (SessionStore.id r = EventStore.session_id row)) as [Heq|Hne].
    + rewrite decide_True by done. cbn [SessionStore.event_count SessionStore.set_event_count].
      rewrite Hn. simpl. lia.
    + rewrite decide_False by congruence. rewrite Hn. simpl. lia.
Qed.

Lemma run_consistent (st : Cli.Store) (c : Cli.Command) :
  consistent (Cli.sessions st) (Cli.events st) ->
  consistent (Cli.sessions (Cli.run st c)) (Cli.events (Cli.run st c)).
Proof.
  intros Hcons. destruct c as [sid eid now now' options|sid now|now summary']; cbn [Cli.run].
  - unfold Cli.capture.
    destruct (SessionStore.getOrCreate _ _ _) as [[sessions1 session]|e] eqn:Hget; [|done].
    destruct (getOrCreate_consistent _ _ _ _ _ _ Hget Hcons) as [Hcons1 Hin].
    unfold EventStore.capture, EventStore.create.
    case_decide; cbn [fst Cli.sessions Cli.events]; [done|].
    apply (captured_consistent sessions1 (Cli.events st)
             (EventStore.mkEvent eid _ (SessionStore.id session) _ _ _ _ _));
      [done | done].
  - unfold Cli.session_start, SessionStore.create.
    case_decide; cbn [fst Cli.sessions Cli.events]; [done|].
    by apply consistent_new.
  - unfold Cli.session_end.
    destruct (SessionStore.getCurrent _) as [session|]; cbn [fst Cli.sessions Cli.events];
      [|done].
    unfold SessionStore.end_, update_where. cbn [fst].
    apply consistent_map; [| |done]; intros r; by case_decide.
Qed.

(** X22. The commands [capture], [session-start] and [session-end] keep the
    two tables in step, also when one of them throws half-way: no session
    identifier occurs twice, every event belongs to a stored session, and
    the [event_count] of every session is the number of its events, which
    is what [count] of the event store returns for its identifier.  So it
    is after any sequence of commands on an empty store. *)
Theorem commands_keep_counts (st : Cli.Store) (cmds : list Cli.Command) :
  let st' := foldl Cli.run st cmds in
  (consistent (Cli.sessions st) (Cli.events st) ->
   consistent (Cli.sessions st') (Cli.events st'))
  /\ consistent
       (Cli.sessions (foldl Cli.run (Cli.mkStore [] []) cmds))
       (Cli.events (foldl Cli.run (Cli.mkStore [] []) cmds))
  /\ (consistent (Cli.sessions st) (Cli.events st) ->
      forall r, r ∈ Cli.sessions st' -> SessionStore.id r <> EmptyString ->
        SessionStore.event_count r
        = EventStore.count (Cli.events st') (Some (SessionStore.id r))).
Proof.
  assert (forall cmds st,
            consistent (Cli.sessions st) (Cli.events st) ->
            consistent (Cli.sessions (foldl Cli.run st cmds))
              (Cli.events (foldl Cli.run st cmds))) as Hfold.
  { clear. induction cmds as [|c cmds IH]; intros st Hcons; [done|].
    cbn [foldl]. by apply IH, run_consistent. }
  intros st'. split; [apply Hfold|]. split.
  - apply Hfold. split; [constructor|]. split; [by intros e ?%elem_of_nil|].
    by intros r ?%elem_of_nil.
  - intros Hcons r Hr Hid. destruct (Hfold cmds st Hcons) as (_ & _ & Hn).
    rewrite (Hn r Hr). unfold EventStore.count, BeliefStore.truthyS.
    by rewrite decide_False.
Qed.

Lemma commands_keep_counts_witness :
  consistent
    (Cli.sessions
       (foldl Cli.run
          (Cli.mkStore [SessionStore.mkSession "s1" 5 None None 1]
             [sample_event "e1" "s1" 5 0])
          [Cli.SessionEnd 9 None]))
    (Cli.events
       (foldl Cli.run
          (Cli.mkStore [SessionStore.mkSession "s1" 5 None None 1]
             [sample_event "e1" "s1" 5 0])
          [Cli.SessionEnd 9 None])).
Proof.
  apply (commands_keep_counts
           (Cli.mkStore [SessionStore.mkSession "s1" 5 None None 1]
              [sample_event "e1" "s1" 5 0])
           [Cli.SessionEnd 9 None]).
  split; [|split].
  - apply (bool_decide_unpack _). reflexivity.
  - intros e ->%list_elem_of_singleton. by left.
  - intros r ->%list_elem_of_singleton. reflexivity.
Defined.

End CommandFacts.

(** * Properties of the prediction store *)

Section PredictionFacts.
Import PredictionStore.
Local Open Scope R_scope.






Lemma recordOutcome_lookup (db : list PredictionRow) (i : string) (o : PredictionOutcome)
    (k : nat) :
  (recordOutcome db i o).1 !! k
  = (fun r => if decide (id r = i) then set_outcome (Some o) r else r) <$> db !! k.
Proof. unfold recordOutcome. cbn [fst]. apply update_where_lookup. Qed.

(** X24. [recordOutcome] writes the outcome on the prediction with the
    given id, whether or not it has one, and on no other row; it returns
    [true] exactly when the id is stored; of two outcomes recorded for one
    id the later one stays; and [getUnevaluated] no longer returns the
    prediction. *)
Theorem recordOutcome_overwrites (db : list PredictionRow) (i : string)
    (o o' : PredictionOutcome) :
  let db' := (recordOutcome db i o).1 in
  ((recordOutcome db i o).2 = true <-> i ∈ id <$> db)
  /\ (forall k (r : PredictionRow), db !! k = Some r ->
        db' !! k = Some (if decide (id r = i) then set_outcome (Some o) r else r))
  /\ recordOutcome db' i o' = recordOutcome db i o'
  /\ (forall l (p : Prediction), p ∈ getUnevaluated db' l -> id p <> i).
Proof.
  intros db'. split; [|split; [|split]].
  - unfold recordOutcome. cbn [snd]. rewrite bool_decide_eq_true.
    rewrite (update_where_changes (fun r => id r = i)), list_elem_of_fmap. naive_solver.
  - intros k r Hk. subst db'. by rewrite recordOutcome_lookup, Hk.
  - subst db'. unfold recordOutcome, update_where. cbn [fst snd]. f_equal.
    + rewrite <- list_fmap_compose. apply list_fmap_ext. intros _ r _. cbn [compose].
      destruct (decide (id r = i)) as [Hr|Hr].
      * by rewrite decide_True.
      * by rewrite decide_False.
    + rewrite (filter_fmap_comm _ (fun r => id r = i)), length_fmap.
      replace (filter (fun x => id (if decide (id x = i) then set_outcome (Some o) x else x) = i) db)
        with (filter (fun r => id r = i) db); [done|].
      apply filter_iff_in. intros r _. by case_decide.
  - intros l p. unfold getUnevaluated.
    intros (r & -> & Hr)%list_elem_of_fmap.
    destruct (sql_limit_take (default 50%Z l)
                (sort_by by_generated_at_asc (filter (fun r => outcome r = None) db')))
      as [n Hn].
    rewrite Hn in Hr. apply elem_of_take in Hr as (k & Hr & _).
    apply list_elem_of_lookup_2 in Hr. rewrite sort_by_perm in Hr.
    apply list_elem_of_filter in Hr as [Hnone Hr].
    apply list_elem_of_lookup_1 in Hr as [m Hm]. subst db'.
    rewrite recordOutcome_lookup in Hm.
    destruct (db !! m) as [r0|]; simplify_eq/=.
    case_decide as Hid; [discriminate | done].
Qed.

End PredictionFacts.

Lemma recordOutcome_overwrites_witness :
  (PredictionStore.recordOutcome
     [PredictionStore.mkPrediction "p1" 5 "0123456789abcdef" []
        (Some (PredictionStore.mkOutcome false None 6))]
     "p1" (PredictionStore.mkOutcome true None 7)).1 !! 0%nat
  = Some (PredictionStore.mkPrediction "p1" 5 "0123456789abcdef" []
            (Some (PredictionStore.mkOutcome true None 7))).
Proof.
  destruct (recordOutcome_overwrites
              [PredictionStore.mkPrediction "p1" 5 "0123456789abcdef" []
                 (Some (PredictionStore.mkOutcome false None 6))]
              "p1" (PredictionStore.mkOutcome true None 7)
              (PredictionStore.mkOutcome true None 7)) as (_ & Hrow & _).
  apply (Hrow 0%nat
           (PredictionStore.mkPrediction "p1" 5 "0123456789abcdef" []
              (Some (PredictionStore.mkOutcome false None 6)))).
  reflexivity.
Defined.


(** * Limits of the reads *)

Section ReadLimits.

Lemma in_limited {A : Type} (l : option Z) (rows : list A) (x : A) :
  x ∈ EventStore.limited l rows -> x ∈ rows.
Proof.
  destruct (limited_take l rows) as [n ->]. intros (k & Hx & _)%elem_of_take.
  by eapply list_elem_of_lookup_2.
Qed.

(** X25. A limit of 0 is no limit in the reads that take it as an option
    ([getBySession], [getUnprocessed], [getAfter]) and returns nothing in
    the reads that take it as an argument ([getRecent] of the three stores
    and [getUnevaluated]), whose defaults are 50, 10, 20 and 50.
    [getBySession] returns events of the session only, inside the time
    range with both ends included; [getAfter] returns events strictly after
    the time; and [count] of the empty session identifier counts all
    events. *)
Theorem read_limits (events : list EventStore.EventRow)
    (sessions : list SessionStore.Session) (predictions : list PredictionStore.Prediction)
    (s : string) (sess : option string) (t : Z) (l : option Z) (o : SearchOptions) :
  EventStore.getBySession events s (with_limit (Some 0%Z) o)
    = EventStore.getBySession events s (with_limit None o)
  /\ EventStore.getUnprocessed events sess (Some 0%Z)
     = EventStore.getUnprocessed events sess None
  /\ EventStore.getAfter events t (Some 0%Z) = EventStore.getAfter events t None
  /\ (EventStore.getRecent events (Some 0%Z) = []
      /\ EventStore.getRecent events None = EventStore.getRecent events (Some 50%Z))
  /\ (SessionStore.getRecent sessions (Some 0%Z) = []
      /\ SessionStore.getRecent sessions None = SessionStore.getRecent sessions (Some 10%Z))
  /\ (PredictionStore.getRecent predictions (Some 0%Z) = []
      /\ PredictionStore.getRecent predictions None
         = PredictionStore.getRecent predictions (Some 20%Z))
  /\ (PredictionStore.getUnevaluated predictions (Some 0%Z) = []
      /\ PredictionStore.getUnevaluated predictions None
         = PredictionStore.getUnevaluated predictions (Some 50%Z))
  /\ (forall e : EventStore.Event, e ∈ EventStore.getBySession events s o ->
        EventStore.session_id e = s
        /\ match timeRange o with
           | Some (start, end') =>
               (start <= EventStore.timestamp e <= end')%Z
           | None => True
           end)
  /\ (forall e : EventStore.Event, e ∈ EventStore.getAfter events t l ->
        (t < EventStore.timestamp e)%Z)
  /\ EventStore.count events (Some EmptyString) = EventStore.count events None.
Proof.
  split; [done|]. split; [done|]. split; [done|].
  split; [done|]. split; [done|]. split; [done|]. split; [done|].
  split; [|split; [|done]].
  - intros e. unfold EventStore.getBySession. cbv zeta.
    intros (r & -> & Hr)%list_elem_of_fmap.
    apply in_limited in Hr. rewrite sort_by_perm in Hr.
    cbn [EventStore.session_id EventStore.timestamp EventStore.rowToEvent].
    destruct (timeRange o) as [[start end']|].
    + apply list_elem_of_filter in Hr as [Hrange Hr].
      apply list_elem_of_filter in Hr as [Hs _]. done.
    + by apply list_elem_of_filter in Hr as [Hs _].
  - intros e. unfold EventStore.getAfter.
    intros (r & -> & Hr)%list_elem_of_fmap.
    apply in_limited in Hr. rewrite sort_by_perm in Hr.
    by apply list_elem_of_filter in Hr as [Ht _].
Qed.

End ReadLimits.

Lemma read_limits_witness :
  EventStore.session_id (EventStore.rowToEvent (sample_event "e1" "s1" 5 0)) = "s1".
Proof.
  destruct (read_limits [sample_event "e1" "s1" 5 0] [] [] "s1" None 0 None no_options)
    as (_ & _ & _ & _ & _ & _ & _ & Hsession & _).
  apply (Hsession (EventStore.rowToEvent (sample_event "e1" "s1" 5 0))).
  apply list_elem_of_singleton. reflexivity.
Defined.

(** * The command that updates a belief *)

Section UpdateCommand.
Local Open Scope R_scope.
Variable config : Config.
Variable binding : NumberBinding.

Lemma update_belief_row (now : Z) (i : string) (options : Cli.UpdateOptions)
    (r : BeliefRow) :
  (fun r => if decide (id r = i)
            then apply_changes (Cli.update_changes now options) r else r)
    ((fun r => if Cli.u_addContradict options
               then (if decide (id r = i)
                     then set_contradicting_count (contradicting_count r + 1) r else r)
               else r)
       ((fun r => if Cli.u_addSupport options
                  then (if decide (id r = i)
                        then set_supporting_count (supporting_count r + 1) r else r)
                  else r) r))
  = if decide (id r = i) then updated_row now options r else r.
Proof.
  assert (forall v (x : BeliefRow), id (set_supporting_count v x) = id x) as Hs1 by done.
  assert (forall v (x : BeliefRow), id (set_contradicting_count v x) = id x) as Hs2 by done.
  cbv beta. destruct (decide (id r = i)) as [Hid|Hid].
  - destruct options as [c imp sup con].
    cbn [Cli.u_addSupport Cli.u_addContradict]. unfold updated_row.
    cbn [Cli.u_confidence Cli.u_importance Cli.u_addSupport Cli.u_addContradict].
    destruct sup, con; cbv iota;
      repeat first [ rewrite Hs1 | rewrite Hs2
                   | rewrite (decide_True (P := id r = i)) by exact Hid ];
      rewrite apply_changes_normal; destruct r;
      cbn [id text domain confidence evidence_ids supporting_count contradicting_count
           derived_at last_evaluated supersedes_id invalidated_at invalidation_reason
           embedding importance tags set_supporting_count set_contradicting_count
           Cli.update_changes Cli.u_confidence Cli.u_importance
           p_text p_confidence p_evidence_ids p_supporting_count
           p_contradicting_count p_last_evaluated p_importance p_tags p_embedding
           from_option Datatypes.id];
      f_equal; lia.
  - destruct (Cli.u_addSupport options), (Cli.u_addContradict options); cbv iota;
      by repeat rewrite (decide_False (P := id r = i)) by exact Hid.
Qed.

Lemma update_belief_lookup (db : list BeliefRow) (now : Z) (i : string)
    (options : Cli.UpdateOptions) (k : nat) :
  (Cli.update_belief db now i options).1 !! k
  = (fun r => if decide (id r = i) then updated_row now options r else r) <$> db !! k.
Proof.
  unfold Cli.update_belief. cbv zeta. rewrite update_lookup.
  assert (forall d : list BeliefRow,
            (if Cli.u_addSupport options then incrementSupporting d i else d) !! k
            = (fun r => if Cli.u_addSupport options
                        then (if decide (id r = i)
                              then set_supporting_count (supporting_count r + 1) r else r)
                        else r) <$> d !! k) as Hsup.
  { intros d. destruct (Cli.u_addSupport options); [|by destruct (d !! k)].
    unfold incrementSupporting. apply (sql_update_lookup (fun r => id r = i)). }
  assert (forall d : list BeliefRow,
            (if Cli.u_addContradict options then incrementContradicting d i else d) !! k
            = (fun r => if Cli.u_addContradict options
                        then (if decide (id r = i)
                              then set_contradicting_count (contradicting_count r + 1) r
                              else r)
                        else r) <$> d !! k) as Hcon.
  { intros d. destruct (Cli.u_addContradict options); [|by destruct (d !! k)].
    unfold incrementContradicting. apply (sql_update_lookup (fun r => id r = i)). }
  rewrite Hcon, Hsup. destruct (db !! k) as [r|]; [|done].
  cbn [fmap option_fmap option_map]. f_equal. apply update_belief_row.
Qed.

Lemma sql_div_zero : sql_div binding 0 dayInMs = 0.
Proof. destruct binding; simpl; [|done]. unfold Rdiv. apply Rmult_0_l. Qed.

(** X26. [update-belief] leaves every belief with another id as it is.  On
    the belief with the id, invalidated or not, it adds one to the counters
    the flags name, writes the confidence and the importance that were
    given, as they were given, and always writes [last_evaluated]; it finds
    no belief exactly when the id is not stored.  A decay sweep at the same
    clock time then leaves that belief as it is. *)
Theorem update_belief_spec (db : list BeliefRow) (now : Z) (i : string)
    (options : Cli.UpdateOptions) :
  let out := Cli.update_belief db now i options in
  (forall k (r : BeliefRow), db !! k = Some r ->
     out.1 !! k = Some (if decide (id r = i) then updated_row now options r else r))
  /\ (out.2 = None <-> i ∉ id <$> db)
  /\ out.2 = getById out.1 i
  /\ (forall k (r' : BeliefRow), out.1 !! k = Some r' -> id r' = i ->
        (applyConfidenceDecay config binding out.1 now).1 !! k = Some r').
Proof.
  intros out. subst out.
  assert (forall k (r : BeliefRow), db !! k = Some r ->
            (Cli.update_belief db now i options).1 !! k
            = Some (if decide (id r = i) then updated_row now options r else r)) as Hrows
    by (intros k r Hk; by rewrite update_belief_lookup, Hk).
  split; [done|]. split; [|split].
  - assert ((Cli.update_belief db now i options).2
            = getById (Cli.update_belief db now i options).1 i) as ->
      by apply update_reads_back.
    assert (forall d, getById d i = rowToBelief <$> row_of d i) as Hget by done.
    rewrite Hget, fmap_None, eq_None_not_Some, row_of_is_Some.
    assert (id <$> (Cli.update_belief db now i options).1 = id <$> db) as ->; [|done].
    apply list_eq. intros k. rewrite !list_lookup_fmap, update_belief_lookup.
    destruct (db !! k) as [r|]; [|done]. cbn [fmap option_fmap option_map]. f_equal.
    by case_decide.
  - apply update_reads_back.
  - intros k r' Hk Hid. rewrite decay_lookup, Hk. cbn [fmap option_fmap option_map].
    f_equal. case_decide as Hdec; [|done].
    rewrite update_belief_lookup in Hk.
    destruct (db !! k) as [r|]; [|done]. cbn [fmap option_fmap option_map] in Hk.
    injection Hk as <-.
    destruct (decide (id r = i)) as [Hr|Hr]; [|done].
    unfold decayed, elapsedDays. unfold decays in Hdec.
    cbn [last_evaluated updated_row] in *.
    rewrite Z.sub_diag, sql_div_zero, Rmult_0_r, Rminus_0_r.
    rewrite Rmax_right by (destruct Hdec as [_ Hdec]; cbn [confidence] in Hdec; lra).
    apply set_confidence_same.
Qed.

End UpdateCommand.

Lemma update_belief_spec_witness :
  (Cli.update_belief two_rows 9 "b1" (Cli.mkUpdateOptions None None true false)).1 !! 0%nat
  = Some (updated_row 9 (Cli.mkUpdateOptions None None true false)
            (sample_row "b1" 0.7 0 None)).
Proof.
  destruct (update_belief_spec DEFAULT_CONFIG AsInteger two_rows 9 "b1"
              (Cli.mkUpdateOptions None None true false)) as (Hrow & _).
  apply (Hrow 0%nat (sample_row "b1" 0.7 0 None)). reflexivity.
Defined.

(** * Reading a session back *)

Section SessionReads.
Import SessionStore.




End SessionReads.

